(** * go-i2p: descriptor integers, legacy DSA adapter, KeysAndCert parsing
      and the NTCP2 session overlay, embedded shallowly and checked against
      the natural-language specification.

    Conventions of the embedding.
    - A Go [[]byte] is a [list byte]; a fixed array [[n]byte] is a list
      together with a length fact.
    - Go's [int] and [uint64] are [Z] with the 64-bit wrap-around written out.
    - A [*big.Int] is a [Z].
    - A Go run-time panic (slice bounds, index out of range, nil
      dereference) is the [panic] outcome of the [go] monad; a Go [error]
      result is an [option] of an error value, [None] being [nil].
    - A slice is modelled with its capacity equal to its length: slicing
      past the length panics. *)

From Stdlib Require Import String Ascii.
From Stdlib Require Import ZArith Zpow_facts List Lia Bool.
From Stdlib Require Import Strings.Byte.
Import ListNotations.

Local Open Scope Z_scope.

(* ------------------------------------------------------------------ *)
(** ** Bytes and big-endian numbers *)

(** Outcome of a Go call: it returns a value or the goroutine panics. *)
Inductive go (A : Type) : Type :=
| ret (a : A)
| panic.
Arguments ret {A} a.
Arguments panic {A}.

Definition bind {A B} (m : go A) (f : A -> go B) : go B :=
  match m with
  | ret a => f a
  | panic => panic
  end.

Definition fmap {A B} (f : A -> B) (m : go A) : go B :=
  bind m (fun a => ret (f a)).

Notation "x <- m ;; k" := (bind m (fun x => k))
  (at level 61, m at next level, right associativity).

Module GoBytes.

(** Go's conversion [byte(x)]: keep the low eight bits. *)
Definition byte_of_Z (z : Z) : byte :=
  match Byte.of_N (Z.to_N (z mod 256)) with
  | Some b => b
  | None => x00
  end.

Definition Z_of_byte (b : byte) : Z := Z.of_N (Byte.to_N b).

(** [make([]byte, n)]: [n] zero bytes. *)
Definition make (n : nat) : list byte := repeat x00 n.

(** [s[i:]] and [s[i:j]] with Go's bounds checks. *)
Definition len {A} (s : list A) : Z := Z.of_nat (length s).

Definition slice_from {A} (s : list A) (i : Z) : go (list A) :=
  if (0 <=? i) && (i <=? len s)
  then ret (skipn (Z.to_nat i) s) else panic.

Definition slice_to {A} (s : list A) (j : Z) : go (list A) :=
  if (0 <=? j) && (j <=? len s)
  then ret (firstn (Z.to_nat j) s) else panic.

Definition slice {A} (s : list A) (i j : Z) : go (list A) :=
  if (0 <=? i) && (i <=? j) && (j <=? len s)
  then ret (firstn (Z.to_nat (j - i)) (skipn (Z.to_nat i) s)) else panic.

(** [copy(dst, src)]: overwrite the first [min(len dst, len src)] cells of
    [dst]; the result is the new content of [dst]. *)
Definition copy {A} (dst src : list A) : list A :=
  firstn (length dst) src ++ skipn (length src) dst.

(** [copy(s[i:j], src)] and [copy(s[i:], src)] seen from [s]: the cells
    of the sub-slice are overwritten in place, the rest of [s] stays. *)
Definition copy_at {A} (s : list A) (i j : Z) (src : list A) : go (list A) :=
  window <- slice s i j ;;
  ret (firstn (Z.to_nat i) s ++ copy window src ++ skipn (Z.to_nat j) s).

Definition copy_from {A} (s : list A) (i : Z) (src : list A) : go (list A) :=
  window <- slice_from s i ;;
  ret (firstn (Z.to_nat i) s ++ copy window src).

(** [binary.BigEndian.PutUint64] into a fresh 8-byte buffer. *)
Definition PutUint64 (v : Z) : list byte :=
  [ byte_of_Z (Z.shiftr v 56); byte_of_Z (Z.shiftr v 48);
    byte_of_Z (Z.shiftr v 40); byte_of_Z (Z.shiftr v 32);
    byte_of_Z (Z.shiftr v 24); byte_of_Z (Z.shiftr v 16);
    byte_of_Z (Z.shiftr v 8);  byte_of_Z v ].

(** [binary.BigEndian.Uint64]: reads the first eight bytes, panics on a
    shorter slice. *)
Definition Uint64 (b : list byte) : go Z :=
  match b with
  | b0 :: b1 :: b2 :: b3 :: b4 :: b5 :: b6 :: b7 :: _ =>
      ret  (Z.lor (Z_of_byte b7)
           (Z.lor (Z.shiftl (Z_of_byte b6) 8)
           (Z.lor (Z.shiftl (Z_of_byte b5) 16)
           (Z.lor (Z.shiftl (Z_of_byte b4) 24)
           (Z.lor (Z.shiftl (Z_of_byte b3) 32)
           (Z.lor (Z.shiftl (Z_of_byte b2) 40)
           (Z.lor (Z.shiftl (Z_of_byte b1) 48)
                  (Z.shiftl (Z_of_byte b0) 56))))))))
  | _ => panic
  end.

(** [uint64(v)] of an [int], and [int(u)] of a [uint64], on a 64-bit
    platform. *)
Definition uint64 (v : Z) : Z := v mod 2 ^ 64.
Definition int_of_uint64 (u : Z) : Z :=
  if u <? 2 ^ 63 then u else u - 2 ^ 64.

(** [a + b] on [int]: the sum wraps around at 64 bits. *)
Definition int_add (a b : Z) : Z := int_of_uint64 (uint64 (a + b)).

(** [new(big.Int).SetBytes(b)]: the big-endian unsigned value of [b]. *)
Definition SetBytes (b : list byte) : Z :=
  fold_left (fun acc x => acc * 256 + Z_of_byte x) b 0.

(** [x.Bytes()] of a [big.Int]: the minimal big-endian encoding of the
    absolute value, empty for zero.  Digits are produced least
    significant first, one per unit of fuel. *)
Fixpoint le_digits (fuel : nat) (z : Z) : list byte :=
  match fuel with
  | O => []
  | S f => if z <=? 0 then [] else byte_of_Z z :: le_digits f (z / 256)
  end.

Definition BigBytes (z : Z) : list byte :=
  rev (le_digits (S (Z.to_nat (Z.log2 (Z.abs z)))) (Z.abs z)).

(** The value of a list of digits read least significant first. *)
Fixpoint le_value (l : list byte) : Z :=
  match l with
  | [] => 0
  | x :: l' => Z_of_byte x + 256 * le_value l'
  end.

(** [b] left-padded with zero bytes to the width of [n] bytes. *)
Definition left_pad (n : nat) (b : list byte) : list byte :=
  repeat x00 (n - length b) ++ b.

End GoBytes.
Import GoBytes.

(* ------------------------------------------------------------------ *)
(** ** lib/common: Integer and Length *)

Module common.

Definition INTEGER_SIZE : Z := 8.

(** [Integer(number []byte) int] of integer.go. *)
Definition Integer (number : list byte) : go Z :=
  let num_len := len number in
  let number :=
    if num_len <? INTEGER_SIZE
    then make (Z.to_nat (INTEGER_SIZE - num_len)) ++ number
    else number in
  fmap int_of_uint64 (Uint64 number).

(** [IntegerBytes(value int) []byte] of integer.go. *)
Definition IntegerBytes (value : Z) : list byte :=
  PutUint64 (uint64 value).

(** [Length(number []byte) int] of length.go. *)
Definition Length (number : list byte) : go Z :=
  let num_len := len number in
  let number :=
    if num_len <? INTEGER_SIZE
    then make (Z.to_nat (INTEGER_SIZE - num_len)) ++ number
    else number in
  fmap int_of_uint64 (Uint64 number).

(** The loop [for i, j := range onumber { index = i; if j != 0 { break } }]
    of [LengthBytes]: [i] is the position of the head of [l], [index] the
    value the variable holds before the iteration. *)
Fixpoint scan_index (i : Z) (l : list byte) (index : Z) : Z :=
  match l with
  | [] => index
  | j :: rest =>
      if Byte.eqb j x00 then scan_index (i + 1) rest i else i
  end.

(** [LengthBytes(value int) []byte] of length.go. *)
Definition LengthBytes (value : Z) : go (list byte) :=
  let onumber := PutUint64 (uint64 value) in
  let index := scan_index 0 onumber 0 in
  tail <- slice_from onumber index ;;
  let index := if len tail =? 1 then index - 1 else index in
  slice_from onumber index.

End common.

(* ------------------------------------------------------------------ *)
(** ** lib/crypto/dsa: the legacy DSA adapter *)

Module dsa.

(** The sentinel errors of lib/crypto/types that dsa.go returns, and an
    error handed back by Go's crypto/dsa. *)
Inductive error : Type :=
| ErrInvalidSignature
| ErrBadSignatureSize
| ErrInvalidKeyFormat
| ErrCryptoDSA (msg : string).

Definition dsap_bytes : list byte :=
  [ x9c; x05; xb2; xaa; x96; x0d; x9b; x97; xb8; x93; x19; x63; xc9; xcc; x9e; x8c;
    x30; x26; xe9; xb8; xed; x92; xfa; xd0; xa6; x9c; xc8; x86; xd5; xbf; x80; x15;
    xfc; xad; xae; x31; xa0; xad; x18; xfa; xb3; xf0; x1b; x00; xa3; x58; xde; x23;
    x76; x55; xc4; x96; x4a; xfa; xa2; xb3; x37; xe9; x6a; xd3; x16; xb9; xfb; x1c;
    xc5; x64; xb5; xae; xc5; xb6; x9a; x9f; xf6; xc3; xe4; x54; x87; x07; xfe; xf8;
    x50; x3d; x91; xdd; x86; x02; xe8; x67; xe6; xd3; x5d; x22; x35; xc1; x86; x9c;
    xe2; x47; x9c; x3b; x9d; x54; x01; xde; x04; xe0; x72; x7f; xb3; x3d; x65; x11;
    x28; x5d; x4c; xf2; x95; x38; xd9; xe3; xb6; x05; x1f; x5b; x22; xcc; x1c; x93 ].

Definition dsaq_bytes : list byte :=
  [ xa5; xdf; xc2; x8f; xef; x4c; xa1; xe2; x86; x74; x4c; xd8; xee; xd9; xd2; x9d;
    x68; x40; x46; xb7 ].

Definition dsag_bytes : list byte :=
  [ x0c; x1f; x4d; x27; xd4; x00; x93; xb4; x29; xe9; x62; xd7; x22; x38; x24; xe0;
    xbb; xc4; x7e; x7c; x83; x2a; x39; x23; x6f; xc6; x83; xaf; x84; x88; x95; x81;
    x07; x5f; xf9; x08; x2e; xd3; x23; x53; xd4; x37; x4d; x73; x01; xcd; xa1; xd2;
    x3c; x43; x1f; x46; x98; x59; x9d; xda; x02; x45; x18; x24; xff; x36; x97; x52;
    x59; x36; x47; xcc; x3d; xdc; x19; x7d; xe9; x85; xe4; x3d; x13; x6c; xdc; xfc;
    x6b; xd5; x40; x9c; xd2; xf4; x50; x82; x11; x42; xa5; xe6; xf8; xeb; x1c; x3a;
    xb5; xd0; x48; x4b; x81; x29; xfc; xf1; x7b; xce; x4f; x7f; x33; x32; x1c; x3c;
    xb3; xdb; xb1; x4a; x90; x5e; x7b; x2b; x3e; x93; xbe; x47; x08; xcb; xcc; x82 ].

Definition dsap : Z := Eval vm_compute in SetBytes dsap_bytes.
Definition dsaq : Z := Eval vm_compute in SetBytes dsaq_bytes.
Definition dsag : Z := Eval vm_compute in SetBytes dsag_bytes.

(** crypto/dsa's [Parameters], [PublicKey] and [PrivateKey]. *)
Record Parameters : Type := { P : Z; Q : Z; G : Z }.
Record PublicKey : Type := { pub_Parameters : Parameters; Y : Z }.
Record PrivateKey : Type := { priv_PublicKey : PublicKey; X : Z }.

Definition param : Parameters := {| P := dsap; Q := dsaq; G := dsag |}.

(** Euclid's algorithm with the cofactors: [(d, u, v)] with
    [u * a + v * b = d], one division per unit of fuel. *)
Fixpoint egcd (fuel : nat) (a b : Z) : Z * Z * Z :=
  match fuel with
  | O => (a, 1, 0)
  | S fuel =>
      if b =? 0 then (a, 1, 0)
      else
        let '(d, u, v) := egcd fuel b (a mod b) in
        (d, v, u - a / b * v)
  end.

(** Divisions enough for a second argument below [n]: two for each of
    its bits, and one. *)
Definition egcd_fuel (n : Z) : nat := S (2 * S (Z.to_nat (Z.log2 n))).

(** [z.ModInverse(g, n)] of math/big for [0 < n]: the inverse of [g] in
    the ring of integers modulo [n], taken in [0, n); [nil] when [g] and
    [n] are not relatively prime. *)
Definition ModInverse (g n : Z) : option Z :=
  let '(d, u, _) := egcd (egcd_fuel n) (g mod n) n in
  if d =? 1 then Some (u mod n) else None.

(** [z.Exp(x, y, m)] of math/big on a fresh receiver [z := new(big.Int)],
    for [0 <= x] and [0 < m]: the value of [z] afterwards.  For [0 <= y]
    it is [x ^ y mod m], by square and multiply; for [y < 0] it is the
    inverse of [x] modulo [m] to the power [-y], and when [x] has no
    inverse [z] is left as it was, zero. *)
Definition Exp (x y m : Z) : Z :=
  if y <? 0 then
    match ModInverse x m with
    | Some inverse => Zpow_mod inverse (- y) m
    | None => 0
    end
  else Zpow_mod x y m.

(** [createDSAPublicKey(Y)]. *)
Definition createDSAPublicKey (Y0 : Z) : PublicKey :=
  {| pub_Parameters := param; Y := Y0 |}.

(** [createDSAPrivkey(X)]; the [nil] result is [None]. *)
Definition createDSAPrivkey (X0 : Z) : option PrivateKey :=
  match X0 ?= dsap with
  | Lt =>
      let Y0 := Exp dsag X0 dsap in
      Some {| priv_PublicKey := {| pub_Parameters := param; Y := Y0 |};
              X := X0 |}
  | _ => None
  end.

Record DSAVerifier : Type := { verifier_k : PublicKey }.
Record DSASigner : Type := { signer_k : option PrivateKey }.

(** [DSAPublicKey] is [[128]byte] and [DSAPrivateKey] is [[20]byte]. *)
Definition DSAPublicKey_size : nat := 128.
Definition DSAPrivateKey_size : nat := 20.

(** [(k DSAPublicKey) NewVerifier()]. *)
Definition NewVerifier (k : list byte) : DSAVerifier * option error :=
  ({| verifier_k := createDSAPublicKey (SetBytes k) |}, None).

(** [(k DSAPrivateKey) NewSigner()]. *)
Definition NewSigner (k : list byte) : DSASigner * option error :=
  ({| signer_k := createDSAPrivkey (SetBytes k) |}, None).

(** [(k DSAPrivateKey) Public()]: the result array starts zeroed. *)
Definition Public (k : list byte) : list byte * option error :=
  let pk := make DSAPublicKey_size in
  match createDSAPrivkey (SetBytes k) with
  | None => (pk, Some ErrInvalidKeyFormat)
  | Some p => (copy pk (BigBytes (Y (priv_PublicKey p))), None)
  end.

Section CryptoDSA.

(** Go's crypto/dsa, used through two entry points: [dsa.Verify(pub, hash,
    r, s)] and [dsa.Sign(rand, priv, hash)].  [Entropy] stands for what
    [rand.Reader] delivers to one call. *)
Variable dsa_Verify : PublicKey -> list byte -> Z -> Z -> bool.
Context {Entropy : Type}.
Variable dsa_Sign : Entropy -> PrivateKey -> list byte -> Z * Z * option error.

(** [(v *DSAVerifier) VerifyHash(h, sig)]. *)
Definition VerifyHash (v : DSAVerifier) (h sig : list byte) : go (option error) :=
  if len sig =? 40 then
    sig_r <- slice_to sig 20 ;;
    sig_s <- slice_from sig 20 ;;
    let r := SetBytes sig_r in
    let s := SetBytes sig_s in
    if dsa_Verify (verifier_k v) h r s
    then ret None
    else ret (Some ErrInvalidSignature)
  else ret (Some ErrBadSignatureSize).

(** [(ds *DSASigner) SignHash(h)]; [sig] is [nil] when signing fails. *)
Definition SignHash (ds : DSASigner) (rnd : Entropy) (h : list byte)
  : go (list byte * option error) :=
  match signer_k ds with
  | None => panic
  | Some k =>
      let '(r, s, err) := dsa_Sign rnd k h in
      match err with
      | None =>
          let sig := make 40 in
          let rb := BigBytes r in
          let rl := len rb in
          sig <- copy_at sig (20 - rl) 20 rb ;;
          let sb := BigBytes s in
          let sl := len sb in
          sig <- copy_from sig (20 + (20 - sl)) sb ;;
          ret (sig, None)
      | Some e => ret ([], Some e)
      end
  end.

End CryptoDSA.

Section Hashing.

(** [sha1.Sum(data)], Go's crypto/dsa again, and [dsa.GenerateKey(priv,
    rand)]: from the entropy of one call and the parameters put into [priv]
    it gives the new [X] and [Y], or an error. *)
Variable sha1_Sum : list byte -> list byte.
Variable dsa_Verify : PublicKey -> list byte -> Z -> Z -> bool.
Context {Entropy : Type}.
Variable dsa_Sign : Entropy -> PrivateKey -> list byte -> Z * Z * option error.
Variable dsa_GenerateKey : Entropy -> Parameters -> Z * Z * option error.

(** [(v *DSAVerifier) Verify(data, sig)]. *)
Definition Verify (v : DSAVerifier) (data sig : list byte) : go (option error) :=
  let h := sha1_Sum data in
  VerifyHash dsa_Verify v h sig.

(** [(ds *DSASigner) Sign(data)]. *)
Definition Sign (ds : DSASigner) (rnd : Entropy) (data : list byte)
  : go (list byte * option error) :=
  let h := sha1_Sum data in
  SignHash dsa_Sign ds rnd h.

(** [generateDSA(priv, rand)] on a fresh [priv]: the key afterwards and the
    error.  When the library fails [X] and [Y] are left unset, written 0
    here; [Generate] does not read them then. *)
Definition generateDSA (rnd : Entropy) : PrivateKey * option error :=
  let '(x, y, err) := dsa_GenerateKey rnd param in
  match err with
  | None =>
      ({| priv_PublicKey := {| pub_Parameters := param; Y := y |}; X := x |},
       None)
  | Some e =>
      ({| priv_PublicKey := {| pub_Parameters := param; Y := 0 |}; X := 0 |},
       Some e)
  end.

(** [(k DSAPrivateKey) Generate()]: [k] is the receiver's copy of the
    array, [s] the zero array when generation fails. *)
Definition Generate (k : list byte) (rnd : Entropy) : list byte * option error :=
  let '(dk, err) := generateDSA rnd in
  match err with
  | None => (copy k (BigBytes (X dk)), None)
  | Some e => (make DSAPrivateKey_size, Some e)
  end.

End Hashing.

End dsa.

(* ------------------------------------------------------------------ *)
(** ** lib/common: KeysAndCert *)

Module keys_and_cert.

Definition KEYS_AND_CERT_PUBKEY_SIZE : Z := 256.
Definition KEYS_AND_CERT_SPK_SIZE : Z := 128.
Definition KEYS_AND_CERT_MIN_SIZE : Z := 387.
Definition KEYS_AND_CERT_DATA_SIZE : Z := 384.

(** The certificate type tag of a KEY certificate; the types are numbered
    NULL, HASHCASH, HIDDEN, SIGNED, MULTIPLE, KEY from zero, and the test
    data of lease_set_test.go starts a KEY certificate with the byte 0x05. *)
Definition CERT_KEY : Z := 5.

(** [KeyCertificate{PKType: ...}] and [KeyCertificate{SPKType: ...}]: the
    two fields the struct literals of [ReadKeys] set; an unset field is 0. *)
Record KeyCertificate : Type := { PKType : Z; SPKType : Z }.

Section Parsing.

(** The collaborators of this file that are declared elsewhere in the
    repository: the [Certificate] type with its accessors and reader, and
    the two constructors of [KeyCertificate].  [ForeignError] is the type of
    the errors they hand back; [KeyImpl] and [SigningKeyImpl] are the key
    implementations other than the two legacy ones named here. *)
Context {ForeignError : Type}.
Context {Certificate : Type}.
Variable zero_Certificate : Certificate.
Variable cert_Type : Certificate -> Z * option ForeignError.
Variable cert_Length : Certificate -> Z * option ForeignError.
Variable ReadCertificate :
  list byte -> Certificate * list byte * option ForeignError.
Context {KeyImpl : Type}.
Context {SigningKeyImpl : Type}.

(** A [crypto.PublicKey] interface value that is not [nil]. *)
Inductive PublicKey : Type :=
| ElgPublicKey (k : list byte)
| OtherPublicKey (k : KeyImpl).

(** A [crypto.SigningPublicKey] interface value that is not [nil]. *)
Inductive SigningPublicKey : Type :=
| DSAPublicKey (k : list byte)
| OtherSigningPublicKey (k : SigningKeyImpl).

Variable ConstructPublicKey :
  KeyCertificate -> list byte -> option PublicKey * option ForeignError.
Variable ConstructSigningPublicKey :
  KeyCertificate -> list byte -> option SigningPublicKey * option ForeignError.

(** [errors.New("error parsing KeysAndCert: data is smaller than minimum
    valid size")], and an error of a collaborator passed on. *)
Inductive error : Type :=
| ErrDataTooSmall
| ErrForeign (e : ForeignError).

Definition foreign (e : option ForeignError) : option error :=
  option_map ErrForeign e.

Record KeysAndCert : Type := {
  kac_SigningPublicKey : option SigningPublicKey;
  kac_PublicKey : option PublicKey;
  kac_Certificate : Certificate
}.

(** The zero value of the struct. *)
Definition zero_KeysAndCert : KeysAndCert :=
  {| kac_SigningPublicKey := None;
     kac_PublicKey := None;
     kac_Certificate := zero_Certificate |}.

(** [(keys_and_cert KeysAndCert) GetCertificate()]. *)
Definition GetCertificate (keys_and_cert : KeysAndCert)
  : Certificate * option ForeignError :=
  let '(_, err) := cert_Type (kac_Certificate keys_and_cert) in
  match err with
  | Some e => (zero_Certificate, Some e)
  | None => (kac_Certificate keys_and_cert, None)
  end.

(** [(keys_and_cert KeysAndCert) GetPublicKey()]. *)
Definition GetPublicKey (keys_and_cert : KeysAndCert)
  : option PublicKey * option ForeignError :=
  let '(cert, err) := GetCertificate keys_and_cert in
  match err with
  | Some e => (None, Some e)
  | None =>
      let '(cert_len, err) := cert_Length cert in
      match err with
      | Some e => (None, Some e)
      | None =>
          if negb (cert_len =? 0)
          then (kac_PublicKey keys_and_cert, None)
          else (None, None)
      end
  end.

(** [(keys_and_cert KeysAndCert) GetSigningPublicKey()]. *)
Definition GetSigningPublicKey (keys_and_cert : KeysAndCert)
  : option SigningPublicKey * option ForeignError :=
  let '(cert, err) := GetCertificate keys_and_cert in
  match err with
  | Some e => (None, Some e)
  | None =>
      let '(cert_len, err) := cert_Length cert in
      match err with
      | Some e => (None, Some e)
      | None =>
          if negb (cert_len =? 0)
          then (kac_SigningPublicKey keys_and_cert, None)
          else (None, None)
      end
  end.

(** The results of [ReadKeys], and [data_after]: the content of the
    caller's buffer when the call returns ([copy] writes into it). *)
Record ReadKeys_result : Type := {
  spk : option SigningPublicKey;
  pk : option PublicKey;
  remainder : list byte;
  err : option error;
  data_after : list byte
}.

(** [ReadKeys(data, cert)].  The assignments to [cert.CertBytes] change a
    local copy only; their slice expressions are evaluated for the bounds
    checks.  [KEYS_AND_CERT_MIN_SIZE+cert_len] is a sum of [int]s and
    wraps around. *)
Definition ReadKeys (data : list byte) (cert : Certificate)
  : go ReadKeys_result :=
  let data_len := len data in
  if data_len <? KEYS_AND_CERT_MIN_SIZE then
    ret {| spk := None; pk := None; remainder := [];
           err := Some ErrDataTooSmall; data_after := data |}
  else
    (* the public key *)
    r1 <-
      (if data_len =? 0 then
         let elg_key := make (Z.to_nat KEYS_AND_CERT_PUBKEY_SIZE) in
         data' <- copy_at data 0 KEYS_AND_CERT_PUBKEY_SIZE elg_key ;;
         ret (Some (ElgPublicKey elg_key), @None error, data')
       else
         let '(cert_type, _) := cert_Type cert in
         if cert_type =? CERT_KEY then
           slot <- slice_to data KEYS_AND_CERT_PUBKEY_SIZE ;;
           let '(k, e) :=
             ConstructPublicKey {| PKType := cert_type; SPKType := 0 |} slot in
           ret (k, foreign e, data)
         else
           let elg_key := make (Z.to_nat KEYS_AND_CERT_PUBKEY_SIZE) in
           data' <- copy_at data 0 KEYS_AND_CERT_PUBKEY_SIZE elg_key ;;
           ret (Some (ElgPublicKey elg_key), @None error, data')) ;;
    let '(pk0, err1, data1) := r1 in
    (* the signing public key *)
    r2 <-
      (if data_len =? 0 then
         slot <- slice data1 KEYS_AND_CERT_PUBKEY_SIZE
                   (KEYS_AND_CERT_PUBKEY_SIZE + KEYS_AND_CERT_SPK_SIZE) ;;
         let dsa_pk := copy (make (Z.to_nat KEYS_AND_CERT_SPK_SIZE)) slot in
         ret (Some (DSAPublicKey dsa_pk), err1)
       else
         let '(cert_type, _) := cert_Type cert in
         if cert_type =? CERT_KEY then
           slot <- slice data1 KEYS_AND_CERT_PUBKEY_SIZE
                     (KEYS_AND_CERT_PUBKEY_SIZE + KEYS_AND_CERT_SPK_SIZE) ;;
           let '(k, e) :=
             ConstructSigningPublicKey {| PKType := 0; SPKType := cert_type |} slot in
           ret (k, foreign e)
         else
           slot <- slice data1 KEYS_AND_CERT_PUBKEY_SIZE
                     (KEYS_AND_CERT_PUBKEY_SIZE + KEYS_AND_CERT_SPK_SIZE) ;;
           let dsa_pk := copy (make (Z.to_nat KEYS_AND_CERT_SPK_SIZE)) slot in
           ret (Some (DSAPublicKey dsa_pk), err1)) ;;
    let '(spk0, err2) := r2 in
    (* the certificate payload and the remainder *)
    let '(cert_len, cert_len_err) := cert_Length cert in
    if cert_len =? 0 then
      rest <- slice_from data1 KEYS_AND_CERT_MIN_SIZE ;;
      ret {| spk := spk0; pk := pk0; remainder := rest;
             err := err2; data_after := data1 |}
    else if data_len <? int_add KEYS_AND_CERT_MIN_SIZE cert_len then
      _ <- slice_from data1 KEYS_AND_CERT_MIN_SIZE ;;
      ret {| spk := spk0; pk := pk0; remainder := [];
             err := foreign cert_len_err; data_after := data1 |}
    else
      _ <- slice data1 KEYS_AND_CERT_MIN_SIZE
             (int_add KEYS_AND_CERT_MIN_SIZE cert_len) ;;
      rest <- slice_from data1 (int_add KEYS_AND_CERT_MIN_SIZE cert_len) ;;
      ret {| spk := spk0; pk := pk0; remainder := rest;
             err := err2; data_after := data1 |}.

(** The results of [ReadKeysAndCert], with the caller's buffer as it is
    left. *)
Record ReadKeysAndCert_result : Type := {
  keys_and_cert : KeysAndCert;
  kac_remainder : list byte;
  kac_err : option error;
  kac_data_after : list byte
}.

(** [ReadKeysAndCert(data)].  [keys_and_cert] is still the zero value when
    [GetCertificate] is called on it. *)
Definition ReadKeysAndCert (data : list byte) : go ReadKeysAndCert_result :=
  let data_len := len data in
  if data_len <? KEYS_AND_CERT_MIN_SIZE then
    ret {| keys_and_cert := zero_KeysAndCert; kac_remainder := [];
           kac_err := Some ErrDataTooSmall; kac_data_after := data |}
  else
    head <- slice_to data KEYS_AND_CERT_MIN_SIZE ;;
    let '(_, remainder0, err0) := ReadCertificate head in
    match err0 with
    | Some e =>
        ret {| keys_and_cert := zero_KeysAndCert; kac_remainder := remainder0;
               kac_err := Some (ErrForeign e); kac_data_after := data |}
    | None =>
        let '(cert, _) := GetCertificate zero_KeysAndCert in
        r <- ReadKeys data cert ;;
        match err r with
        | Some e =>
            ret {| keys_and_cert := zero_KeysAndCert;
                   kac_remainder := remainder r;
                   kac_err := Some e; kac_data_after := data_after r |}
        | None =>
            ret {| keys_and_cert :=
                     {| kac_SigningPublicKey := spk r;
                        kac_PublicKey := pk r;
                        kac_Certificate := cert |};
                   kac_remainder := remainder r;
                   kac_err := None; kac_data_after := data_after r |}
        end
    end.

End Parsing.

End keys_and_cert.

(* ------------------------------------------------------------------ *)
(** ** Go's crypto/cipher: CBC mode over a 16-byte block cipher *)

Module cipher.

Definition BlockSize : Z := 16.

(** [a ^ b] on bytes. *)
Definition xor_byte (a b : byte) : byte :=
  byte_of_Z (Z.lxor (Z_of_byte a) (Z_of_byte b)).

(** [subtle.XORBytes(dst, x, y)]: as many bytes as the shorter operand has. *)
Fixpoint XORBytes (x y : list byte) : list byte :=
  match x, y with
  | a :: x', b :: y' => xor_byte a b :: XORBytes x' y'
  | _, _ => []
  end.

Section CBC.

(** The block cipher under the mode: [b.Encrypt(dst, src)] and
    [b.Decrypt(dst, src)] on one block, by key. *)
Variable Encrypt : list byte -> list byte -> list byte.
Variable Decrypt : list byte -> list byte -> list byte.

(** The loop of [(x *cbcEncrypter) CryptBlocks]: [n] blocks are left in
    [src]; each block is xored with the previous ciphertext block (the IV
    at first) and encrypted. *)
Fixpoint encrypt_blocks (n : nat) (key iv src : list byte) : list byte :=
  match n with
  | O => []
  | S n' =>
      let c := Encrypt key (XORBytes (firstn 16 src) iv) in
      c ++ encrypt_blocks n' key c (skipn 16 src)
  end.

(** The loop of [(x *cbcDecrypter) CryptBlocks]: each block is decrypted
    and xored with the previous ciphertext block (the IV at first). *)
Fixpoint decrypt_blocks (n : nat) (key iv src : list byte) : list byte :=
  match n with
  | O => []
  | S n' =>
      let c := firstn 16 src in
      XORBytes (Decrypt key c) iv ++ decrypt_blocks n' key c (skipn 16 src)
  end.

(** [cipher.NewCBCEncrypter(block, iv).CryptBlocks(dst, src)]: the content
    of [dst] afterwards.  The panics of the library are kept: an IV that
    is not one block long, input that is not a whole number of blocks, and
    an output shorter than the input. *)
Definition CBCEncrypter_CryptBlocks (key iv dst src : list byte)
  : go (list byte) :=
  if negb (len iv =? BlockSize) then panic
  else if negb (len src mod BlockSize =? 0) then panic
  else if len dst <? len src then panic
  else ret (copy dst (encrypt_blocks (Z.to_nat (len src / BlockSize)) key iv src)).

Definition CBCDecrypter_CryptBlocks (key iv dst src : list byte)
  : go (list byte) :=
  if negb (len iv =? BlockSize) then panic
  else if negb (len src mod BlockSize =? 0) then panic
  else if len dst <? len src then panic
  else ret (copy dst (decrypt_blocks (Z.to_nat (len src / BlockSize)) key iv src)).

End CBC.

End cipher.

(* ------------------------------------------------------------------ *)
(** ** lib/transport/ntcp: the NTCP2 transport and session *)

Module ntcp.

Definition NTCP_PROTOCOL_VERSION : Z := 2.
Definition NTCP_PROTOCOL_NAME : string := "NTCP2".
Definition NTCP_MESSAGE_MAX_SIZE : Z := 65537.

Section Transport.

(** The descriptor types of lib/common, seen through the accessors the
    transport calls: [addr.TransportStyle().Data()] and [addr.StaticKey()]
    (a [[32]byte] and an error).  [ForeignError] is the type of the errors
    of these collaborators. *)
Context {ForeignError : Type}.
Context {RouterAddress : Type}.
Variable TransportStyle_Data : RouterAddress -> string * option ForeignError.
Variable StaticKey : RouterAddress -> list byte * option ForeignError.

(** AES by key: one block in, one block out. *)
Variable aes_Encrypt : list byte -> list byte -> list byte.
Variable aes_Decrypt : list byte -> list byte -> list byte.

(** A [router_info.RouterInfo], as far as the transport reads it. *)
Record RouterInfo : Type := { RouterAddresses : list RouterAddress }.

(** An [NTCP2Session]: the embedded [NoiseSession] carries the peer's
    [RouterInfo]. *)
Record NTCP2Session : Type := { session_RouterInfo : RouterInfo }.

(** [fmt.Errorf("Remote static key error")], [aes.KeySizeError(n)], and an
    error of a collaborator passed on. *)
Inductive error : Type :=
| ErrRemoteStaticKey
| KeySizeError (n : Z)
| ErrForeign (e : ForeignError).

Definition foreign (e : option ForeignError) : option error :=
  option_map ErrForeign e.

(** An address has the transport style of this protocol when its
    transport-style string decodes without error and equals the protocol
    name. *)
Definition has_NTCP2_style (addr : RouterAddress) : Prop :=
  TransportStyle_Data addr = (NTCP_PROTOCOL_NAME, None).

(** The loop of [peerStaticKey] over the addresses that are left. *)
Fixpoint peerStaticKey_loop (addrs : list RouterAddress)
  : list byte * option error :=
  match addrs with
  | [] => (make 32, Some ErrRemoteStaticKey)
  | addr :: rest =>
      let '(transportStyle, err) := TransportStyle_Data addr in
      match err with
      | Some _ => peerStaticKey_loop rest
      | None =>
          if String.eqb transportStyle NTCP_PROTOCOL_NAME
          then let '(k, e) := StaticKey addr in (k, foreign e)
          else peerStaticKey_loop rest
      end
  end.

(** [(s *NTCP2Session) peerStaticKey()]. *)
Definition peerStaticKey (s : NTCP2Session) : list byte * option error :=
  peerStaticKey_loop (RouterAddresses (session_RouterInfo s)).

(** The loop of [Compatible] over the addresses that are left. *)
Fixpoint Compatible_loop (addrs : list RouterAddress) : bool :=
  match addrs with
  | [] => false
  | addr :: rest =>
      let '(transportStyle, err) := TransportStyle_Data addr in
      match err with
      | Some _ => Compatible_loop rest
      | None =>
          if String.eqb transportStyle NTCP_PROTOCOL_NAME
          then true
          else Compatible_loop rest
      end
  end.

(** [(t *Transport) Compatible(routerInfo)]. *)
Definition Compatible (routerInfo : RouterInfo) : bool :=
  Compatible_loop (RouterAddresses routerInfo).

(** [aes.NewCipher(key)]: the block is determined by its key; any length
    other than 16, 24 or 32 is a [KeySizeError]. *)
Definition aes_NewCipher (key : list byte) : option (list byte) * option error :=
  let k := len key in
  if (k =? 16) || (k =? 24) || (k =? 32)
  then (Some key, None)
  else (None, Some (KeySizeError k)).

(** [(s *NTCP2Session) ObfuscateEphemeral(key)]. *)
Definition ObfuscateEphemeral (s : NTCP2Session) (key : list byte)
  : go (list byte * option error) :=
  let '(static, err) := peerStaticKey s in
  match err with
  | Some e => ret ([], Some e)
  | None =>
      match aes_NewCipher static with
      | (Some block, None) =>
          let obfuscated := make (length key) in
          let iv := make (Z.to_nat cipher.BlockSize) in
          obfuscated <-
            cipher.CBCEncrypter_CryptBlocks aes_Encrypt block iv obfuscated key ;;
          ret (obfuscated, None)
      | (_, Some e) => ret ([], Some e)
      | (None, None) => panic
      end
  end.

(** [(s *NTCP2Session) DeobfuscateEphemeral(obfuscated)]. *)
Definition DeobfuscateEphemeral (s : NTCP2Session) (obfuscated : list byte)
  : go (list byte * option error) :=
  let '(static, err) := peerStaticKey s in
  match err with
  | Some e => ret ([], Some e)
  | None =>
      match aes_NewCipher static with
      | (Some block, None) =>
          let key := make (length obfuscated) in
          let iv := make (Z.to_nat cipher.BlockSize) in
          key <-
            cipher.CBCDecrypter_CryptBlocks aes_Decrypt block iv key obfuscated ;;
          ret (key, None)
      | (_, Some e) => ret ([], Some e)
      | (None, None) => panic
      end
  end.

End Transport.

End ntcp.

(* ------------------------------------------------------------------ *)
(** ** lib/transport/ntcp: SessionRequestProcessor (message 1) *)

Module session_request.

(** An [Integer] of lib/common/data: the bytes of a big-endian integer of
    some fixed width. *)
Definition Integer : Type := list byte.

Definition MAX_INTEGER_SIZE : Z := 8.

(** Modelled from the spec: [NewInteger(bytes, size)] of lib/common/data is
    not among the sources.  It reads an integer of [size] bytes (eight at
    most) off the front of [bytes] and hands back the rest; the spec has
    fixed fields parse unconditionally and each structure return the
    remainder for the next.  The order of the arguments is the one of the
    call [NewInteger(data, 1)] that reads the one-byte cost in
    [ReadRouterAddress]. *)
Definition NewInteger {E : Type} (bytes : list byte) (size : Z)
  : go (option Integer * list byte * option E) :=
  let integerSize := if size <? MAX_INTEGER_SIZE then size else MAX_INTEGER_SIZE in
  intBytes <- slice_to bytes integerSize ;;
  remainder <- slice_from bytes integerSize ;;
  ret (Some intBytes, remainder, None).

(** Modelled from the spec: [NewIntegerFromInt(value, size)] of
    lib/common/data is not among the sources.  It is the big-endian
    encoding of [value] (all multi-byte integers are big-endian) in [size]
    bytes: the last [size] bytes of the eight that [IntegerBytes] of
    integer.go writes.  The order of the arguments is the one of
    router_info2_test.go, which builds the two-byte key types of a key
    certificate as [NewIntegerFromInt(7, 2)] and [NewIntegerFromInt(0, 2)]. *)
Definition NewIntegerFromInt {E : Type} (value size : Z)
  : go (option Integer * option E) :=
  let bytes := common.IntegerBytes value in
  let integerSize := if size <? MAX_INTEGER_SIZE then size else MAX_INTEGER_SIZE in
  tail <- slice_from bytes (MAX_INTEGER_SIZE - integerSize) ;;
  r <- NewInteger (E := E) tail integerSize ;;
  let '(objinteger, _, err) := r in
  ret (objinteger, err).

Section Processor.

(** [ForeignError]: the errors of crypto/rand and lib/common/data.
    [Time] and [Date]: [time.Time] and the [Date] of lib/common/data, with
    [data.DateFromTime] between them. *)
Context {ForeignError : Type}.
Context {Time : Type}.
Context {Date : Type}.
Variable DateFromTime : Time -> option Date * option ForeignError.

(** [messages.RequestOptions], by the fields [CreateMessage] names; a field
    the struct literal leaves out is [nil]. *)
Record RequestOptions : Type := {
  NetworkID : option Integer;
  ProtocolVersion : option Integer;
  PaddingLength : option Integer;
  Message3Part2Length : option Integer;
  Timestamp : option Date
}.

(** [messages.SessionRequest]. *)
Record SessionRequest : Type := {
  XContent : list byte;
  Options : RequestOptions;
  Padding : list byte
}.

(** What one call of [CreateMessage] takes from outside: the bytes and the
    error of [rand.Read], the number and the error of
    [rand.Int(rand.Reader, big.NewInt(16))], and the session's clock. *)
Record Environment : Type := {
  rand_Read : list byte * option ForeignError;
  rand_Int : Z * option ForeignError;
  GetCurrentTime : Time
}.

(** [(s *SessionRequestProcessor) CreateMessage(hs)]; the message is [nil]
    when an error is returned. *)
Definition CreateMessage (env : Environment)
  : go (option SessionRequest * option ForeignError) :=
  let ephemeralKey := copy (make 32) (fst (rand_Read env)) in
  match snd (rand_Read env) with
  | Some e => ret (None, Some e)
  | None =>
  let '(randomInt, err) := rand_Int env in
  match err with
  | Some e => ret (None, Some e)
  | None =>
  if randomInt <? 0 then panic else
  let padding := make (Z.to_nat randomInt) in
  r <- NewIntegerFromInt 2 1 ;;
  let '(netId, err) := r in
  match err with
  | Some e => ret (None, Some e)
  | None =>
  r <- NewIntegerFromInt 2 1 ;;
  let '(version, err) := r in
  match err with
  | Some e => ret (None, Some e)
  | None =>
  r <- NewInteger [byte_of_Z (len padding)] 1 ;;
  let '(paddingLen, _, err) := r in
  match err with
  | Some e => ret (None, Some e)
  | None =>
  let '(timestamp, err) := DateFromTime (GetCurrentTime env) in
  match err with
  | Some e => ret (None, Some e)
  | None =>
  let requestOptions :=
    {| NetworkID := netId;
       ProtocolVersion := version;
       PaddingLength := paddingLen;
       Message3Part2Length := None;
       Timestamp := timestamp |} in
  ret (Some {| XContent := ephemeralKey;
               Options := requestOptions;
               Padding := padding |}, None)
  end end end end end end.

(** The width in bytes of an integer field, when it is set. *)
Definition width (i : option Integer) : option Z := option_map len i.

(** The widths the specification gives to the integer fields of the
    options block: two bytes for the network ID, two for the protocol
    version, one for the padding length, two for the reserved length. *)
Definition specified_widths (o : RequestOptions) : Prop :=
  width (NetworkID o) = Some 2 /\
  width (ProtocolVersion o) = Some 2 /\
  width (PaddingLength o) = Some 1 /\
  width (Message3Part2Length o) = Some 2.

End Processor.

End session_request.

(* ------------------------------------------------------------------ *)
(** ** lib/transport/ntcp: the message processor and the transport *)

Module processor.
Import session_request.

Section SessionRequestProcessor.

Context {ForeignError : Type}.
Context {RouterAddress : Type}.
Context {Date : Type}.
Context {OtherMessage : Type}.
Variable TransportStyle_Data : RouterAddress -> string * option ForeignError.
Variable StaticKey : RouterAddress -> list byte * option ForeignError.
Variable aes_Encrypt : list byte -> list byte -> list byte.

(** A [messages.Message]: a [*messages.SessionRequest] or a message of
    another type. *)
Inductive Message : Type :=
| SessionRequestMessage (req : @SessionRequest Date)
| AnotherMessage (m : OtherMessage).

(** [oops.Errorf("expected SessionRequest message")], and an error of the
    session passed on. *)
Inductive error : Type :=
| ErrExpectedSessionRequest
| ErrSession (e : @ntcp.error ForeignError).

(** [(p *SessionRequestProcessor) GetPadding(message)]. *)
Definition GetPadding (message : Message) : list byte :=
  match message with
  | SessionRequestMessage req => Padding req
  | AnotherMessage _ => []
  end.

(** [(p *SessionRequestProcessor) ObfuscateKey(message, handshake)]. *)
Definition ObfuscateKey (p : ntcp.NTCP2Session) (message : Message)
  : go (list byte * option error) :=
  match message with
  | SessionRequestMessage req =>
      r <- ntcp.ObfuscateEphemeral TransportStyle_Data StaticKey aes_Encrypt
             p (XContent req) ;;
      ret (fst r, option_map ErrSession (snd r))
  | AnotherMessage _ => ret ([], Some ErrExpectedSessionRequest)
  end.

End SessionRequestProcessor.

End processor.

Module transport.
Import ntcp.

Section Transport.

Context {ForeignError : Type}.
Context {RouterAddress : Type}.
Context {OtherAddr : Type}.
Context {Session : Type}.
Variable TransportStyle_Data : RouterAddress -> string * option ForeignError.

(** The dynamic value of a [net.Addr]: the nil interface, a
    [*router_info.RouterInfo] (a pointer, which may be nil), a
    [router_info.RouterInfo] value, or an address of another type. *)
Inductive Addr : Type :=
| AddrNil
| AddrRouterInfoPtr (p : option (@RouterInfo RouterAddress))
| AddrRouterInfo (ri : @RouterInfo RouterAddress)
| AddrOther (a : OtherAddr).

(** A [net.Conn], by what [Accept] asks of it. *)
Record Conn : Type := { LocalAddr : Addr }.

(** [fmt.Errorf("remote address is not a router address")],
    [fmt.Errorf("remote router address is not compatible with NTCP2")],
    and an error of a collaborator passed on. *)
Inductive error : Type :=
| ErrNotRouterAddress
| ErrNotCompatible
| ErrForeign (e : ForeignError).

(** [t.NoiseTransport.Accept()] and [NewNTCP2Session(routerInfo)], which
    are declared elsewhere in the repository. *)
Variable NoiseTransport_Accept : option Conn * option ForeignError.
Variable NewNTCP2Session :
  @RouterInfo RouterAddress -> option Session * option ForeignError.

(** [(t *Transport) Name()]. *)
Definition Name : string := NTCP_PROTOCOL_NAME.

(** The type assertion of a [net.Addr] to the pointer type
    [*router_info.RouterInfo] in its two-result form, and the assertion to
    the value type [router_info.RouterInfo] in its one-result form, which
    panics when the dynamic type is another one. *)
Definition assert_RouterInfoPtr (a : Addr)
  : option (@RouterInfo RouterAddress) * bool :=
  match a with
  | AddrRouterInfoPtr p => (p, true)
  | _ => (None, false)
  end.

Definition assert_RouterInfo (a : Addr) : go (@RouterInfo RouterAddress) :=
  match a with
  | AddrRouterInfo ri => ret ri
  | _ => panic
  end.

(** [(t *Transport) Accept()]: the connection handed back, which is the
    new session, and the error.  Calling [LocalAddr] on a nil connection
    and dereferencing a nil [*RouterInfo] panic. *)
Definition Accept : go (option Session * option error) :=
  let '(conn, err) := NoiseTransport_Accept in
  match err with
  | Some e => ret (None, Some (ErrForeign e))
  | None =>
      match conn with
      | None => panic
      | Some conn =>
          let remoteAddr := LocalAddr conn in
          let '(routerAddr, ok) := assert_RouterInfoPtr remoteAddr in
          if negb ok then ret (None, Some ErrNotRouterAddress)
          else
            match routerAddr with
            | None => panic
            | Some routerInfo =>
                if negb (Compatible TransportStyle_Data routerInfo)
                then ret (None, Some ErrNotCompatible)
                else
                  arg <- assert_RouterInfo remoteAddr ;;
                  let '(session, err) := NewNTCP2Session arg in
                  match err with
                  | Some e => ret (None, Some (ErrForeign e))
                  | None => ret (session, None)
                  end
            end
      end
  end.

End Transport.

End transport.

(* ------------------------------------------------------------------ *)
(** ** Example inputs *)

Module examples.
Import cipher.

(** A descriptor with an SSU address and an NTCP2 address; an address is
    its transport style and its static key. *)
Definition example_key : list byte := repeat x2a 32.
Definition example_addresses : list (string * list byte) :=
  [ ("SSU"%string, repeat x11 32); ("NTCP2"%string, example_key) ].
Definition example_Data (a : string * list byte) : string * option unit :=
  (fst a, None).
Definition example_StaticKey (a : string * list byte) : list byte * option unit :=
  (snd a, None).
Definition example_session : ntcp.NTCP2Session :=
  {| ntcp.session_RouterInfo := {| ntcp.RouterAddresses := example_addresses |} |}.

(** A stand-in block cipher: xor with the first block of the key. *)
Definition xor_cipher (key block : list byte) : list byte :=
  XORBytes block (firstn 16 key).

(** DSA signing with the nonce as the entropy:
    [r = (g^k mod p) mod q], [s = k^-1 (z + x r) mod q]. *)
Definition example_Sign (k : Z) (priv : dsa.PrivateKey) (h : list byte)
  : Z * Z * option dsa.error :=
  let r := dsa.Exp dsa.dsag k dsa.dsap mod dsa.dsaq in
  let kinv := dsa.Exp k (dsa.dsaq - 2) dsa.dsaq in
  let s := (kinv * (SetBytes h + dsa.X priv * r)) mod dsa.dsaq in
  (r, s, None).

Definition example_signer : dsa.DSASigner := fst (dsa.NewSigner [x02]).
Definition example_privkey : dsa.PrivateKey :=
  {| dsa.priv_PublicKey :=
       {| dsa.pub_Parameters := dsa.param;
          dsa.Y := dsa.Exp dsa.dsag 2 dsa.dsap |};
     dsa.X := 2 |}.
Definition example_hash : list byte := repeat x5a 20.

(** A certificate as its type tag and the length of its payload; a
    KeysAndCert of the minimum size with the NULL certificate. *)
Definition example_cert_Type (c : Z * Z) : Z * option unit := (fst c, None).
Definition example_cert_Length (c : Z * Z) : Z * option unit := (snd c, None).
Definition example_ConstructPublicKey (_ : keys_and_cert.KeyCertificate)
    (_ : list byte)
  : option (@keys_and_cert.PublicKey Empty_set) * option unit := (None, None).
Definition example_ConstructSigningPublicKey (_ : keys_and_cert.KeyCertificate)
    (_ : list byte)
  : option (@keys_and_cert.SigningPublicKey Empty_set) * option unit :=
  (None, None).
Definition example_keys_and_cert_data : list byte :=
  repeat x01 256 ++ repeat x02 128 ++ [x00; x00; x00].

(** The environment of one [CreateMessage]: a clock in milliseconds, a
    date as the eight bytes of that number. *)
Definition example_DateFromTime (t : Z) : option (list byte) * option unit :=
  (Some (common.IntegerBytes t), None).
Definition example_env : @session_request.Environment unit Z :=
  {| session_request.rand_Read := (repeat x07 32, None);
     session_request.rand_Int := (3, None);
     session_request.GetCurrentTime := 1700000000000 |}.

(** Stand-ins for the library behind the DSA adapter: a hash that keeps
    20 bytes, a signer with a fixed result, the verifier that accepts it,
    and a key generator with a fixed 160-bit exponent. *)
Definition example_sha1 (data : list byte) : list byte :=
  left_pad 20 (firstn 20 data).
Definition example_fixed_Sign (_ : unit) (_ : dsa.PrivateKey) (_ : list byte)
  : Z * Z * option dsa.error := (258, 7, None).
Definition example_fixed_Verify (_ : dsa.PublicKey) (_ : list byte) (r s : Z)
  : bool := (r =? 258) && (s =? 7).
Definition example_GenerateKey (_ : unit) (_ : dsa.Parameters)
  : Z * Z * option dsa.error := (2 ^ 159 + 5, 1, None).
Definition example_verifier : dsa.DSAVerifier :=
  {| dsa.verifier_k := dsa.createDSAPublicKey 1 |}.
Definition example_key_signer : dsa.DSASigner :=
  {| dsa.signer_k := Some example_privkey |}.
Definition example_private_key_bytes : list byte := repeat x00 19 ++ [x02].

(** A certificate reader that finds the NULL certificate, and a
    KeysAndCert with a KEY certificate of four payload bytes. *)
Definition example_ReadCertificate (data : list byte)
  : (Z * Z) * list byte * option unit := ((0, 0), skipn 3 data, None).
Definition example_keys_and_cert
  : @keys_and_cert.KeysAndCert (Z * Z) Empty_set Empty_set :=
  {| keys_and_cert.kac_SigningPublicKey :=
       Some (keys_and_cert.DSAPublicKey (repeat x02 128));
     keys_and_cert.kac_PublicKey :=
       Some (keys_and_cert.ElgPublicKey (repeat x01 256));
     keys_and_cert.kac_Certificate := (5, 4) |}.

(** A descriptor without an NTCP2 address, and an address reader whose
    static key is never there. *)
Definition example_session_ssu : ntcp.NTCP2Session :=
  {| ntcp.session_RouterInfo :=
       {| ntcp.RouterAddresses := [ ("SSU"%string, repeat x11 32) ] |} |}.
Definition example_failing_StaticKey (_ : string * list byte)
  : list byte * option unit := (make 32, Some tt).

End examples.

(* ================================================================== *)
(** * Properties *)

Module GoBytesFacts.

Lemma Z_of_byte_range (b : byte) : 0 <= Z_of_byte b < 256.
Proof.
  unfold Z_of_byte. pose proof (Byte.to_N_bounded b). lia.
Qed.

Lemma Z_of_byte_of_Z (z : Z) : Z_of_byte (byte_of_Z z) = z mod 256.
Proof.
  unfold Z_of_byte, byte_of_Z.
  assert (H : 0 <= z mod 256 < 256) by (apply Z.mod_pos_bound; lia).
  destruct (Byte.of_N (Z.to_N (z mod 256))) as [b|] eqn:E.
  - apply Byte.to_of_N in E. rewrite E. lia.
  - apply Byte.of_N_None_iff in E. lia.
Qed.

Lemma byte_of_Z_of_byte (b : byte) : byte_of_Z (Z_of_byte b) = b.
Proof.
  unfold Z_of_byte, byte_of_Z.
  pose proof (Byte.to_N_bounded b) as Hb.
  rewrite Z.mod_small by lia.
  rewrite N2Z.id, Byte.of_to_N. reflexivity.
Qed.

Lemma Z_of_byte_inj (a b : byte) : Z_of_byte a = Z_of_byte b -> a = b.
Proof.
  intros H. rewrite <- (byte_of_Z_of_byte a), <- (byte_of_Z_of_byte b).
  now rewrite H.
Qed.

Lemma Z_of_byte_zero_iff (b : byte) : Z_of_byte b = 0 <-> b = x00.
Proof.
  split; intros H.
  - apply Z_of_byte_inj. rewrite H. reflexivity.
  - subst. reflexivity.
Qed.

(** Joining a high part and a low part that do not overlap. *)
Lemma lor_shiftl_add (lo hi n : Z) :
  0 <= n -> 0 <= lo < 2 ^ n -> Z.lor lo (Z.shiftl hi n) = lo + hi * 2 ^ n.
Proof.
  intros Hn Hlo.
  rewrite Z.shiftl_mul_pow2 by lia.
  rewrite Z.add_comm, <- Z.lxor_lor.
  - symmetry. rewrite Z.lxor_comm. apply Z.add_nocarry_lxor.
    apply Z.bits_inj'. intros k Hk.
    rewrite Z.land_spec, Z.bits_0.
    destruct (Z.lt_ge_cases k n).
    + rewrite Z.mul_pow2_bits_low by lia. reflexivity.
    + replace (Z.testbit lo k) with false; [apply andb_false_r|].
      symmetry. destruct (Z.eq_dec lo 0) as [->|]; [apply Z.bits_0|].
      apply Z.bits_above_log2; [lia|].
      apply Z.log2_lt_pow2; [lia|]. 
      apply Z.lt_le_trans with (2 ^ n); [lia|]. apply Z.pow_le_mono_r; lia.
  - apply Z.bits_inj'. intros k Hk.
    rewrite Z.land_spec, Z.bits_0.
    destruct (Z.lt_ge_cases k n).
    + rewrite Z.mul_pow2_bits_low by lia. apply andb_false_r.
    + replace (Z.testbit lo k) with false; [reflexivity|].
      symmetry. destruct (Z.eq_dec lo 0) as [->|]; [apply Z.bits_0|].
      apply Z.bits_above_log2; [lia|].
      apply Z.log2_lt_pow2; [lia|]. 
      apply Z.lt_le_trans with (2 ^ n); [lia|]. apply Z.pow_le_mono_r; lia.
Qed.


Lemma lor_mul_add (lo hi n : Z) :
  0 <= n -> 0 <= lo < 2 ^ n -> Z.lor lo (hi * 2 ^ n) = lo + hi * 2 ^ n.
Proof.
  intros Hn Hlo. rewrite <- lor_shiftl_add by lia.
  now rewrite Z.shiftl_mul_pow2 by lia.
Qed.

(** Replace the closed powers of two of a goal by their values. *)
Ltac eval_pow2 :=
  repeat match goal with
         | |- context [2 ^ ?k] =>
             let v := eval vm_compute in (2 ^ k) in
             change (2 ^ k) with v
         | H : context [2 ^ ?k] |- _ =>
             let v := eval vm_compute in (2 ^ k) in
             change (2 ^ k) with v in H
         end.

Ltac pow_lia := eval_pow2; lia.

Lemma Uint64_value (b0 b1 b2 b3 b4 b5 b6 b7 : byte) (tl : list byte) :
  Uint64 (b0 :: b1 :: b2 :: b3 :: b4 :: b5 :: b6 :: b7 :: tl) =
  ret (Z_of_byte b7 + Z_of_byte b6 * 2 ^ 8 + Z_of_byte b5 * 2 ^ 16
       + Z_of_byte b4 * 2 ^ 24 + Z_of_byte b3 * 2 ^ 32 + Z_of_byte b2 * 2 ^ 40
       + Z_of_byte b1 * 2 ^ 48 + Z_of_byte b0 * 2 ^ 56).
Proof.
  unfold Uint64. f_equal.
  pose proof (Z_of_byte_range b0). pose proof (Z_of_byte_range b1).
  pose proof (Z_of_byte_range b2). pose proof (Z_of_byte_range b3).
  pose proof (Z_of_byte_range b4). pose proof (Z_of_byte_range b5).
  pose proof (Z_of_byte_range b6). pose proof (Z_of_byte_range b7).
  set (z0 := Z_of_byte b0) in *. set (z1 := Z_of_byte b1) in *.
  set (z2 := Z_of_byte b2) in *. set (z3 := Z_of_byte b3) in *.
  set (z4 := Z_of_byte b4) in *. set (z5 := Z_of_byte b5) in *.
  set (z6 := Z_of_byte b6) in *. set (z7 := Z_of_byte b7) in *.
  rewrite !Z.shiftl_mul_pow2 by lia.
  rewrite (lor_mul_add (z1 * 2 ^ 48) z0 56) by pow_lia.
  replace (z1 * 2 ^ 48 + z0 * 2 ^ 56) with ((z1 + z0 * 2 ^ 8) * 2 ^ 48) by ring.
  rewrite (lor_mul_add (z2 * 2 ^ 40) _ 48) by pow_lia.
  replace (z2 * 2 ^ 40 + (z1 + z0 * 2 ^ 8) * 2 ^ 48)
    with ((z2 + z1 * 2 ^ 8 + z0 * 2 ^ 16) * 2 ^ 40) by ring.
  rewrite (lor_mul_add (z3 * 2 ^ 32) _ 40) by pow_lia.
  replace (z3 * 2 ^ 32 + (z2 + z1 * 2 ^ 8 + z0 * 2 ^ 16) * 2 ^ 40)
    with ((z3 + z2 * 2 ^ 8 + z1 * 2 ^ 16 + z0 * 2 ^ 24) * 2 ^ 32) by ring.
  rewrite (lor_mul_add (z4 * 2 ^ 24) _ 32) by pow_lia.
  replace (z4 * 2 ^ 24 + (z3 + z2 * 2 ^ 8 + z1 * 2 ^ 16 + z0 * 2 ^ 24) * 2 ^ 32)
    with ((z4 + z3 * 2 ^ 8 + z2 * 2 ^ 16 + z1 * 2 ^ 24 + z0 * 2 ^ 32) * 2 ^ 24)
    by ring.
  rewrite (lor_mul_add (z5 * 2 ^ 16) _ 24) by pow_lia.
  replace (z5 * 2 ^ 16
           + (z4 + z3 * 2 ^ 8 + z2 * 2 ^ 16 + z1 * 2 ^ 24 + z0 * 2 ^ 32) * 2 ^ 24)
    with ((z5 + z4 * 2 ^ 8 + z3 * 2 ^ 16 + z2 * 2 ^ 24 + z1 * 2 ^ 32
           + z0 * 2 ^ 40) * 2 ^ 16) by ring.
  rewrite (lor_mul_add (z6 * 2 ^ 8) _ 16) by pow_lia.
  replace (z6 * 2 ^ 8
           + (z5 + z4 * 2 ^ 8 + z3 * 2 ^ 16 + z2 * 2 ^ 24 + z1 * 2 ^ 32
              + z0 * 2 ^ 40) * 2 ^ 16)
    with ((z6 + z5 * 2 ^ 8 + z4 * 2 ^ 16 + z3 * 2 ^ 24 + z2 * 2 ^ 32
           + z1 * 2 ^ 40 + z0 * 2 ^ 48) * 2 ^ 8) by ring.
  rewrite (lor_mul_add z7 _ 8) by pow_lia.
  ring.
Qed.

Lemma Uint64_PutUint64 (u : Z) :
  0 <= u < 2 ^ 64 -> Uint64 (PutUint64 u) = ret u.
Proof.
  intros Hu. unfold PutUint64. rewrite Uint64_value. f_equal.
  rewrite !Z_of_byte_of_Z, !Z.shiftr_div_pow2 by lia.
  assert (Hstep : forall k, 0 <= k ->
            u / 2 ^ k = 256 * (u / 2 ^ (k + 8)) + (u / 2 ^ k) mod 256).
  { intros k Hk. rewrite Z.pow_add_r, <- Z.div_div by lia.
    change (2 ^ 8) with 256. apply Z.div_mod. lia. }
  pose proof (Hstep 0 ltac:(lia)) as H0. pose proof (Hstep 8 ltac:(lia)) as H1.
  pose proof (Hstep 16 ltac:(lia)) as H2. pose proof (Hstep 24 ltac:(lia)) as H3.
  pose proof (Hstep 32 ltac:(lia)) as H4. pose proof (Hstep 40 ltac:(lia)) as H5.
  pose proof (Hstep 48 ltac:(lia)) as H6. pose proof (Hstep 56 ltac:(lia)) as H7.
  cbn [Z.add Pos.add Pos.succ] in *.
  assert (Htop : u / 2 ^ 64 = 0) by (apply Z.div_small; lia).
  rewrite Z.pow_0_r, Z.div_1_r in H0.
  clear Hstep. eval_pow2. lia.
Qed.

End GoBytesFacts.

Import GoBytesFacts.

Module LengthFacts.
Import common.

Lemma len_nonneg {A} (s : list A) : 0 <= len s.
Proof. unfold len. lia. Qed.

Lemma scan_index_spec (l : list byte) :
  forall i index, l <> [] ->
  let k := scan_index i l index in
  i <= k < i + len l /\
  firstn (Z.to_nat (k - i)) l = repeat x00 (Z.to_nat (k - i)).
Proof.
  induction l as [|j rest IH]; intros i index Hne; [congruence|].
  cbn [scan_index]. destruct (Byte.eqb j x00) eqn:Ej.
  - apply Byte.byte_dec_bl in Ej. subst j.
    destruct rest as [|j' rest'].
    + cbn. rewrite Z.sub_diag. cbn. split; [lia|reflexivity].
    + specialize (IH (i + 1) i ltac:(discriminate)). cbv zeta in IH.
      destruct IH as [Hk Hz]. set (k := scan_index (i + 1) (j' :: rest') i) in *.
      split.
      * unfold len in *. cbn [length] in *. lia.
      * replace (Z.to_nat (k - i)) with (S (Z.to_nat (k - (i + 1)))) by lia.
        cbn [firstn repeat]. now rewrite Hz.
  - rewrite Z.sub_diag. cbn. unfold len. cbn [length]. split; [lia|reflexivity].
Qed.

Lemma PutUint64_length (u : Z) : length (PutUint64 u) = 8%nat.
Proof. reflexivity. Qed.

(** Left-padding a suffix of [l] with zeros gives [l] back when the part
    cut off was all zeros. *)
Lemma pad_skipn (l : list byte) (n : nat) :
  firstn n l = repeat x00 n -> make n ++ skipn n l = l.
Proof.
  intros H. unfold make. rewrite <- H. apply firstn_skipn.
Qed.

Lemma firstn_repeat_le {A} (x : A) (m n : nat) :
  (m <= n)%nat -> firstn m (repeat x n) = repeat x m.
Proof.
  revert n. induction m as [|m IH]; intros n Hmn; [reflexivity|].
  destruct n as [|n]; [lia|]. cbn. f_equal. apply IH. lia.
Qed.

Lemma firstn_zeros_le (l : list byte) (m n : nat) :
  (m <= n)%nat -> firstn n l = repeat x00 n -> firstn m l = repeat x00 m.
Proof.
  intros Hmn H.
  rewrite <- (firstn_repeat_le x00 m n) by lia.
  rewrite <- H, firstn_firstn. f_equal. lia.
Qed.

(** The encoding [LengthBytes] computes from the eight bytes of the value:
    a suffix of them, two bytes at least, that only drops zeros. *)
Lemma LengthBytes_suffix (value : Z) :
  exists n : nat,
    (n <= 6)%nat /\
    LengthBytes value = ret (skipn n (PutUint64 (uint64 value))) /\
    firstn n (PutUint64 (uint64 value)) = repeat x00 n.
Proof.
  unfold LengthBytes. set (onumber := PutUint64 (uint64 value)).
  assert (Hlen : length onumber = 8%nat) by reflexivity.
  destruct (scan_index_spec onumber 0 0) as [Hk Hz].
  { intros E. rewrite E in Hlen. discriminate. }
  set (k := scan_index 0 onumber 0) in *.
  unfold len in Hk. rewrite Hlen in Hk. rewrite Z.sub_0_r in Hz.
  unfold slice_from at 1. unfold len. rewrite Hlen.
  replace ((0 <=? k) && (k <=? Z.of_nat 8)) with true
    by (symmetry; apply andb_true_iff; split; apply Z.leb_le; lia).
  cbn [bind]. unfold len. rewrite length_skipn, Hlen.
  destruct (Z.of_nat (8 - Z.to_nat k) =? 1) eqn:E1.
  - apply Z.eqb_eq in E1. assert (k = 7) by lia. subst k.
    exists 6%nat. split; [lia|]. split.
    + unfold slice_from, len. rewrite Hlen. 
      replace (scan_index 0 onumber 0) with 7 by lia. reflexivity.
    + apply firstn_zeros_le with (n := 7%nat); [lia|].
      replace (scan_index 0 onumber 0) with 7 in Hz by lia. exact Hz.
  - apply Z.eqb_neq in E1. exists (Z.to_nat k). split; [lia|]. split.
    + unfold slice_from, len. rewrite Hlen.
      replace ((0 <=? k) && (k <=? Z.of_nat 8)) with true
        by (symmetry; apply andb_true_iff; split; apply Z.leb_le; lia).
      reflexivity.
    + exact Hz.
Qed.

Lemma int_of_uint64_small (u : Z) : 0 <= u < 2 ^ 63 -> int_of_uint64 u = u.
Proof.
  intros H. unfold int_of_uint64.
  destruct (u <? 2 ^ 63) eqn:E; [reflexivity|].
  apply Z.ltb_ge in E. pow_lia.
Qed.

Lemma int_of_uint64_uint64 (v : Z) :
  - 2 ^ 63 <= v < 2 ^ 63 -> int_of_uint64 (uint64 v) = v.
Proof.
  intros H. unfold int_of_uint64, uint64.
  destruct (Z.lt_ge_cases v 0) as [Hneg|Hpos].
  - rewrite <- (Z.mod_add v 1 (2 ^ 64)) by pow_lia.
    rewrite Z.mod_small by pow_lia.
    destruct (v + 1 * 2 ^ 64 <? 2 ^ 63) eqn:E.
    + apply Z.ltb_lt in E. pow_lia.
    + lia.
  - rewrite Z.mod_small by pow_lia.
    destruct (v <? 2 ^ 63) eqn:E; [reflexivity|].
    apply Z.ltb_ge in E. pow_lia.
Qed.

Lemma uint64_range (v : Z) : 0 <= uint64 v < 2 ^ 64.
Proof. unfold uint64. apply Z.mod_pos_bound. reflexivity. Qed.

(** A sum of [int]s that fits is the sum; one that passes the largest
    [int] comes out negative. *)
Lemma int_add_small (a b : Z) :
  0 <= a + b < 2 ^ 63 -> int_add a b = a + b.
Proof.
  intros H. unfold int_add. apply int_of_uint64_uint64. pow_lia.
Qed.

Lemma int_add_wrap (a b : Z) :
  2 ^ 63 <= a + b < 2 ^ 64 -> int_add a b = a + b - 2 ^ 64.
Proof.
  intros H. unfold int_add, uint64, int_of_uint64.
  rewrite Z.mod_small by lia.
  destruct (a + b <? 2 ^ 63) eqn:E; [apply Z.ltb_lt in E; lia|reflexivity].
Qed.

(** Decoding any suffix of the eight bytes that only drops zeros. *)
Lemma Length_suffix (u : Z) (n : nat) :
  0 <= u < 2 ^ 64 ->
  firstn n (PutUint64 u) = repeat x00 n ->
  Length (skipn n (PutUint64 u)) = ret (int_of_uint64 u).
Proof.
  intros Hu Hz. unfold Length, len. rewrite length_skipn, PutUint64_length.
  unfold INTEGER_SIZE.
  destruct (Z.of_nat (8 - n) <? 8) eqn:E.
  - apply Z.ltb_lt in E.
    replace (Z.to_nat (8 - Z.of_nat (8 - n))) with (Nat.min n 8) by lia.
    assert (Hpad : make (Nat.min n 8) ++ skipn n (PutUint64 u) = PutUint64 u).
    { destruct (Nat.le_gt_cases n 8).
      - rewrite Nat.min_l by lia. now apply pad_skipn.
      - rewrite Nat.min_r by lia.
        rewrite skipn_all2 by (rewrite PutUint64_length; lia).
        rewrite app_nil_r.
        rewrite firstn_all2 in Hz by (rewrite PutUint64_length; lia).
        rewrite Hz. unfold make.
        assert (Hl : length (PutUint64 u) = 8%nat) by reflexivity.
        rewrite Hz, repeat_length in Hl. lia. }
    rewrite Hpad, Uint64_PutUint64 by lia. reflexivity.
  - apply Z.ltb_ge in E. assert (n = 0%nat) by lia. subst n.
    cbn [skipn]. rewrite Uint64_PutUint64 by lia. reflexivity.
Qed.

(** The round trip on the whole range of a 64-bit [int]. *)
Lemma LengthBytes_roundtrip_int64 (v : Z) :
  - 2 ^ 63 <= v < 2 ^ 63 ->
  exists number,
    LengthBytes v = ret number /\ Length number = ret v.
Proof.
  intros Hv. destruct (LengthBytes_suffix v) as (n & Hn & Henc & Hz).
  exists (skipn n (PutUint64 (uint64 v))). split; [exact Henc|].
  rewrite Length_suffix by (auto using uint64_range).
  now rewrite int_of_uint64_uint64.
Qed.

(** C10: for every non-negative [v] that fits in 63 bits,
    [Length(LengthBytes(v)) == v].  [LengthBytes] returns the eight
    big-endian bytes of [v] with leading zero bytes cut off, two bytes at
    least being kept; nothing is cut when [v >= 2^56], and [v = 0] is
    encoded as two zero bytes. *)
Theorem Length_LengthBytes (v : Z) :
  0 <= v < 2 ^ 63 ->
  exists number,
    LengthBytes v = ret number /\
    Length number = ret v /\
    (2 <= length number <= 8)%nat /\
    (exists n : nat,
       number = skipn n (IntegerBytes v) /\
       firstn n (IntegerBytes v) = repeat x00 n) /\
    (2 ^ 56 <= v -> number = IntegerBytes v) /\
    (v = 0 -> number = [x00; x00]).
Proof.
  intros Hv. destruct (LengthBytes_suffix v) as (n & Hn & Henc & Hz).
  assert (Hu : uint64 v = v) by (unfold uint64; apply Z.mod_small; pow_lia).
  exists (skipn n (PutUint64 (uint64 v))).
  split; [exact Henc|]. split; [|split; [|split; [|split]]].
  - rewrite Length_suffix by (auto using uint64_range).
    rewrite Hu. f_equal. apply int_of_uint64_small. exact Hv.
  - rewrite length_skipn, PutUint64_length. lia.
  - exists n. unfold IntegerBytes. auto.
  - intros Hbig. unfold IntegerBytes.
    destruct n as [|n]; [reflexivity|exfalso].
    apply (firstn_zeros_le _ 1 (S n)) in Hz; [|lia].
    rewrite Hu in Hz. unfold PutUint64 in Hz. cbn [firstn repeat] in Hz.
    injection Hz as Hz.
    apply Z_of_byte_zero_iff in Hz.
    rewrite Z_of_byte_of_Z, Z.shiftr_div_pow2 in Hz by lia.
    assert (Hq : 1 <= v / 2 ^ 56 < 128).
    { split.
      - apply Z.div_le_lower_bound; pow_lia.
      - apply Z.div_lt_upper_bound; pow_lia. }
    rewrite Z.mod_small in Hz by lia. lia.
  - intros ->.
    assert (H0 : LengthBytes 0 = ret [x00; x00]) by (vm_compute; reflexivity).
    rewrite H0 in Henc. injection Henc as <-. reflexivity.
Qed.

Lemma Length_LengthBytes_witness :
  exists number,
    LengthBytes 65536 = ret number /\
    Length number = ret 65536 /\
    (2 <= length number <= 8)%nat /\
    (exists n : nat,
       number = skipn n (IntegerBytes 65536) /\
       firstn n (IntegerBytes 65536) = repeat x00 n) /\
    (2 ^ 56 <= 65536 -> number = IntegerBytes 65536) /\
    (65536 = 0 -> number = [x00; x00]).
Proof.
  apply (Length_LengthBytes 65536). vm_compute. split; congruence.
Defined.

End LengthFacts.

Import LengthFacts.

Module BigIntFacts.

Lemma SetBytes_acc (b : list byte) (acc : Z) :
  fold_left (fun a x => a * 256 + Z_of_byte x) b acc
  = acc * 256 ^ len b + SetBytes b.
Proof.
  unfold SetBytes, len. revert acc.
  induction b as [|x b IH]; intros acc.
  - cbn. lia.
  - cbn [fold_left length]. rewrite IH, (IH (0 * 256 + Z_of_byte x)).
    rewrite Nat2Z.inj_succ, Z.pow_succ_r by lia. ring.
Qed.

Lemma SetBytes_cons (x : byte) (b : list byte) :
  SetBytes (x :: b) = Z_of_byte x * 256 ^ len b + SetBytes b.
Proof.
  unfold SetBytes at 1. cbn [fold_left]. rewrite SetBytes_acc. ring.
Qed.

Lemma SetBytes_app (a b : list byte) :
  SetBytes (a ++ b) = SetBytes a * 256 ^ len b + SetBytes b.
Proof.
  unfold SetBytes at 1. rewrite fold_left_app.
  fold (SetBytes a). apply SetBytes_acc.
Qed.

Lemma SetBytes_range (b : list byte) : 0 <= SetBytes b < 256 ^ len b.
Proof.
  induction b as [|x b IH].
  - cbn. lia.
  - rewrite SetBytes_cons. pose proof (Z_of_byte_range x) as Hx.
    assert (Hp : 0 < 256 ^ len b) by (apply Z.pow_pos_nonneg; unfold len; lia).
    replace (len (x :: b)) with (len b + 1) by (unfold len; cbn [length]; lia).
    rewrite Z.pow_add_r, Z.pow_1_r by (unfold len; lia). nia.
Qed.

Lemma SetBytes_zeros (n : nat) : SetBytes (repeat x00 n) = 0.
Proof.
  induction n as [|n IH]; [reflexivity|].
  cbn [repeat]. rewrite SetBytes_cons, IH. reflexivity.
Qed.

Lemma SetBytes_pad (n : nat) (b : list byte) :
  SetBytes (repeat x00 n ++ b) = SetBytes b.
Proof. rewrite SetBytes_app, SetBytes_zeros. lia. Qed.

Lemma SetBytes_rev (l : list byte) : SetBytes (rev l) = le_value l.
Proof.
  induction l as [|x l IH]; [reflexivity|].
  cbn [rev le_value]. rewrite SetBytes_app, IH.
  change (len [x]) with 1. rewrite Z.pow_1_r.
  change (SetBytes [x]) with (0 * 256 + Z_of_byte x). lia.
Qed.

Lemma le_digits_value (fuel : nat) :
  forall z, 0 <= z < 256 ^ Z.of_nat fuel -> le_value (le_digits fuel z) = z.
Proof.
  induction fuel as [|f IH]; intros z Hz.
  - cbn in *. lia.
  - cbn [le_digits]. destruct (z <=? 0) eqn:E.
    + apply Z.leb_le in E. cbn. lia.
    + apply Z.leb_gt in E. cbn [le_value].
      rewrite Z_of_byte_of_Z, IH.
      * symmetry. rewrite Z.add_comm. apply Z.div_mod. lia.
      * rewrite Nat2Z.inj_succ, Z.pow_succ_r in Hz by lia.
        split; [apply Z.div_pos; lia|].
        apply Z.div_lt_upper_bound; lia.
Qed.

Lemma le_digits_length (fuel : nat) :
  forall z (n : nat), 0 <= z < 256 ^ Z.of_nat n ->
  (length (le_digits fuel z) <= n)%nat.
Proof.
  induction fuel as [|f IH]; intros z n Hz; [cbn; lia|].
  cbn [le_digits]. destruct (z <=? 0) eqn:E; [cbn; lia|].
  apply Z.leb_gt in E. destruct n as [|n]; [cbn in Hz; lia|].
  cbn [length]. apply le_n_S, IH.
  rewrite Nat2Z.inj_succ, Z.pow_succ_r in Hz by lia.
  split; [apply Z.div_pos; lia|].
  apply Z.div_lt_upper_bound; lia.
Qed.

(** The fuel [BigBytes] gives is enough. *)
Lemma log2_fuel (z : Z) : 0 <= z -> z < 256 ^ Z.of_nat (S (Z.to_nat (Z.log2 z))).
Proof.
  intros Hz. destruct (Z.eq_dec z 0) as [->|Hnz].
  - cbn. lia.
  - assert (Hl : 0 <= Z.log2 z) by apply Z.log2_nonneg.
    rewrite Nat2Z.inj_succ, Z2Nat.id by lia.
    apply Z.lt_le_trans with (2 ^ Z.succ (Z.log2 z)).
    + apply Z.log2_spec. lia.
    + change 256 with (2 ^ 8). rewrite <- Z.pow_mul_r by lia.
      apply Z.pow_le_mono_r; lia.
Qed.

Lemma SetBytes_BigBytes (z : Z) : 0 <= z -> SetBytes (BigBytes z) = z.
Proof.
  intros Hz. unfold BigBytes. rewrite Z.abs_eq by lia.
  rewrite SetBytes_rev. apply le_digits_value.
  split; [lia|]. now apply log2_fuel.
Qed.

Lemma BigBytes_length (z : Z) (n : nat) :
  0 <= z < 256 ^ Z.of_nat n -> (length (BigBytes z) <= n)%nat.
Proof.
  intros Hz. unfold BigBytes. rewrite Z.abs_eq by lia.
  rewrite length_rev. now apply le_digits_length.
Qed.

End BigIntFacts.

Import BigIntFacts.

Module SliceFacts.

Lemma slice_to_ok {A} (s : list A) (j : Z) :
  0 <= j <= len s -> slice_to s j = ret (firstn (Z.to_nat j) s).
Proof.
  intros H. unfold slice_to.
  replace ((0 <=? j) && (j <=? len s)) with true; [reflexivity|].
  symmetry. apply andb_true_iff. split; apply Z.leb_le; lia.
Qed.

Lemma slice_from_ok {A} (s : list A) (i : Z) :
  0 <= i <= len s -> slice_from s i = ret (skipn (Z.to_nat i) s).
Proof.
  intros H. unfold slice_from.
  replace ((0 <=? i) && (i <=? len s)) with true; [reflexivity|].
  symmetry. apply andb_true_iff. split; apply Z.leb_le; lia.
Qed.

Lemma slice_ok {A} (s : list A) (i j : Z) :
  0 <= i <= j -> j <= len s ->
  slice s i j = ret (firstn (Z.to_nat (j - i)) (skipn (Z.to_nat i) s)).
Proof.
  intros H1 H2. unfold slice.
  replace ((0 <=? i) && (i <=? j) && (j <=? len s)) with true; [reflexivity|].
  symmetry. rewrite !andb_true_iff. repeat split; apply Z.leb_le; lia.
Qed.

(** A slice expression whose bounds are the wrong way round panics. *)
Lemma slice_reversed {A} (s : list A) (i j : Z) :
  j < i -> slice s i j = panic.
Proof.
  intros H. unfold slice.
  replace (i <=? j) with false by (symmetry; apply Z.leb_gt; exact H).
  now rewrite andb_false_r.
Qed.

Lemma copy_full {A} (dst src : list A) :
  length dst = length src -> copy dst src = src.
Proof.
  intros H. unfold copy. rewrite H, firstn_all, <- H, skipn_all.
  apply app_nil_r.
Qed.

Lemma copy_at_window {A} (s src : list A) (i j : Z) :
  0 <= i <= j -> j <= len s -> len src = j - i ->
  copy_at s i j src
  = ret (firstn (Z.to_nat i) s ++ src ++ skipn (Z.to_nat j) s).
Proof.
  intros H1 H2 H3. unfold copy_at. rewrite slice_ok by lia. cbn [bind].
  rewrite copy_full; [reflexivity|].
  unfold len in *. rewrite length_firstn, length_skipn. lia.
Qed.

Lemma copy_from_window {A} (s src : list A) (i : Z) :
  0 <= i <= len s -> len src = len s - i ->
  copy_from s i src = ret (firstn (Z.to_nat i) s ++ src).
Proof.
  intros H1 H2. unfold copy_from. rewrite slice_from_ok by lia. cbn [bind].
  rewrite copy_full; [reflexivity|].
  unfold len in *. rewrite length_skipn. lia.
Qed.

Lemma make_length (n : nat) : length (make n) = n.
Proof. apply repeat_length. Qed.

Lemma firstn_make (m n : nat) : (m <= n)%nat -> firstn m (make n) = make m.
Proof. apply firstn_repeat_le. Qed.

Lemma skipn_make (m n : nat) : skipn m (make n) = make (n - m).
Proof.
  unfold make. revert n. induction m as [|m IH]; intros n.
  - now rewrite Nat.sub_0_r.
  - destruct n as [|n]; [reflexivity|]. cbn. apply IH.
Qed.

End SliceFacts.

Module DSAFacts.
Import dsa SliceFacts.

Lemma dsap_above_2_160 : 2 ^ 160 < dsap.
Proof. reflexivity. Qed.

Lemma dsaq_below_2_160 : dsaq < 2 ^ 160.
Proof. reflexivity. Qed.

Lemma dsaq_below_dsap : dsaq < dsap.
Proof. reflexivity. Qed.

Lemma dsap_nonzero : dsap <> 0.
Proof. discriminate. Qed.

(** The cofactors of [egcd], whatever the fuel. *)
Lemma egcd_bezout (fuel : nat) :
  forall a b, let '(d, u, v) := egcd fuel a b in u * a + v * b = d.
Proof.
  induction fuel as [|fuel IH]; intros a b; cbn [egcd]; [lia|].
  destruct (b =? 0) eqn:E; [lia|]. apply Z.eqb_neq in E.
  specialize (IH b (a mod b)).
  destruct (egcd fuel b (a mod b)) as [[d u] v].
  rewrite Z.mod_eq in IH by exact E. rewrite <- IH. ring.
Qed.

Lemma egcd_step (fuel : nat) (a b : Z) :
  fst (fst (egcd (S fuel) a b))
  = if b =? 0 then a else fst (fst (egcd fuel b (a mod b))).
Proof.
  cbn [egcd]. destruct (b =? 0); [reflexivity|].
  destruct (egcd fuel b (a mod b)) as [[d u] v]. reflexivity.
Qed.

(** Two divisions halve the second argument, so two units of fuel for
    each of its bits, and one, reach the greatest common divisor. *)
Lemma egcd_gcd (k : nat) :
  forall fuel a b,
    0 <= a -> 0 <= b < 2 ^ Z.of_nat k -> (2 * k + 1 <= fuel)%nat ->
    fst (fst (egcd fuel a b)) = Z.gcd a b.
Proof.
  induction k as [|k IH]; intros fuel a b Ha Hb Hfuel.
  - destruct fuel as [|fuel]; [lia|]. rewrite egcd_step.
    assert (b = 0) by (cbn in Hb; lia). subst b.
    cbn [Z.eqb]. rewrite Z.gcd_0_r. lia.
  - destruct fuel as [|[|fuel]]; try lia. rewrite egcd_step.
    destruct (b =? 0) eqn:E.
    + apply Z.eqb_eq in E. subst b. rewrite Z.gcd_0_r. lia.
    + apply Z.eqb_neq in E.
      assert (Hr1 : 0 <= a mod b < b) by (apply Z.mod_pos_bound; lia).
      assert (Hg1 : Z.gcd a b = Z.gcd b (a mod b)).
      { rewrite (Z.gcd_comm b (a mod b)), Z.gcd_mod by exact E.
        apply Z.gcd_comm. }
      rewrite Hg1, egcd_step.
      set (r1 := a mod b) in *.
      destruct (r1 =? 0) eqn:E1.
      * apply Z.eqb_eq in E1. rewrite E1, Z.gcd_0_r. lia.
      * apply Z.eqb_neq in E1.
        assert (Hr2 : 0 <= b mod r1 < r1) by (apply Z.mod_pos_bound; lia).
        assert (Hg2 : Z.gcd b r1 = Z.gcd r1 (b mod r1)).
        { rewrite (Z.gcd_comm r1 (b mod r1)), Z.gcd_mod by exact E1.
          apply Z.gcd_comm. }
        rewrite Hg2. apply IH; [lia| |lia].
        split; [lia|].
        assert (Hq : 1 <= b / r1) by (apply Z.div_le_lower_bound; lia).
        pose proof (Z.div_mod b r1 E1) as Hdm.
        rewrite Nat2Z.inj_succ, Z.pow_succ_r in Hb by lia.
        nia.
Qed.

(** [ModInverse] finds the inverse exactly when there is one. *)
Lemma ModInverse_spec (g n : Z) :
  0 < n ->
  match ModInverse g n with
  | Some inverse => 0 <= inverse < n /\ (g * inverse) mod n = 1 mod n
  | None => Z.gcd g n <> 1
  end.
Proof.
  intros Hn. unfold ModInverse.
  pose proof (egcd_bezout (egcd_fuel n) (g mod n) n) as Hbez.
  assert (Hd : fst (fst (egcd (egcd_fuel n) (g mod n) n)) = Z.gcd g n).
  { rewrite (egcd_gcd (S (Z.to_nat (Z.log2 n)))).
    - rewrite Z.gcd_mod by lia. apply Z.gcd_comm.
    - apply Z.mod_pos_bound. exact Hn.
    - split; [lia|].
      rewrite Nat2Z.inj_succ, Z2Nat.id by apply Z.log2_nonneg.
      apply Z.log2_spec. exact Hn.
    - unfold egcd_fuel. lia. }
  destruct (egcd (egcd_fuel n) (g mod n) n) as [[d u] v].
  cbn [fst] in Hd. rewrite Hd in Hbez |- *. cbv beta iota zeta.
  destruct (Z.gcd g n =? 1) eqn:E.
  - apply Z.eqb_eq in E. split; [apply Z.mod_pos_bound; exact Hn|].
    rewrite Z.mul_mod_idemp_r by lia.
    assert (H1 : (u * (g mod n) + v * n) mod n = 1 mod n)
      by (rewrite Hbez, E; reflexivity).
    rewrite Z.mod_add, Z.mul_mod_idemp_r in H1 by lia.
    rewrite Z.mul_comm. exact H1.
  - apply Z.eqb_neq in E. exact E.
Qed.

Lemma dsag_dsap_coprime : Z.gcd dsag dsap = 1.
Proof. reflexivity. Qed.

(** The generator has an inverse modulo [p]. *)
Lemma ModInverse_dsag :
  exists inverse,
    ModInverse dsag dsap = Some inverse /\
    0 <= inverse < dsap /\ (dsag * inverse) mod dsap = 1.
Proof.
  pose proof (ModInverse_spec dsag dsap ltac:(reflexivity)) as H.
  destruct (ModInverse dsag dsap) as [inverse|].
  - exists inverse. split; [reflexivity|]. destruct H as [Hr Hi].
    split; [exact Hr|]. rewrite Hi. apply Z.mod_small.
    pose proof dsap_above_2_160. pose proof (Z.pow_pos_nonneg 2 160). lia.
  - exfalso. apply H. exact dsag_dsap_coprime.
Qed.

Lemma Exp_correct (x y m : Z) :
  0 <= y -> m <> 0 -> Exp x y m = x ^ y mod m.
Proof.
  intros Hy Hm. unfold Exp.
  assert (E : (y <? 0) = false) by (apply Z.ltb_ge; exact Hy).
  rewrite E. now apply Zpow_mod_correct.
Qed.

(** With a negative exponent [Exp] raises the inverse. *)
Lemma Exp_negative (x y m inverse : Z) :
  y < 0 -> m <> 0 -> ModInverse x m = Some inverse ->
  Exp x y m = inverse ^ (- y) mod m.
Proof.
  intros Hy Hm Hi. unfold Exp.
  assert (E : (y <? 0) = true) by (apply Z.ltb_lt; exact Hy).
  rewrite E, Hi. now apply Zpow_mod_correct.
Qed.

Lemma createDSAPrivkey_Exp (X0 : Z) :
  X0 < dsap ->
  createDSAPrivkey X0
  = Some {| priv_PublicKey :=
              {| pub_Parameters := param; Y := Exp dsag X0 dsap |};
            X := X0 |}.
Proof.
  intros H. unfold createDSAPrivkey. unfold Z.lt in H. rewrite H.
  reflexivity.
Qed.

Lemma createDSAPrivkey_lt (X0 : Z) :
  0 <= X0 < dsap ->
  createDSAPrivkey X0
  = Some {| priv_PublicKey :=
              {| pub_Parameters := param; Y := dsag ^ X0 mod dsap |};
            X := X0 |}.
Proof.
  intros [H0 H]. rewrite createDSAPrivkey_Exp by exact H.
  rewrite Exp_correct by (auto using dsap_nonzero). reflexivity.
Qed.

Lemma createDSAPrivkey_ge (X0 : Z) :
  dsap <= X0 -> createDSAPrivkey X0 = None.
Proof.
  intros H. unfold createDSAPrivkey.
  destruct (X0 ?= dsap) eqn:E; try reflexivity.
  change (X0 < dsap) in E. lia.
Qed.

Lemma Public_error_iff_nil (k : list byte) :
  snd (Public k) = Some ErrInvalidKeyFormat
  <-> createDSAPrivkey (SetBytes k) = None.
Proof.
  unfold Public. destruct (createDSAPrivkey (SetBytes k)); cbn; split; congruence.
Qed.

(** C8: the private exponent is checked against the modulus p, not the
    subgroup order q.  [createDSAPrivkey] returns a key exactly when
    [X < p], the key having [Y = g^X mod p]: the power itself for
    [0 <= X], which is what the adapter builds from key bytes, and the
    power [-X] of the inverse of [g] modulo [p] for a negative [X], which
    passes the check as well.  It returns nil exactly when [X >= p], which
    [Public] reports as [ErrInvalidKeyFormat]; every [X] with
    [q <= X < p] is accepted. *)
Theorem createDSAPrivkey_compares_with_p (X0 : Z) :
  ((exists k, createDSAPrivkey X0 = Some k) <-> X0 < dsap) /\
  (createDSAPrivkey X0 = None <-> dsap <= X0) /\
  (forall k, createDSAPrivkey X0 = Some k ->
     X k = X0 /\ pub_Parameters (priv_PublicKey k) = param /\
     (0 <= X0 -> Y (priv_PublicKey k) = dsag ^ X0 mod dsap) /\
     (X0 < 0 ->
        exists inverse,
          0 <= inverse < dsap /\ (dsag * inverse) mod dsap = 1 /\
          Y (priv_PublicKey k) = inverse ^ (- X0) mod dsap)) /\
  (dsaq <= X0 < dsap ->
     exists k, createDSAPrivkey X0 = Some k /\
               Y (priv_PublicKey k) = dsag ^ X0 mod dsap) /\
  (forall kb : list byte,
     SetBytes kb = X0 ->
     (snd (Public kb) = Some ErrInvalidKeyFormat <-> dsap <= X0)).
Proof.
  assert (Hsome : (exists k, createDSAPrivkey X0 = Some k) <-> X0 < dsap).
  { split.
    - intros [k Hk]. destruct (Z.lt_ge_cases X0 dsap) as [|Hge]; [assumption|].
      rewrite createDSAPrivkey_ge in Hk by assumption. discriminate.
    - intros Hlt. eexists. now apply createDSAPrivkey_Exp. }
  assert (Hnone : createDSAPrivkey X0 = None <-> dsap <= X0).
  { split.
    - intros Hn. destruct (Z.lt_ge_cases X0 dsap) as [Hlt|]; [|assumption].
      rewrite createDSAPrivkey_Exp in Hn by assumption. discriminate.
    - apply createDSAPrivkey_ge. }
  split; [exact Hsome|]. split; [exact Hnone|]. split; [|split].
  - intros k Hk.
    assert (Hlt : X0 < dsap) by (apply Hsome; eauto).
    rewrite createDSAPrivkey_Exp in Hk by assumption.
    injection Hk as <-. cbn [X priv_PublicKey pub_Parameters Y].
    split; [reflexivity|]. split; [reflexivity|]. split.
    + intros H0. apply Exp_correct; auto using dsap_nonzero.
    + intros Hneg. destruct ModInverse_dsag as (inverse & Hi & Hr & Hinv).
      exists inverse. split; [exact Hr|]. split; [exact Hinv|].
      apply Exp_negative; auto using dsap_nonzero.
  - intros [Hq Hlt]. eexists. split.
    + apply createDSAPrivkey_lt. split; [|exact Hlt].
      apply Z.le_trans with dsaq; [discriminate|exact Hq].
    + reflexivity.
  - intros kb <-. rewrite Public_error_iff_nil. exact Hnone.
Qed.

(** The subgroup order itself passes the check. *)
Example createDSAPrivkey_accepts_q :
  createDSAPrivkey dsaq
  = Some {| priv_PublicKey :=
              {| pub_Parameters := param; Y := dsag ^ dsaq mod dsap |};
            X := dsaq |}.
Proof.
  apply createDSAPrivkey_lt. split; [discriminate|apply dsaq_below_dsap].
Qed.

(** The modulus itself is turned down. *)
Example createDSAPrivkey_refuses_p : createDSAPrivkey dsap = None.
Proof. vm_compute. reflexivity. Qed.

Lemma SetBytes_20_below_p (k : list byte) :
  length k = DSAPrivateKey_size -> 0 <= SetBytes k < dsap.
Proof.
  intros Hk. pose proof (SetBytes_range k) as H.
  unfold len in H. rewrite Hk in H.
  change (256 ^ Z.of_nat DSAPrivateKey_size) with (2 ^ 160) in H.
  pose proof dsap_above_2_160. lia.
Qed.

(** C9: for every 20-byte [DSAPrivateKey], [Public] does not return
    [ErrInvalidKeyFormat]: the exponent decoded from 20 bytes is below
    [2^160], which is below the modulus [p], so [createDSAPrivkey] does not
    take its failure branch; [Public] returns no error at all. *)
Theorem Public_never_invalid_key_format (k : list byte) :
  length k = DSAPrivateKey_size ->
  SetBytes k < 2 ^ 160 /\
  2 ^ 160 < dsap /\
  createDSAPrivkey (SetBytes k) <> None /\
  snd (Public k) <> Some ErrInvalidKeyFormat /\
  snd (Public k) = None.
Proof.
  intros Hk.
  pose proof (SetBytes_range k) as Hr. unfold len in Hr. rewrite Hk in Hr.
  change (256 ^ Z.of_nat DSAPrivateKey_size) with (2 ^ 160) in Hr.
  pose proof (SetBytes_20_below_p k Hk) as Hp.
  split; [lia|]. split; [apply dsap_above_2_160|].
  unfold Public. rewrite createDSAPrivkey_lt by lia. cbn.
  repeat split; congruence.
Qed.

Lemma Public_never_invalid_key_format_witness :
  SetBytes (repeat xff 20) < 2 ^ 160 /\
  2 ^ 160 < dsap /\
  createDSAPrivkey (SetBytes (repeat xff 20)) <> None /\
  snd (Public (repeat xff 20)) <> Some ErrInvalidKeyFormat /\
  snd (Public (repeat xff 20)) = None.
Proof.
  exact (Public_never_invalid_key_format (repeat xff 20) eq_refl).
Defined.

End DSAFacts.

Module DSASignatureFacts.
Import dsa SliceFacts DSAFacts.

Section Verify.

Variable dsa_Verify : PublicKey -> list byte -> Z -> Z -> bool.

Lemma VerifyHash_40 (v : DSAVerifier) (h sig : list byte) :
  length sig = 40%nat ->
  VerifyHash dsa_Verify v h sig
  = ret (if dsa_Verify (verifier_k v) h
              (SetBytes (firstn 20 sig)) (SetBytes (skipn 20 sig))
         then None else Some ErrInvalidSignature).
Proof.
  intros Hl. unfold VerifyHash, len. rewrite Hl. cbn [Z.eqb Z.of_nat].
  change (Z.of_nat 40 =? 40) with true. cbv iota.
  rewrite slice_to_ok, slice_from_ok by (unfold len; lia). cbn [bind].
  change (Z.to_nat 20) with 20%nat.
  destruct (dsa_Verify _ _ _ _); reflexivity.
Qed.

Lemma VerifyHash_not_40 (v : DSAVerifier) (h sig : list byte) :
  length sig <> 40%nat ->
  VerifyHash dsa_Verify v h sig = ret (Some ErrBadSignatureSize).
Proof.
  intros Hl. unfold VerifyHash, len.
  destruct (Z.of_nat (length sig) =? 40) eqn:E; [|reflexivity].
  apply Z.eqb_eq in E. lia.
Qed.

(** C5: [VerifyHash] returns [ErrBadSignatureSize] if and only if the
    signature is not 40 bytes long; on a 40-byte signature it returns
    [ErrInvalidSignature] exactly when [dsa.Verify] rejects
    [(r, s) = (sig[0:20], sig[20:40])] and nil exactly when it accepts; so
    nil is returned only for a 40-byte signature that [dsa.Verify]
    accepts.  The call never panics. *)
Theorem VerifyHash_result (v : DSAVerifier) (h sig : list byte) :
  let r := SetBytes (firstn 20 sig) in
  let s := SetBytes (skipn 20 sig) in
  (VerifyHash dsa_Verify v h sig = ret (Some ErrBadSignatureSize)
     <-> length sig <> 40%nat) /\
  (VerifyHash dsa_Verify v h sig = ret (Some ErrInvalidSignature)
     <-> length sig = 40%nat /\ dsa_Verify (verifier_k v) h r s = false) /\
  (VerifyHash dsa_Verify v h sig = ret None
     <-> length sig = 40%nat /\ dsa_Verify (verifier_k v) h r s = true) /\
  VerifyHash dsa_Verify v h sig <> panic.
Proof.
  intros r s. destruct (Nat.eq_dec (length sig) 40) as [Hl|Hl].
  - rewrite (VerifyHash_40 v h sig Hl). fold r s.
    destruct (dsa_Verify (verifier_k v) h r s);
      repeat split; try congruence; try tauto; intros [? ?]; congruence.
  - rewrite (VerifyHash_not_40 v h sig Hl).
    repeat split; try congruence; try tauto; intros [? ?]; congruence.
Qed.

End Verify.

Section Sign.

Context {Entropy : Type}.
Variable dsa_Sign : Entropy -> PrivateKey -> list byte -> Z * Z * option error.

Lemma left_pad_length (n : nat) (b : list byte) :
  (length b <= n)%nat -> length (left_pad n b) = n.
Proof.
  intros H. unfold left_pad. rewrite length_app, repeat_length. lia.
Qed.

Lemma SetBytes_left_pad (n : nat) (b : list byte) :
  SetBytes (left_pad n b) = SetBytes b.
Proof. apply SetBytes_pad. Qed.

(** The two [copy] statements of [SignHash] on the zeroed 40-byte buffer. *)
Lemma SignHash_buffer (rb sb : list byte) :
  (length rb <= 20)%nat -> (length sb <= 20)%nat ->
  (sig <- copy_at (make 40) (20 - len rb) 20 rb ;;
   copy_from sig (20 + (20 - len sb)) sb)
  = ret (left_pad 20 rb ++ left_pad 20 sb).
Proof.
  intros Hr Hs.
  rewrite copy_at_window
    by (unfold len; rewrite ?make_length; lia).
  cbn [bind].
  set (sig := firstn (Z.to_nat (20 - len rb)) (make 40) ++ rb
              ++ skipn (Z.to_nat 20) (make 40)).
  assert (Hsig : sig = left_pad 20 rb ++ make 20).
  { unfold sig, left_pad. rewrite firstn_make by (unfold len; lia).
    rewrite skipn_make. unfold make, len.
    replace (Z.to_nat (20 - Z.of_nat (length rb))) with (20 - length rb)%nat by lia.
    now rewrite <- app_assoc. }
  assert (Hlen : length sig = 40%nat).
  { rewrite Hsig, length_app, left_pad_length, make_length by lia. reflexivity. }
  rewrite copy_from_window by (unfold len; lia).
  f_equal. rewrite Hsig.
  rewrite firstn_app, left_pad_length by lia.
  rewrite firstn_all2 by (rewrite left_pad_length; unfold len; lia).
  rewrite <- app_assoc. f_equal. unfold left_pad. f_equal.
  rewrite firstn_make by (unfold len; lia).
  unfold make, len. f_equal. lia.
Qed.

(** C6: a signature [SignHash] produces is exactly 40 bytes: bytes 0..19
    are the big-endian bytes of [r] left-padded with zeros to 20 bytes,
    bytes 20..39 those of [s]; read back as big-endian numbers the two
    halves are [r] and [s].  [dsa.Sign] hands back [0 < r < q] and
    [0 < s < q], and [q < 2^160]. *)
Theorem SignHash_signature_layout
    (ds : DSASigner) (rnd : Entropy) (h : list byte)
    (k : PrivateKey) (r s : Z) :
  signer_k ds = Some k ->
  dsa_Sign rnd k h = (r, s, None) ->
  0 <= r < 2 ^ 160 -> 0 <= s < 2 ^ 160 ->
  exists sig,
    SignHash dsa_Sign ds rnd h = ret (sig, None) /\
    length sig = 40%nat /\
    sig = left_pad 20 (BigBytes r) ++ left_pad 20 (BigBytes s) /\
    firstn 20 sig = left_pad 20 (BigBytes r) /\
    skipn 20 sig = left_pad 20 (BigBytes s) /\
    SetBytes (firstn 20 sig) = r /\
    SetBytes (skipn 20 sig) = s.
Proof.
  intros Hk Hsign Hr Hs.
  assert (Hrl : (length (BigBytes r) <= 20)%nat)
    by (apply BigBytes_length; change (256 ^ Z.of_nat 20) with (2 ^ 160); lia).
  assert (Hsl : (length (BigBytes s) <= 20)%nat)
    by (apply BigBytes_length; change (256 ^ Z.of_nat 20) with (2 ^ 160); lia).
  exists (left_pad 20 (BigBytes r) ++ left_pad 20 (BigBytes s)).
  assert (Hfirst : firstn 20 (left_pad 20 (BigBytes r) ++ left_pad 20 (BigBytes s))
                   = left_pad 20 (BigBytes r)).
  { rewrite firstn_app, left_pad_length by assumption.
    rewrite firstn_all2 by (rewrite left_pad_length; lia).
    cbn [Nat.sub firstn]. apply app_nil_r. }
  assert (Hskip : skipn 20 (left_pad 20 (BigBytes r) ++ left_pad 20 (BigBytes s))
                  = left_pad 20 (BigBytes s)).
  { rewrite skipn_app, left_pad_length by assumption.
    rewrite skipn_all2 by (rewrite left_pad_length; lia).
    reflexivity. }
  split; [|split; [|split; [|split; [|split; [|split]]]]].
  - unfold SignHash. rewrite Hk, Hsign.
    pose proof (SignHash_buffer (BigBytes r) (BigBytes s) Hrl Hsl) as Hb.
    destruct (copy_at (make 40) (20 - len (BigBytes r)) 20 (BigBytes r))
      as [sig1|]; cbn [bind] in *; [|discriminate].
    rewrite Hb. reflexivity.
  - rewrite length_app, !left_pad_length by assumption. reflexivity.
  - reflexivity.
  - exact Hfirst.
  - exact Hskip.
  - rewrite Hfirst, SetBytes_left_pad. apply SetBytes_BigBytes. lia.
  - rewrite Hskip, SetBytes_left_pad. apply SetBytes_BigBytes. lia.
Qed.

End Sign.

End DSASignatureFacts.

Module KeysAndCertFacts.
Import keys_and_cert SliceFacts examples.

Section Parsing.

Context {ForeignError : Type}.
Context {Certificate : Type}.
Variable zero_Certificate : Certificate.
Variable cert_Type : Certificate -> Z * option ForeignError.
Variable cert_Length : Certificate -> Z * option ForeignError.
Variable ReadCertificate :
  list byte -> Certificate * list byte * option ForeignError.
Context {KeyImpl : Type}.
Context {SigningKeyImpl : Type}.
Variable ConstructPublicKey :
  KeyCertificate -> list byte
  -> option (@PublicKey KeyImpl) * option ForeignError.
Variable ConstructSigningPublicKey :
  KeyCertificate -> list byte
  -> option (@SigningPublicKey SigningKeyImpl) * option ForeignError.


Lemma ret_inj {A} (a b : A) : ret a = ret b -> a = b.
Proof. intros H. injection H. auto. Qed.

Lemma ReadKeys_short (data : list byte) (cert : Certificate) :
  len data < KEYS_AND_CERT_MIN_SIZE ->
  ReadKeys cert_Type cert_Length ConstructPublicKey
    ConstructSigningPublicKey data cert
  = ret {| spk := None; pk := None; remainder := [];
           err := Some (@ErrDataTooSmall ForeignError); data_after := data |}.
Proof.
  intros H. unfold ReadKeys.
  apply Z.ltb_lt in H. rewrite H. reflexivity.
Qed.

Lemma foreign_not_too_small (e : option ForeignError) :
  foreign e <> Some (@ErrDataTooSmall ForeignError).
Proof. destruct e; cbn; congruence. Qed.

(** Past its size check [ReadKeys] does not report missing data. *)
Lemma ReadKeys_long_err (data : list byte) (cert : Certificate) :
  KEYS_AND_CERT_MIN_SIZE <= len data ->
  forall r, ReadKeys cert_Type cert_Length ConstructPublicKey
    ConstructSigningPublicKey data cert = ret r ->
  err r <> Some (@ErrDataTooSmall ForeignError).
Proof.
  intros Hlen r. unfold ReadKeys.
  apply Z.ltb_ge in Hlen. rewrite Hlen.
  assert (Hnz : (len data =? 0) = false).
  { apply Z.eqb_neq. apply Z.ltb_ge in Hlen.
    unfold KEYS_AND_CERT_MIN_SIZE in Hlen. lia. }
  rewrite Hnz.
  destruct (cert_Type cert) as [cert_type terr].
  destruct (cert_Length cert) as [cert_len cert_len_err].
  destruct (cert_type =? CERT_KEY).
  - destruct (slice_to data KEYS_AND_CERT_PUBKEY_SIZE) as [slot|];
      cbn [bind]; [|discriminate].
    destruct (ConstructPublicKey _ slot) as [k e]. cbn [bind].
    destruct (slice data _ _) as [slot2|]; cbn [bind]; [|discriminate].
    destruct (ConstructSigningPublicKey _ slot2) as [k2 e2]. cbn [bind].
    destruct (cert_len =? 0).
    + destruct (slice_from data _); cbn [bind]; [|discriminate].
      intros Hr; apply ret_inj in Hr; subst r. cbn. apply foreign_not_too_small.
    + destruct (len data <? int_add KEYS_AND_CERT_MIN_SIZE cert_len).
      * destruct (slice_from data _); cbn [bind]; [|discriminate].
        intros Hr; apply ret_inj in Hr; subst r. cbn. apply foreign_not_too_small.
      * destruct (slice data _ _); cbn [bind]; [|discriminate].
        destruct (slice_from data _); cbn [bind]; [|discriminate].
        intros Hr; apply ret_inj in Hr; subst r. cbn. apply foreign_not_too_small.
  - destruct (copy_at data 0 _ _) as [data'|]; cbn [bind]; [|discriminate].
    destruct (slice data' _ _) as [slot2|]; cbn [bind]; [|discriminate].
    destruct (cert_len =? 0).
    + destruct (slice_from data' _); cbn [bind]; [|discriminate].
      intros Hr; apply ret_inj in Hr; subst r. cbn. congruence.
    + destruct (len data <? int_add KEYS_AND_CERT_MIN_SIZE cert_len).
      * destruct (slice_from data' _); cbn [bind]; [|discriminate].
        intros Hr; apply ret_inj in Hr; subst r. cbn. apply foreign_not_too_small.
      * destruct (slice data' _ _); cbn [bind]; [|discriminate].
        destruct (slice_from data' _); cbn [bind]; [|discriminate].
        intros Hr; apply ret_inj in Hr; subst r. cbn. congruence.
Qed.

(** C4: on fewer than 387 bytes [ReadKeysAndCert] returns the
    insufficient-data error with the zero [KeysAndCert] and no remainder;
    on 387 bytes or more the size check passes: the certificate reader is
    run on the first 387 bytes, its error is the one returned when it
    fails, and no path reports insufficient data. *)
Theorem ReadKeysAndCert_minimum_size (data : list byte) :
  (len data < 387 ->
     ReadKeysAndCert zero_Certificate cert_Type cert_Length ReadCertificate
       ConstructPublicKey ConstructSigningPublicKey data
     = ret {| keys_and_cert := zero_KeysAndCert zero_Certificate;
              kac_remainder := [];
              kac_err := Some (@ErrDataTooSmall ForeignError);
              kac_data_after := data |}) /\
  (387 <= len data ->
     (forall c rest e,
        ReadCertificate (firstn 387 data) = (c, rest, Some e) ->
        ReadKeysAndCert zero_Certificate cert_Type cert_Length ReadCertificate
       ConstructPublicKey ConstructSigningPublicKey data
        = ret {| keys_and_cert := zero_KeysAndCert zero_Certificate;
                 kac_remainder := rest;
                 kac_err := Some (ErrForeign e);
                 kac_data_after := data |}) /\
     (forall r, ReadKeysAndCert zero_Certificate cert_Type cert_Length ReadCertificate
       ConstructPublicKey ConstructSigningPublicKey data = ret r ->
        kac_err r <> Some (@ErrDataTooSmall ForeignError))).
Proof.
  split.
  - intros H. unfold ReadKeysAndCert, KEYS_AND_CERT_MIN_SIZE.
    apply Z.ltb_lt in H. rewrite H. reflexivity.
  - intros H. unfold ReadKeysAndCert.
    assert (Hge : (len data <? KEYS_AND_CERT_MIN_SIZE) = false)
      by (apply Z.ltb_ge; exact H).
    rewrite Hge, slice_to_ok by (unfold KEYS_AND_CERT_MIN_SIZE; lia).
    cbn [bind]. change (Z.to_nat KEYS_AND_CERT_MIN_SIZE) with 387%nat.
    split.
    + intros c rest e Hc. rewrite Hc. reflexivity.
    + intros r.
      destruct (ReadCertificate (firstn 387 data)) as [[c rest] [e|]].
      * intros Hr; apply ret_inj in Hr; subst r. cbn. congruence.
      * destruct (GetCertificate zero_Certificate cert_Type _) as [cert gerr].
        destruct (ReadKeys cert_Type cert_Length ConstructPublicKey
    ConstructSigningPublicKey data cert) as [rk|] eqn:Erk; cbn [bind];
          [|discriminate].
        pose proof (ReadKeys_long_err data cert H rk Erk) as Hne.
        destruct (err rk) as [e|] eqn:Ee.
        -- intros Hr; apply ret_inj in Hr; subst r. cbn. exact Hne.
        -- intros Hr; apply ret_inj in Hr; subst r. cbn. congruence.
Qed.

(** X12: what [ReadKeys] hands back, on every input of at least 387
    bytes, for a certificate that is not a KEY certificate and whose
    length added to 387 is still an [int]: the signing
    key holds bytes 256..383 of the input, the public key is the
    zero-valued ElGamal key, and the first 256 bytes of the caller's
    buffer have been overwritten with zeros. *)
Lemma ReadKeys_legacy (data : list byte) (cert : Certificate) :
  KEYS_AND_CERT_MIN_SIZE <= len data ->
  fst (cert_Type cert) <> CERT_KEY ->
  0 <= fst (cert_Length cert) ->
  KEYS_AND_CERT_MIN_SIZE + fst (cert_Length cert) < 2 ^ 63 ->
  exists r,
    ReadKeys cert_Type cert_Length ConstructPublicKey
    ConstructSigningPublicKey data cert = ret r /\
    pk r = Some (ElgPublicKey (make 256)) /\
    spk r = Some (DSAPublicKey (firstn 128 (skipn 256 data))) /\
    data_after r = make 256 ++ skipn 256 data.
Proof.
  intros Hlen Hty Hcl Hmax. unfold ReadKeys.
  assert (Hge : (len data <? KEYS_AND_CERT_MIN_SIZE) = false)
    by (apply Z.ltb_ge; exact Hlen).
  unfold KEYS_AND_CERT_MIN_SIZE, KEYS_AND_CERT_PUBKEY_SIZE,
    KEYS_AND_CERT_SPK_SIZE in *.
  rewrite Hge.
  assert (Hnz : (len data =? 0) = false) by (apply Z.eqb_neq; lia).
  rewrite Hnz.
  destruct (cert_Type cert) as [cert_type terr]. cbn [fst] in Hty.
  destruct (cert_Length cert) as [cert_len cert_len_err].
  cbn [fst] in Hcl, Hmax.
  rewrite !LengthFacts.int_add_small by lia.
  apply Z.eqb_neq in Hty. rewrite Hty.
  rewrite copy_at_window by (unfold len in *; rewrite ?make_length; lia).
  cbn [bind]. change (Z.to_nat 0) with 0%nat. cbn [firstn app].
  change (Z.to_nat 256) with 256%nat.
  set (data1 := make 256 ++ skipn 256 data).
  assert (Hl1 : len data1 = len data).
  { unfold data1, len in *. rewrite length_app, make_length, length_skipn. lia. }
  rewrite slice_ok by lia. cbn [bind].
  change (Z.to_nat (256 + 128 - 256)) with 128%nat.
  assert (Hsk : skipn 256 data1 = skipn 256 data).
  { unfold data1. rewrite skipn_app, make_length.
    rewrite skipn_all2 by (rewrite make_length; lia).
    rewrite Nat.sub_diag. reflexivity. }
  change (Z.to_nat 256) with 256%nat. rewrite Hsk.
  assert (Hspk : copy (make (Z.to_nat 128)) (firstn 128 (skipn 256 data))
                 = firstn 128 (skipn 256 data)).
  { apply copy_full. rewrite make_length, length_firstn, length_skipn.
    unfold len in *. lia. }
  rewrite Hspk.
  destruct (cert_len =? 0) eqn:E0.
  - rewrite slice_from_ok by lia. cbn [bind]. eexists. split; [reflexivity|].
    cbn. auto.
  - destruct (len data <? 387 + cert_len) eqn:E1.
    + rewrite slice_from_ok by lia. cbn [bind]. eexists. split; [reflexivity|].
      cbn. auto.
    + apply Z.ltb_ge in E1.
      rewrite slice_ok, slice_from_ok by lia. cbn [bind].
      eexists. split; [reflexivity|]. cbn. auto.
Qed.

(** X13: what [ReadKeys] hands back for a KEY certificate whose length
    added to 387 is still an [int]: the results of the
    two constructors of a [KeyCertificate] that carries the certificate
    type tag as its key type, run on bytes 0..255 and 256..383; the
    caller's buffer is left as it was. *)
Lemma ReadKeys_key_certificate (data : list byte) (cert : Certificate) :
  KEYS_AND_CERT_MIN_SIZE <= len data ->
  fst (cert_Type cert) = CERT_KEY ->
  0 <= fst (cert_Length cert) ->
  KEYS_AND_CERT_MIN_SIZE + fst (cert_Length cert) < 2 ^ 63 ->
  exists r,
    ReadKeys cert_Type cert_Length ConstructPublicKey
      ConstructSigningPublicKey data cert = ret r /\
    pk r = fst (ConstructPublicKey {| PKType := CERT_KEY; SPKType := 0 |}
                  (firstn 256 data)) /\
    spk r = fst (ConstructSigningPublicKey
                   {| PKType := 0; SPKType := CERT_KEY |}
                   (firstn 128 (skipn 256 data))) /\
    data_after r = data.
Proof.
  intros Hlen Hty Hcl Hmax. unfold ReadKeys.
  assert (Hge : (len data <? KEYS_AND_CERT_MIN_SIZE) = false)
    by (apply Z.ltb_ge; exact Hlen).
  unfold KEYS_AND_CERT_MIN_SIZE, KEYS_AND_CERT_PUBKEY_SIZE,
    KEYS_AND_CERT_SPK_SIZE in *.
  rewrite Hge.
  assert (Hnz : (len data =? 0) = false) by (apply Z.eqb_neq; lia).
  rewrite Hnz.
  destruct (cert_Type cert) as [cert_type terr]. cbn [fst] in Hty. subst cert_type.
  destruct (cert_Length cert) as [cert_len cert_len_err].
  cbn [fst] in Hcl, Hmax.
  rewrite !LengthFacts.int_add_small by lia.
  rewrite Z.eqb_refl, slice_to_ok by lia. cbn [bind].
  change (Z.to_nat 256) with 256%nat.
  destruct (ConstructPublicKey _ (firstn 256 data)) as [k e]. cbn [bind fst].
  rewrite slice_ok by lia. cbn [bind].
  change (Z.to_nat (256 + 128 - 256)) with 128%nat.
  change (Z.to_nat 256) with 256%nat.
  destruct (ConstructSigningPublicKey _ (firstn 128 (skipn 256 data)))
    as [k2 e2]. cbn [bind fst].
  destruct (cert_len =? 0) eqn:E0.
  - rewrite slice_from_ok by lia. cbn [bind]. eexists. split; [reflexivity|].
    cbn. auto.
  - destruct (len data <? 387 + cert_len) eqn:E1.
    + rewrite slice_from_ok by lia. cbn [bind]. eexists. split; [reflexivity|].
      cbn. auto.
    + apply Z.ltb_ge in E1.
      rewrite slice_ok, slice_from_ok by lia. cbn [bind].
      eexists. split; [reflexivity|]. cbn. auto.
Qed.

End Parsing.

(** C3, on the code: for a certificate that is not a KEY certificate the
    signing-key slot is decoded as the DSA key holding bytes 256..383 of
    the input, but the public key handed back is the all-zero ElGamal key,
    not bytes 0..255 of the input, and those bytes of the caller's buffer
    are overwritten with zeros: [copy(data[:256], elg_key[:])] copies the
    empty key over the data.  Here the input is 256 bytes 0x01, 128 bytes
    0x02 and a NULL certificate. *)
Theorem ReadKeys_legacy_public_key_zeroed :
  exists r,
    ReadKeys example_cert_Type example_cert_Length
      example_ConstructPublicKey example_ConstructSigningPublicKey
      example_keys_and_cert_data (0, 0) = ret r /\
    err r = None /\
    spk r = Some (DSAPublicKey (repeat x02 128)) /\
    pk r = Some (ElgPublicKey (repeat x00 256)) /\
    pk r <> Some (ElgPublicKey (firstn 256 example_keys_and_cert_data)) /\
    firstn 256 example_keys_and_cert_data = repeat x01 256 /\
    firstn 256 (data_after r) = repeat x00 256.
Proof.
  eexists. split; [vm_compute; reflexivity|].
  cbn [err spk pk data_after].
  repeat split; try (vm_compute; congruence).
Qed.

End KeysAndCertFacts.

Module CipherFacts.
Import cipher SliceFacts.

Lemma lxor_byte_range (a b : Z) :
  0 <= a < 256 -> 0 <= b < 256 -> 0 <= Z.lxor a b < 256.
Proof.
  intros Ha Hb.
  assert (Hnn : 0 <= Z.lxor a b) by (apply Z.lxor_nonneg; lia).
  split; [exact Hnn|].
  destruct (Z.eq_dec (Z.lxor a b) 0) as [->|Hnz]; [lia|].
  change 256 with (2 ^ 8). apply Z.log2_lt_pow2; [lia|].
  eapply Z.le_lt_trans; [apply Z.log2_lxor; lia|].
  apply Z.max_lub_lt.
  - destruct (Z.eq_dec a 0) as [->|]; [cbn; lia|].
    apply Z.log2_lt_pow2; [lia|]. change (2 ^ 8) with 256. lia.
  - destruct (Z.eq_dec b 0) as [->|]; [cbn; lia|].
    apply Z.log2_lt_pow2; [lia|]. change (2 ^ 8) with 256. lia.
Qed.

Lemma Z_of_xor_byte (a b : byte) :
  Z_of_byte (xor_byte a b) = Z.lxor (Z_of_byte a) (Z_of_byte b).
Proof.
  unfold xor_byte. rewrite Z_of_byte_of_Z.
  apply Z.mod_small, lxor_byte_range; apply Z_of_byte_range.
Qed.

Lemma xor_byte_cancel (a b : byte) : xor_byte (xor_byte a b) b = a.
Proof.
  apply Z_of_byte_inj. rewrite !Z_of_xor_byte.
  rewrite Z.lxor_assoc, Z.lxor_nilpotent, Z.lxor_0_r. reflexivity.
Qed.

Lemma XORBytes_length (x y : list byte) :
  length (XORBytes x y) = Nat.min (length x) (length y).
Proof.
  revert y. induction x as [|a x IH]; intros [|b y]; cbn; auto.
Qed.

Lemma XORBytes_cancel (x y : list byte) :
  length x = length y -> XORBytes (XORBytes x y) y = x.
Proof.
  revert y. induction x as [|a x IH]; intros [|b y] H; cbn in *;
    try discriminate; [reflexivity|].
  rewrite xor_byte_cancel, IH by lia. reflexivity.
Qed.

Section CBC.

Variable Encrypt : list byte -> list byte -> list byte.
Variable Decrypt : list byte -> list byte -> list byte.
Variable key : list byte.

(** What the mode needs of the block cipher under [key]: a block goes to a
    block, and decryption undoes encryption. *)
Hypothesis Encrypt_length :
  forall b, length b = 16%nat -> length (Encrypt key b) = 16%nat.
Hypothesis Decrypt_Encrypt :
  forall b, length b = 16%nat -> Decrypt key (Encrypt key b) = b.

Lemma encrypt_blocks_length (n : nat) :
  forall iv src, length iv = 16%nat -> length src = (16 * n)%nat ->
  length (encrypt_blocks Encrypt n key iv src) = (16 * n)%nat.
Proof.
  induction n as [|n IH]; intros iv src Hiv Hsrc; [reflexivity|].
  cbn [encrypt_blocks].
  assert (Hx : length (XORBytes (firstn 16 src) iv) = 16%nat)
    by (rewrite XORBytes_length, length_firstn; lia).
  rewrite length_app, Encrypt_length, IH; try lia.
  - now apply Encrypt_length.
  - rewrite length_skipn. lia.
Qed.

(** CBC decryption undoes CBC encryption under the same key and IV. *)
Lemma decrypt_encrypt_blocks (n : nat) :
  forall iv src, length iv = 16%nat -> length src = (16 * n)%nat ->
  decrypt_blocks Decrypt n key iv (encrypt_blocks Encrypt n key iv src) = src.
Proof.
  induction n as [|n IH]; intros iv src Hiv Hsrc.
  - destruct src; [reflexivity|discriminate].
  - cbn [encrypt_blocks decrypt_blocks].
    set (p := firstn 16 src).
    assert (Hp : length p = 16%nat) by (unfold p; rewrite length_firstn; lia).
    assert (Hx : length (XORBytes p iv) = 16%nat)
      by (rewrite XORBytes_length; lia).
    set (c := Encrypt key (XORBytes p iv)).
    assert (Hc : length c = 16%nat) by (now apply Encrypt_length).
    rewrite firstn_app, firstn_all2 by lia.
    rewrite Hc, Nat.sub_diag, firstn_O, app_nil_r.
    rewrite skipn_app, skipn_all2 by lia.
    rewrite Hc, Nat.sub_diag, skipn_O. cbn [app].
    unfold c at 1. rewrite Decrypt_Encrypt by assumption.
    rewrite XORBytes_cancel by lia.
    rewrite IH.
    + apply firstn_skipn.
    + exact Hc.
    + rewrite length_skipn. lia.
Qed.

Lemma CBCEncrypter_whole_blocks (n : nat) (src : list byte) :
  length src = (16 * n)%nat ->
  CBCEncrypter_CryptBlocks Encrypt key (make 16) (make (length src)) src
  = ret (encrypt_blocks Encrypt n key (make 16) src).
Proof.
  intros Hsrc. unfold CBCEncrypter_CryptBlocks, BlockSize, len.
  rewrite !make_length, Hsrc.
  change (Z.of_nat 16 =? 16) with true. cbn [negb].
  replace (Z.of_nat (16 * n) mod 16) with 0
    by (rewrite Nat2Z.inj_mul, Z.mul_comm, Z.mod_mul; lia).
  cbn [Z.eqb negb]. rewrite Z.ltb_irrefl.
  replace (Z.to_nat (Z.of_nat (16 * n) / 16)) with n
    by (rewrite Nat2Z.inj_mul, Z.mul_comm, Z.div_mul; lia).
  rewrite copy_full; [reflexivity|].
  rewrite make_length, encrypt_blocks_length; auto using make_length.
Qed.

Lemma CBCDecrypter_of_encrypted (n : nat) (src : list byte) :
  length src = (16 * n)%nat ->
  let c := encrypt_blocks Encrypt n key (make 16) src in
  CBCDecrypter_CryptBlocks Decrypt key (make 16) (make (length c)) c = ret src.
Proof.
  intros Hsrc c.
  assert (Hc : length c = (16 * n)%nat)
    by (apply encrypt_blocks_length; auto using make_length).
  unfold CBCDecrypter_CryptBlocks, BlockSize, len.
  rewrite !make_length, Hc.
  change (Z.of_nat 16 =? 16) with true. cbn [negb].
  replace (Z.of_nat (16 * n) mod 16) with 0
    by (rewrite Nat2Z.inj_mul, Z.mul_comm, Z.mod_mul; lia).
  cbn [Z.eqb negb]. rewrite Z.ltb_irrefl.
  replace (Z.to_nat (Z.of_nat (16 * n) / 16)) with n
    by (rewrite Nat2Z.inj_mul, Z.mul_comm, Z.div_mul; lia).
  unfold c. rewrite decrypt_encrypt_blocks by auto using make_length.
  rewrite copy_full; [reflexivity|]. rewrite make_length. lia.
Qed.

End CBC.

End CipherFacts.

Module NTCPFacts.
Import ntcp cipher SliceFacts CipherFacts.

Section Transport.

Context {ForeignError : Type}.
Context {RouterAddress : Type}.
Variable TransportStyle_Data : RouterAddress -> string * option ForeignError.
Variable StaticKey : RouterAddress -> list byte * option ForeignError.

Lemma loop_step_match (addr : RouterAddress) :
  has_NTCP2_style TransportStyle_Data addr ->
  forall rest,
    peerStaticKey_loop TransportStyle_Data StaticKey (addr :: rest)
    = (fst (StaticKey addr), foreign (snd (StaticKey addr))) /\
    Compatible_loop TransportStyle_Data (addr :: rest) = true.
Proof.
  intros H rest. cbn [peerStaticKey_loop Compatible_loop].
  rewrite H. rewrite String.eqb_refl.
  destruct (StaticKey addr). split; reflexivity.
Qed.

Lemma loop_step_skip (addr : RouterAddress) :
  ~ has_NTCP2_style TransportStyle_Data addr ->
  forall rest,
    peerStaticKey_loop TransportStyle_Data StaticKey (addr :: rest)
    = peerStaticKey_loop TransportStyle_Data StaticKey rest /\
    Compatible_loop TransportStyle_Data (addr :: rest)
    = Compatible_loop TransportStyle_Data rest.
Proof.
  intros H rest. cbn [peerStaticKey_loop Compatible_loop].
  unfold has_NTCP2_style in H.
  destruct (TransportStyle_Data addr) as [style [e|]]; [split; reflexivity|].
  destruct (String.eqb style NTCP_PROTOCOL_NAME) eqn:E; [|split; reflexivity].
  apply String.eqb_eq in E. subst style. contradiction.
Qed.

Lemma has_NTCP2_style_dec (addr : RouterAddress) :
  has_NTCP2_style TransportStyle_Data addr \/
  ~ has_NTCP2_style TransportStyle_Data addr.
Proof.
  unfold has_NTCP2_style.
  destruct (TransportStyle_Data addr) as [style [e|]].
  - right. congruence.
  - destruct (String.eqb style NTCP_PROTOCOL_NAME) eqn:E.
    + apply String.eqb_eq in E. subst. now left.
    + apply String.eqb_neq in E. right. congruence.
Qed.

Lemma loops_first_match (pre : list RouterAddress) :
  forall addr post,
    (forall a, In a pre -> ~ has_NTCP2_style TransportStyle_Data a) ->
    has_NTCP2_style TransportStyle_Data addr ->
    peerStaticKey_loop TransportStyle_Data StaticKey (pre ++ addr :: post)
    = (fst (StaticKey addr), foreign (snd (StaticKey addr))) /\
    Compatible_loop TransportStyle_Data (pre ++ addr :: post) = true.
Proof.
  induction pre as [|a pre IH]; intros addr post Hpre Haddr.
  - now apply loop_step_match.
  - cbn [app].
    destruct (loop_step_skip a (Hpre a (or_introl eq_refl)) (pre ++ addr :: post))
      as [-> ->].
    apply IH; [|assumption]. intros b Hb. apply Hpre. now right.
Qed.

Lemma loops_no_match (addrs : list RouterAddress) :
  (forall a, In a addrs -> ~ has_NTCP2_style TransportStyle_Data a) ->
  peerStaticKey_loop TransportStyle_Data StaticKey addrs
  = (make 32, Some ErrRemoteStaticKey) /\
  Compatible_loop TransportStyle_Data addrs = false.
Proof.
  induction addrs as [|a addrs IH]; intros H; [split; reflexivity|].
  destruct (loop_step_skip a (H a (or_introl eq_refl)) addrs) as [-> ->].
  apply IH. intros b Hb. apply H. now right.
Qed.

(** Every list of addresses either has no address of the style or splits
    at the first one that has it. *)
Lemma first_match_split (addrs : list RouterAddress) :
  (forall a, In a addrs -> ~ has_NTCP2_style TransportStyle_Data a) \/
  (exists pre addr post,
     addrs = pre ++ addr :: post /\
     (forall a, In a pre -> ~ has_NTCP2_style TransportStyle_Data a) /\
     has_NTCP2_style TransportStyle_Data addr).
Proof.
  induction addrs as [|a addrs IH].
  - left. intros a [].
  - destruct (has_NTCP2_style_dec a) as [Ha|Ha].
    + right. exists [], a, addrs. split; [reflexivity|]. split; [|assumption].
      intros b [].
    + destruct IH as [IH|(pre & addr & post & -> & Hpre & Haddr)].
      * left. intros b [<-|Hb]; auto.
      * right. exists (a :: pre), addr, post. split; [reflexivity|].
        split; [|assumption]. intros b [<-|Hb]; auto.
Qed.

(** C2: [peerStaticKey] hands back what [StaticKey] gives for the first
    address of the descriptor whose transport style is "NTCP2"; when no
    address has that style it returns an error (with the zero array, not a
    key); and [Compatible] is true exactly when some address has that
    style. *)
Theorem peerStaticKey_and_Compatible
    (s : NTCP2Session) (routerInfo : RouterInfo) :
  (forall pre addr post,
     RouterAddresses (session_RouterInfo s) = pre ++ addr :: post ->
     (forall a, In a pre -> ~ has_NTCP2_style TransportStyle_Data a) ->
     has_NTCP2_style TransportStyle_Data addr ->
     peerStaticKey TransportStyle_Data StaticKey s
     = (fst (StaticKey addr), foreign (snd (StaticKey addr)))) /\
  ((forall a, In a (RouterAddresses (session_RouterInfo s)) ->
              ~ has_NTCP2_style TransportStyle_Data a) ->
     peerStaticKey TransportStyle_Data StaticKey s
     = (make 32, Some ErrRemoteStaticKey)) /\
  (snd (peerStaticKey TransportStyle_Data StaticKey s) = None ->
     exists a, In a (RouterAddresses (session_RouterInfo s)) /\
               has_NTCP2_style TransportStyle_Data a) /\
  (Compatible TransportStyle_Data routerInfo = true <->
     exists a, In a (RouterAddresses routerInfo) /\
               has_NTCP2_style TransportStyle_Data a).
Proof.
  unfold peerStaticKey, Compatible.
  split; [|split; [|split]].
  - intros pre addr post -> Hpre Haddr. now apply loops_first_match.
  - intros Hnone. now apply loops_no_match.
  - intros Hok.
    destruct (first_match_split (RouterAddresses (session_RouterInfo s)))
      as [Hnone|(pre & addr & post & E & Hpre & Haddr)].
    + destruct (loops_no_match _ Hnone) as [E _]. rewrite E in Hok.
      discriminate.
    + exists addr. split; [|assumption]. rewrite E. apply in_elt.
  - split.
    + intros Hc.
      destruct (first_match_split (RouterAddresses routerInfo))
        as [Hnone|(pre & addr & post & E & Hpre & Haddr)].
      * destruct (loops_no_match _ Hnone) as [_ E]. congruence.
      * exists addr. split; [|assumption]. rewrite E. apply in_elt.
    + intros (a & Hin & Ha).
      destruct (first_match_split (RouterAddresses routerInfo))
        as [Hnone|(pre & addr & post & E & Hpre & Haddr)].
      * exfalso. exact (Hnone a Hin Ha).
      * rewrite E. now apply loops_first_match.
Qed.

Variable aes_Encrypt : list byte -> list byte -> list byte.
Variable aes_Decrypt : list byte -> list byte -> list byte.

(** C1: for a 32-byte input and a 32-byte static key of the peer,
    [DeobfuscateEphemeral] of the result of [ObfuscateEphemeral] is the
    input again: both run AES-256 in CBC mode with a zero IV and no padding
    under the peer's static key.  AES enters as a block cipher: a block
    goes to a block, and decryption undoes encryption under the same
    key. *)
Theorem DeobfuscateEphemeral_ObfuscateEphemeral
    (s : NTCP2Session) (static key : list byte) :
  (forall b, length b = 16%nat ->
             length (aes_Encrypt static b) = 16%nat) ->
  (forall b, length b = 16%nat ->
             aes_Decrypt static (aes_Encrypt static b) = b) ->
  peerStaticKey TransportStyle_Data StaticKey s = (static, None) ->
  length static = 32%nat ->
  length key = 32%nat ->
  exists obfuscated,
    ObfuscateEphemeral TransportStyle_Data StaticKey aes_Encrypt s key
    = ret (obfuscated, None) /\
    length obfuscated = 32%nat /\
    DeobfuscateEphemeral TransportStyle_Data StaticKey aes_Decrypt s obfuscated
    = ret (key, None).
Proof.
  intros HElen HDE Hstatic Hlen Hkey.
  exists (encrypt_blocks aes_Encrypt 2 static (make 16) key).
  assert (Hc : length (encrypt_blocks aes_Encrypt 2 static (make 16) key) = 32%nat)
    by (apply (encrypt_blocks_length aes_Encrypt static HElen 2);
        auto using make_length).
  assert (Hcipher : aes_NewCipher (ForeignError := ForeignError) static
                    = (Some static, None)).
  { unfold aes_NewCipher, len. rewrite Hlen. reflexivity. }
  split; [|split].
  - unfold ObfuscateEphemeral. rewrite Hstatic, Hcipher.
    change (Z.to_nat BlockSize) with 16%nat.
    rewrite (CBCEncrypter_whole_blocks aes_Encrypt static HElen 2) by assumption.
    reflexivity.
  - exact Hc.
  - unfold DeobfuscateEphemeral. rewrite Hstatic, Hcipher.
    change (Z.to_nat BlockSize) with 16%nat.
    pose proof (CBCDecrypter_of_encrypted aes_Encrypt aes_Decrypt static
                  HElen HDE 2 key Hkey) as HD.
    cbv zeta in HD. rewrite HD. reflexivity.
Qed.

End Transport.

End NTCPFacts.

Module SessionRequestFacts.
Import session_request SliceFacts examples.

Section Processor.

Context {ForeignError : Type}.
Context {Time : Type}.
Context {Date : Type}.
Variable DateFromTime : Time -> option Date * option ForeignError.

Lemma copy_length {A} (dst src : list A) : length (copy dst src) = length dst.
Proof.
  unfold copy. rewrite length_app, length_firstn, length_skipn. lia.
Qed.

Lemma NewIntegerFromInt_2_1 :
  NewIntegerFromInt (E := ForeignError) 2 1 = ret (Some [x02], None).
Proof. reflexivity. Qed.

Lemma NewInteger_one_byte (b : byte) :
  NewInteger (E := ForeignError) [b] 1 = ret (Some [b], [], None).
Proof. reflexivity. Qed.

(** C7, as the code has it: [CreateMessage] sets the network ID and the
    protocol version each to the one-byte integer 2, the padding length to
    the one-byte count of the padding bytes (fewer than 16), leaves the
    reserved length unset, and takes the timestamp from [DateFromTime] of
    the session's clock; the key is the 32 bytes of the random source and
    the padding is that many zero bytes. *)
Theorem CreateMessage_options
    (env : Environment) (n : Z) (timestamp : option Date) :
  snd (rand_Read env) = None ->
  rand_Int env = (n, None) ->
  0 <= n < 16 ->
  DateFromTime (GetCurrentTime env) = (timestamp, None) ->
  exists m,
    CreateMessage DateFromTime env = ret (Some m, None) /\
    NetworkID (Options m) = Some [x02] /\
    ProtocolVersion (Options m) = Some [x02] /\
    PaddingLength (Options m) = Some [byte_of_Z n] /\
    Message3Part2Length (Options m) = None /\
    Timestamp (Options m) = timestamp /\
    width (NetworkID (Options m)) = Some 1 /\
    width (ProtocolVersion (Options m)) = Some 1 /\
    width (PaddingLength (Options m)) = Some 1 /\
    option_map SetBytes (PaddingLength (Options m))
    = Some (len (Padding m)) /\
    len (Padding m) = n /\
    Padding m = repeat x00 (Z.to_nat n) /\
    XContent m = copy (make 32) (fst (rand_Read env)) /\
    length (XContent m) = 32%nat.
Proof.
  intros Hread Hint Hn Hdate. unfold CreateMessage.
  rewrite Hread, Hint.
  assert (Hneg : (n <? 0) = false) by (apply Z.ltb_ge; lia).
  rewrite Hneg, NewIntegerFromInt_2_1. cbn [bind].
  rewrite NewInteger_one_byte. cbn [bind]. rewrite Hdate.
  eexists. split; [reflexivity|].
  cbn [Options NetworkID ProtocolVersion PaddingLength Message3Part2Length
       Timestamp Padding XContent width option_map].
  assert (Hpad : len (make (Z.to_nat n)) = n)
    by (unfold len; rewrite make_length; lia).
  rewrite Hpad, copy_length, make_length.
  assert (Hbyte : SetBytes [byte_of_Z n] = n).
  { unfold SetBytes. cbn [fold_left].
    rewrite GoBytesFacts.Z_of_byte_of_Z, Z.mod_small by lia. lia. }
  rewrite Hbyte.
  repeat split.
Qed.

End Processor.

Lemma CreateMessage_options_witness :
  exists m,
    CreateMessage example_DateFromTime example_env = ret (Some m, None) /\
    NetworkID (Options m) = Some [x02] /\
    ProtocolVersion (Options m) = Some [x02] /\
    PaddingLength (Options m) = Some [byte_of_Z 3] /\
    Message3Part2Length (Options m) = None /\
    Timestamp (Options m) = Some (common.IntegerBytes 1700000000000) /\
    width (NetworkID (Options m)) = Some 1 /\
    width (ProtocolVersion (Options m)) = Some 1 /\
    width (PaddingLength (Options m)) = Some 1 /\
    option_map SetBytes (PaddingLength (Options m))
    = Some (len (Padding m)) /\
    len (Padding m) = 3 /\
    Padding m = repeat x00 (Z.to_nat 3) /\
    XContent m = copy (make 32) (fst (rand_Read example_env)) /\
    length (XContent m) = 32%nat.
Proof.
  apply (CreateMessage_options example_DateFromTime example_env 3
           (Some (common.IntegerBytes 1700000000000))).
  - reflexivity.
  - reflexivity.
  - lia.
  - reflexivity.
Defined.

(** C7, as the specification states it, fails: in the message
    [CreateMessage] builds in the example environment the reserved length
    is not set at all, and the network ID and the protocol version are one
    byte wide, so the fields do not have the widths 2, 2, 1, 2. *)
Lemma CreateMessage_specified_widths_counterexample :
  exists m,
    CreateMessage example_DateFromTime example_env = ret (Some m, None) /\
    Message3Part2Length (Options m) = None /\
    width (NetworkID (Options m)) = Some 1 /\
    width (ProtocolVersion (Options m)) = Some 1 /\
    ~ specified_widths (Options m).
Proof.
  eexists. split; [reflexivity|].
  split; [reflexivity|]. split; [reflexivity|]. split; [reflexivity|].
  intros (_ & _ & _ & H). cbn in H. discriminate.
Qed.

End SessionRequestFacts.

Module Witnesses.
Import examples SliceFacts CipherFacts.

Lemma xor_cipher_length (key b : list byte) :
  (16 <= length key)%nat -> length b = 16%nat ->
  length (xor_cipher key b) = 16%nat.
Proof.
  intros Hk Hb. unfold xor_cipher.
  rewrite XORBytes_length, length_firstn. lia.
Qed.

Lemma xor_cipher_inverse (key b : list byte) :
  (16 <= length key)%nat -> length b = 16%nat ->
  xor_cipher key (xor_cipher key b) = b.
Proof.
  intros Hk Hb. unfold xor_cipher. apply XORBytes_cancel.
  rewrite length_firstn. lia.
Qed.

Lemma DeobfuscateEphemeral_ObfuscateEphemeral_witness :
  exists obfuscated,
    ntcp.ObfuscateEphemeral example_Data example_StaticKey xor_cipher
      example_session (repeat x07 32) = ret (obfuscated, None) /\
    length obfuscated = 32%nat /\
    ntcp.DeobfuscateEphemeral example_Data example_StaticKey xor_cipher
      example_session obfuscated = ret (repeat x07 32, None).
Proof.
  apply (NTCPFacts.DeobfuscateEphemeral_ObfuscateEphemeral
           example_Data example_StaticKey xor_cipher xor_cipher
           example_session example_key (repeat x07 32)).
  - intros b Hb. apply xor_cipher_length; [cbn; lia|exact Hb].
  - intros b Hb. apply xor_cipher_inverse; [cbn; lia|exact Hb].
  - reflexivity.
  - reflexivity.
  - reflexivity.
Defined.

Lemma SignHash_signature_layout_witness :
  let r := fst (fst (example_Sign 3 example_privkey example_hash)) in
  let s := snd (fst (example_Sign 3 example_privkey example_hash)) in
  exists sig,
    dsa.SignHash example_Sign example_signer 3 example_hash = ret (sig, None) /\
    length sig = 40%nat /\
    sig = left_pad 20 (BigBytes r) ++ left_pad 20 (BigBytes s) /\
    firstn 20 sig = left_pad 20 (BigBytes r) /\
    skipn 20 sig = left_pad 20 (BigBytes s) /\
    SetBytes (firstn 20 sig) = r /\
    SetBytes (skipn 20 sig) = s.
Proof.
  intros r s.
  apply (DSASignatureFacts.SignHash_signature_layout example_Sign
           example_signer 3 example_hash example_privkey r s).
  - vm_compute; reflexivity.
  - vm_compute; reflexivity.
  - vm_compute; split; [discriminate|reflexivity].
  - vm_compute; split; [discriminate|reflexivity].
Defined.

End Witnesses.

(* ------------------------------------------------------------------ *)
(** ** More on Integer and Length *)

Module IntegerFacts.
Import common GoBytesFacts LengthFacts BigIntFacts.

(** Eight bytes read by [Uint64] are their big-endian value. *)
Lemma Uint64_SetBytes (b : list byte) :
  (8 <= length b)%nat -> Uint64 b = ret (SetBytes (firstn 8 b)).
Proof.
  intros H.
  destruct b as [|b0 [|b1 [|b2 [|b3 [|b4 [|b5 [|b6 [|b7 tl]]]]]]]];
    cbn [length] in H; try lia.
  rewrite Uint64_value. f_equal. cbn [firstn].
  unfold SetBytes. cbn [fold_left]. ring.
Qed.

Lemma SetBytes_range_n (b : list byte) (n : nat) :
  (length b <= n)%nat -> 0 <= SetBytes b < 256 ^ Z.of_nat n.
Proof.
  intros H. pose proof (SetBytes_range b) as Hr. unfold len in Hr.
  split; [lia|]. eapply Z.lt_le_trans; [apply Hr|].
  apply Z.pow_le_mono_r; lia.
Qed.

(** Two byte strings of one length with one value are the same. *)
Lemma SetBytes_inj (a : list byte) :
  forall b, length a = length b -> SetBytes a = SetBytes b -> a = b.
Proof.
  induction a as [|x a IH]; intros [|y b] Hl Hv; cbn [length] in Hl;
    try discriminate; [reflexivity|].
  rewrite !SetBytes_cons in Hv.
  assert (Hlen : len a = len b) by (unfold len; lia).
  rewrite Hlen in Hv.
  pose proof (SetBytes_range a) as Ha. pose proof (SetBytes_range b) as Hb.
  rewrite Hlen in Ha.
  pose proof (Z_of_byte_range x) as Hx. pose proof (Z_of_byte_range y) as Hy.
  assert (Hp : 0 < 256 ^ len b) by (apply Z.pow_pos_nonneg; unfold len; lia).
  assert (Hxy : Z_of_byte x = Z_of_byte y) by nia.
  apply Z_of_byte_inj in Hxy. subst y. f_equal.
  apply IH; [lia|]. lia.
Qed.

Lemma PutUint64_SetBytes (u : Z) :
  0 <= u < 2 ^ 64 -> SetBytes (PutUint64 u) = u.
Proof.
  intros Hu. pose proof (Uint64_PutUint64 u Hu) as H.
  rewrite Uint64_SetBytes in H by (rewrite PutUint64_length; lia).
  rewrite firstn_all2 in H by (rewrite PutUint64_length; lia).
  injection H. auto.
Qed.

(** The input [Integer] hands to [Uint64]: at least eight bytes, whose
    first eight have the value of the first eight bytes of the input. *)
Lemma Integer_padded (number : list byte) :
  let padded :=
    if len number <? INTEGER_SIZE
    then make (Z.to_nat (INTEGER_SIZE - len number)) ++ number
    else number in
  (8 <= length padded)%nat /\
  SetBytes (firstn 8 padded) = SetBytes (firstn 8 number).
Proof.
  unfold INTEGER_SIZE, len.
  destruct (Z.of_nat (length number) <? 8) eqn:E; cbv zeta.
  - apply Z.ltb_lt in E.
    assert (Hl : length (make (Z.to_nat (8 - Z.of_nat (length number))) ++ number)
                 = 8%nat) by (rewrite length_app, SliceFacts.make_length; lia).
    split; [lia|].
    rewrite firstn_all2 by lia. rewrite (firstn_all2 number) by lia.
    apply SetBytes_pad.
  - apply Z.ltb_ge in E. split; [lia|reflexivity].
Qed.

(** What [Integer] returns on any input. *)
Lemma Integer_first_eight (number : list byte) :
  Integer number = ret (int_of_uint64 (SetBytes (firstn 8 number))).
Proof.
  unfold Integer. destruct (Integer_padded number) as [Hl Hv].
  cbv zeta in Hl, Hv. rewrite Uint64_SetBytes by exact Hl.
  unfold fmap. cbn [bind]. now rewrite Hv.
Qed.

(** On fewer than eight bytes the sign bit is never reached. *)
Lemma Integer_short (number : list byte) :
  (length number < 8)%nat -> Integer number = ret (SetBytes number).
Proof.
  intros Hshort. rewrite Integer_first_eight, firstn_all2 by lia.
  pose proof (SetBytes_range number) as Hr.
  f_equal. apply int_of_uint64_small. split; [lia|].
  eapply Z.lt_le_trans; [apply Hr|].
  change (2 ^ 63) with (2 ^ 7 * 256 ^ 7).
  assert (256 ^ len number <= 256 ^ 7)
    by (apply Z.pow_le_mono_r; unfold len; lia).
  lia.
Qed.

(** X1: [Integer] never panics: it returns the big-endian value of the
    first eight bytes of its input, read as a 64-bit signed number; bytes
    after the eighth are ignored; on fewer than eight bytes the result is
    the unsigned big-endian value of all of them, and the empty slice gives
    zero.  [Length] is the same function. *)
Theorem Integer_value (number : list byte) :
  Integer number = ret (int_of_uint64 (SetBytes (firstn 8 number))) /\
  Length number = Integer number /\
  Integer number = Integer (firstn 8 number) /\
  ((length number < 8)%nat ->
     Integer number = ret (SetBytes number) /\
     0 <= SetBytes number < 256 ^ len number) /\
  Integer [] = ret 0.
Proof.
  split; [apply Integer_first_eight|]. split; [reflexivity|]. split; [|split].
  - rewrite (Integer_first_eight number),
      (Integer_first_eight (firstn 8 number)), firstn_firstn.
    reflexivity.
  - intros Hshort. split; [now apply Integer_short|apply SetBytes_range].
  - reflexivity.
Qed.

(** X2: [Integer(IntegerBytes(v)) == v] for every 64-bit [int], negative
    ones included, and [IntegerBytes] always writes eight bytes. *)
Theorem Integer_IntegerBytes (v : Z) :
  - 2 ^ 63 <= v < 2 ^ 63 ->
  length (IntegerBytes v) = 8%nat /\
  Integer (IntegerBytes v) = ret v.
Proof.
  intros Hv. split; [reflexivity|].
  unfold Integer, IntegerBytes, INTEGER_SIZE, len. cbv zeta.
  rewrite PutUint64_length.
  change (Z.of_nat 8 <? 8) with false. cbv iota.
  rewrite Uint64_PutUint64 by apply uint64_range.
  unfold fmap. cbn [bind]. now rewrite int_of_uint64_uint64.
Qed.

Lemma Integer_IntegerBytes_witness :
  length (IntegerBytes (-2)) = 8%nat /\
  Integer (IntegerBytes (-2)) = ret (-2).
Proof.
  apply (Integer_IntegerBytes (-2)). vm_compute. split; congruence.
Defined.

Lemma uint64_int_of_uint64 (u : Z) :
  0 <= u < 2 ^ 64 -> uint64 (int_of_uint64 u) = u.
Proof.
  intros Hu. unfold uint64, int_of_uint64.
  destruct (u <? 2 ^ 63) eqn:E.
  - apply Z.mod_small. lia.
  - apply Z.ltb_ge in E.
    rewrite <- (Z.mod_add (u - 2 ^ 64) 1 (2 ^ 64)) by pow_lia.
    replace (u - 2 ^ 64 + 1 * 2 ^ 64) with u by ring.
    apply Z.mod_small. lia.
Qed.

(** X3: encoding what [Integer] decoded from at most eight bytes gives the
    input back, left-padded with zero bytes to eight bytes; on exactly
    eight bytes [IntegerBytes(Integer(b)) == b]. *)
Theorem IntegerBytes_Integer (number : list byte) :
  (length number <= 8)%nat ->
  exists v,
    Integer number = ret v /\
    IntegerBytes v = left_pad 8 number /\
    (length number = 8%nat -> IntegerBytes v = number).
Proof.
  intros Hl. pose proof (Integer_first_eight number) as Hval.
  exists (int_of_uint64 (SetBytes (firstn 8 number))).
  split; [exact Hval|].
  rewrite firstn_all2 by lia.
  assert (Hr : 0 <= SetBytes number < 2 ^ 64).
  { change (2 ^ 64) with (256 ^ Z.of_nat 8). now apply SetBytes_range_n. }
  assert (Hpad : IntegerBytes (int_of_uint64 (SetBytes number))
                 = left_pad 8 number).
  { unfold IntegerBytes. rewrite uint64_int_of_uint64 by exact Hr.
    apply SetBytes_inj.
    - rewrite PutUint64_length. unfold left_pad.
      rewrite length_app, repeat_length. lia.
    - rewrite PutUint64_SetBytes by exact Hr.
      unfold left_pad. now rewrite SetBytes_pad. }
  split; [exact Hpad|].
  intros H8. rewrite Hpad. unfold left_pad. rewrite H8. reflexivity.
Qed.

Lemma IntegerBytes_Integer_witness :
  exists v,
    Integer [x01; x02; x03] = ret v /\
    IntegerBytes v = left_pad 8 [x01; x02; x03] /\
    (length [x01; x02; x03] = 8%nat -> IntegerBytes v = [x01; x02; x03]).
Proof.
  apply (IntegerBytes_Integer [x01; x02; x03]). cbn. lia.
Defined.

End IntegerFacts.

Module LengthBytesFacts.
Import common GoBytesFacts LengthFacts BigIntFacts SliceFacts IntegerFacts.

(** Where the loop of [LengthBytes] stops: at the first byte that is not
    zero, or at the last byte when all are zero. *)
Lemma scan_index_stop (l : list byte) :
  forall i index, l <> [] ->
  let k := scan_index i l index in
  i <= k < i + len l /\
  firstn (Z.to_nat (k - i)) l = repeat x00 (Z.to_nat (k - i)) /\
  (nth (Z.to_nat (k - i)) l x00 <> x00 \/ k = i + len l - 1).
Proof.
  induction l as [|j rest IH]; intros i index Hne; [congruence|].
  cbn [scan_index]. destruct (Byte.eqb j x00) eqn:Ej.
  - apply Byte.byte_dec_bl in Ej. subst j.
    destruct rest as [|j' rest'].
    + cbn [scan_index]. rewrite Z.sub_diag. unfold len. cbn.
      split; [lia|]. split; [reflexivity|]. right. lia.
    + specialize (IH (i + 1) i ltac:(discriminate)). cbv zeta in IH.
      destruct IH as (Hk & Hz & Hstop).
      set (k := scan_index (i + 1) (j' :: rest') i) in *.
      assert (Hsucc : Z.to_nat (k - i) = S (Z.to_nat (k - (i + 1)))) by lia.
      split; [unfold len in *; cbn [length] in *; lia|]. split.
      * rewrite Hsucc. cbn [firstn repeat]. now rewrite Hz.
      * rewrite Hsucc. cbn [nth]. destruct Hstop as [Hnz|Hlast]; [now left|].
        right. unfold len in *. cbn [length] in *. lia.
  - rewrite Z.sub_diag. unfold len. cbn [length Z.to_nat firstn repeat nth].
    split; [lia|]. split; [reflexivity|]. left.
    intros ->. rewrite Byte.byte_dec_lb in Ej by reflexivity. discriminate.
Qed.

(** The encoding of [LengthBytes]: the eight bytes of the value without
    their first [n] bytes, which are zero; either six bytes are cut and two
    kept, or fewer are cut and the first byte kept is not zero. *)
Lemma LengthBytes_cut (value : Z) :
  exists n : nat,
    LengthBytes value = ret (skipn n (PutUint64 (uint64 value))) /\
    firstn n (PutUint64 (uint64 value)) = repeat x00 n /\
    (n = 6%nat \/
     (n < 6)%nat /\ nth n (PutUint64 (uint64 value)) x00 <> x00).
Proof.
  unfold LengthBytes. set (onumber := PutUint64 (uint64 value)).
  assert (Hlen : length onumber = 8%nat) by reflexivity.
  destruct (scan_index_stop onumber 0 0) as (Hk & Hz & Hstop).
  { intros E. rewrite E in Hlen. discriminate. }
  set (k := scan_index 0 onumber 0) in *.
  unfold len in Hk, Hstop. rewrite Hlen in Hk, Hstop.
  rewrite Z.sub_0_r in Hz, Hstop.
  rewrite slice_from_ok by (unfold len; lia). cbn [bind].
  unfold len at 1. rewrite length_skipn, Hlen.
  destruct (Z.of_nat (8 - Z.to_nat k) =? 1) eqn:E1.
  - apply Z.eqb_eq in E1. assert (Hk7 : k = 7) by lia.
    exists 6%nat. rewrite Hk7 in *.
    rewrite slice_from_ok by (unfold len; lia).
    split; [reflexivity|]. split; [|now left].
    apply firstn_zeros_le with (n := 7%nat); [lia|exact Hz].
  - apply Z.eqb_neq in E1. exists (Z.to_nat k).
    rewrite slice_from_ok by (unfold len; lia).
    split; [reflexivity|]. split; [exact Hz|].
    destruct (Z.eq_dec k 6) as [->|Hk6]; [now left|].
    right. split; [lia|]. destruct Hstop as [Hnz|Hlast]; [exact Hnz|lia].
Qed.

(** X4: [Length(LengthBytes(v)) == v] for every 64-bit [int]; a negative
    value is encoded in all eight bytes of its two's complement. *)
Theorem Length_LengthBytes_signed (v : Z) :
  - 2 ^ 63 <= v < 2 ^ 63 ->
  exists number,
    LengthBytes v = ret number /\
    Length number = ret v /\
    (v < 0 -> number = IntegerBytes v /\ length number = 8%nat).
Proof.
  intros Hv. destruct (LengthBytes_cut v) as (n & Henc & Hz & Hn).
  exists (skipn n (PutUint64 (uint64 v))). split; [exact Henc|]. split.
  - rewrite Length_suffix by (auto using uint64_range).
    now rewrite int_of_uint64_uint64.
  - intros Hneg. unfold IntegerBytes.
    destruct n as [|n]; [split; reflexivity|exfalso].
    apply (firstn_zeros_le _ 1 (S n)) in Hz; [|lia].
    unfold PutUint64 in Hz. cbn [firstn repeat] in Hz. injection Hz as Hz.
    apply Z_of_byte_zero_iff in Hz.
    rewrite Z_of_byte_of_Z, Z.shiftr_div_pow2 in Hz by lia.
    assert (Hu : uint64 v = v + 2 ^ 64).
    { unfold uint64. rewrite <- (Z.mod_add v 1 (2 ^ 64)) by pow_lia.
      rewrite Z.mul_1_l. apply Z.mod_small. pow_lia. }
    rewrite Hu in Hz.
    assert (Hq : 128 <= (v + 2 ^ 64) / 2 ^ 56 < 256).
    { split.
      - apply Z.div_le_lower_bound; pow_lia.
      - apply Z.div_lt_upper_bound; pow_lia. }
    rewrite Z.mod_small in Hz by lia. lia.
Qed.

Lemma Length_LengthBytes_signed_witness :
  exists number,
    LengthBytes (-5) = ret number /\
    Length number = ret (-5) /\
    (-5 < 0 -> number = IntegerBytes (-5) /\ length number = 8%nat).
Proof.
  apply (Length_LengthBytes_signed (-5)). vm_compute. split; congruence.
Defined.

Lemma SetBytes_head_nonzero (b : byte) (rest : list byte) :
  b <> x00 -> 256 ^ len rest <= SetBytes (b :: rest).
Proof.
  intros Hb. rewrite SetBytes_cons.
  pose proof (Z_of_byte_range b) as Hr. pose proof (SetBytes_range rest) as Hs.
  assert (Z_of_byte b <> 0) by (intros E; apply Z_of_byte_zero_iff in E; auto).
  assert (Hp : 0 < 256 ^ len rest) by (apply Z.pow_pos_nonneg; unfold len; lia).
  nia.
Qed.

Lemma skipn_nth {A} (l : list A) (d : A) :
  forall n, (n < length l)%nat -> skipn n l = nth n l d :: skipn (S n) l.
Proof.
  induction l as [|x l IH]; intros n Hn; cbn [length] in Hn; [lia|].
  destruct n as [|n]; [reflexivity|]. cbn [skipn nth]. apply IH. lia.
Qed.

Lemma left_pad_length_max (n : nat) (b : list byte) :
  length (left_pad n b) = Nat.max n (length b).
Proof. unfold left_pad. rewrite length_app, repeat_length. lia. Qed.

(** X5: for a non-negative [v], [LengthBytes(v)] is the shortest
    big-endian encoding of [v], left-padded with zero bytes to two bytes
    when it is shorter: its length is the larger of 2 and the number of
    bytes of [v], and when longer than two bytes it does not start with a
    zero byte. *)
Theorem LengthBytes_minimal (v : Z) :
  0 <= v < 2 ^ 63 ->
  LengthBytes v = ret (left_pad 2 (BigBytes v)) /\
  length (left_pad 2 (BigBytes v)) = Nat.max 2 (length (BigBytes v)) /\
  ((2 < length (BigBytes v))%nat -> nth 0 (left_pad 2 (BigBytes v)) x00 <> x00).
Proof.
  intros Hv.
  assert (Hu : uint64 v = v) by (unfold uint64; apply Z.mod_small; pow_lia).
  assert (Hv64 : 0 <= v < 2 ^ 64) by pow_lia.
  destruct (LengthBytes_cut v) as (n & Henc & Hz & Hn).
  rewrite Hu in *. set (P := PutUint64 v) in *.
  assert (HP : length P = 8%nat) by reflexivity.
  assert (Hval : SetBytes (skipn n P) = v).
  { rewrite <- (PutUint64_SetBytes v Hv64). fold P.
    rewrite <- (firstn_skipn n P) at 2. rewrite Hz. now rewrite SetBytes_pad. }
  assert (Hbig : SetBytes (BigBytes v) = v) by (apply SetBytes_BigBytes; lia).
  assert (Hcut : skipn n P = left_pad 2 (BigBytes v) /\
                 ((2 < length (BigBytes v))%nat ->
                  nth 0 (skipn n P) x00 <> x00)).
  { destruct Hn as [->|[Hn6 Hnz]].
    - assert (Hl : length (skipn 6 P) = 2%nat)
        by (rewrite length_skipn, HP; reflexivity).
      assert (Hlt : v < 256 ^ Z.of_nat 2).
      { rewrite <- Hval. pose proof (SetBytes_range (skipn 6 P)) as Hr.
        unfold len in Hr. rewrite Hl in Hr. lia. }
      assert (HL : (length (BigBytes v) <= 2)%nat)
        by (apply BigBytes_length; lia).
      split; [|lia].
      apply SetBytes_inj.
      + rewrite Hl, left_pad_length_max. lia.
      + unfold left_pad. rewrite SetBytes_pad. congruence.
    - rewrite (skipn_nth P x00 n) in * by lia.
      set (b := nth n P x00) in *. set (rest := skipn (S n) P) in *.
      assert (Hrest : length rest = (7 - n)%nat)
        by (unfold rest; rewrite length_skipn, HP; lia).
      pose proof (SetBytes_head_nonzero b rest Hnz) as Hlow.
      pose proof (SetBytes_range (b :: rest)) as Hup.
      unfold len in Hlow, Hup. cbn [length] in Hup. rewrite Hrest in *.
      rewrite Hval in Hlow, Hup.
      assert (HL1 : (length (BigBytes v) <= S (7 - n))%nat)
        by (apply BigBytes_length; lia).
      assert (HL2 : (7 - n < length (BigBytes v))%nat).
      { destruct (Nat.lt_ge_cases (7 - n) (length (BigBytes v)))
          as [|Hge]; [assumption|exfalso].
        pose proof (SetBytes_range (BigBytes v)) as Hr. rewrite Hbig in Hr.
        assert (256 ^ len (BigBytes v) <= 256 ^ Z.of_nat (7 - n))
          by (apply Z.pow_le_mono_r; unfold len; lia).
        lia. }
      split; [|intros _; exact Hnz].
      apply SetBytes_inj.
      + cbn [length]. rewrite Hrest, left_pad_length_max. lia.
      + unfold left_pad. rewrite SetBytes_pad. congruence. }
  destruct Hcut as [Heq Hhead].
  split; [rewrite Henc, Heq; reflexivity|].
  split; [apply left_pad_length_max|].
  intros H2. rewrite <- Heq. now apply Hhead.
Qed.

Lemma LengthBytes_minimal_witness :
  LengthBytes 70000 = ret (left_pad 2 (BigBytes 70000)) /\
  length (left_pad 2 (BigBytes 70000)) = Nat.max 2 (length (BigBytes 70000)) /\
  ((2 < length (BigBytes 70000))%nat ->
   nth 0 (left_pad 2 (BigBytes 70000)) x00 <> x00).
Proof.
  apply (LengthBytes_minimal 70000). vm_compute. split; congruence.
Defined.

End LengthBytesFacts.

(* ------------------------------------------------------------------ *)
(** ** More on the DSA adapter *)

Module DSAMoreFacts.
Import dsa GoBytesFacts BigIntFacts SliceFacts DSAFacts DSASignatureFacts
  IntegerFacts.

Lemma dsap_below_2_1024 : dsap < 256 ^ 128.
Proof. reflexivity. Qed.

Lemma SetBytes_app_zeros (b : list byte) (n : nat) :
  SetBytes (b ++ make n) = SetBytes b * 256 ^ Z.of_nat n.
Proof.
  rewrite SetBytes_app. unfold make at 2. rewrite SetBytes_zeros.
  unfold len. rewrite make_length. lia.
Qed.

(** [copy] of a shorter source into a destination: the source, then what
    the destination held behind it. *)
Lemma copy_short {A} (dst src : list A) :
  (length src <= length dst)%nat ->
  copy dst src = src ++ skipn (length src) dst.
Proof.
  intros H. unfold copy. now rewrite firstn_all2 by lia.
Qed.

(** The minimal encoding of a number of exactly [n] bytes has [n] bytes. *)
Lemma BigBytes_length_exact (z : Z) (n : nat) :
  256 ^ Z.of_nat n <= 256 * z -> z < 256 ^ Z.of_nat n ->
  length (BigBytes z) = n.
Proof.
  intros Hlow Hup.
  assert (Hz : 0 <= z).
  { assert (0 < 256 ^ Z.of_nat n) by (apply Z.pow_pos_nonneg; lia). lia. }
  pose proof (BigBytes_length z n ltac:(lia)) as Hle.
  destruct (Nat.eq_dec (length (BigBytes z)) n) as [|Hne]; [assumption|exfalso].
  pose proof (SetBytes_range (BigBytes z)) as Hr.
  rewrite SetBytes_BigBytes in Hr by lia. unfold len in Hr.
  destruct n as [|n]; [lia|].
  assert (256 ^ Z.of_nat (length (BigBytes z)) <= 256 ^ Z.of_nat n)
    by (apply Z.pow_le_mono_r; lia).
  rewrite Nat2Z.inj_succ, Z.pow_succ_r in Hlow by lia. lia.
Qed.

Section Adapter.

Variable sha1_Sum : list byte -> list byte.
Variable dsa_Verify : PublicKey -> list byte -> Z -> Z -> bool.
Context {Entropy : Type}.
Variable dsa_Sign : Entropy -> PrivateKey -> list byte -> Z * Z * option error.
Variable dsa_GenerateKey : Entropy -> Parameters -> Z * Z * option error.

(** What [SignHash] returns when [dsa.Sign] succeeds with numbers of at
    most 160 bits. *)
Lemma SignHash_returns
    (ds : DSASigner) (rnd : Entropy) (h : list byte)
    (k : PrivateKey) (r s : Z) :
  signer_k ds = Some k ->
  dsa_Sign rnd k h = (r, s, None) ->
  0 <= r < 2 ^ 160 -> 0 <= s < 2 ^ 160 ->
  SignHash dsa_Sign ds rnd h
  = ret (left_pad 20 (BigBytes r) ++ left_pad 20 (BigBytes s), None).
Proof.
  intros Hk Hsign Hr Hs.
  assert (Hrl : (length (BigBytes r) <= 20)%nat)
    by (apply BigBytes_length; change (256 ^ Z.of_nat 20) with (2 ^ 160); lia).
  assert (Hsl : (length (BigBytes s) <= 20)%nat)
    by (apply BigBytes_length; change (256 ^ Z.of_nat 20) with (2 ^ 160); lia).
  unfold SignHash. rewrite Hk, Hsign.
  pose proof (SignHash_buffer (BigBytes r) (BigBytes s) Hrl Hsl) as Hb.
  destruct (copy_at (make 40) (20 - len (BigBytes r)) 20 (BigBytes r))
    as [sig1|]; cbn [bind] in *; [|discriminate].
  rewrite Hb. reflexivity.
Qed.

Lemma signature_halves (r s : Z) :
  0 <= r < 2 ^ 160 -> 0 <= s < 2 ^ 160 ->
  let sig := left_pad 20 (BigBytes r) ++ left_pad 20 (BigBytes s) in
  length sig = 40%nat /\
  SetBytes (firstn 20 sig) = r /\ SetBytes (skipn 20 sig) = s.
Proof.
  intros Hr Hs sig.
  assert (Hrl : length (left_pad 20 (BigBytes r)) = 20%nat).
  { apply left_pad_length, BigBytes_length.
    change (256 ^ Z.of_nat 20) with (2 ^ 160). lia. }
  assert (Hsl : length (left_pad 20 (BigBytes s)) = 20%nat).
  { apply left_pad_length, BigBytes_length.
    change (256 ^ Z.of_nat 20) with (2 ^ 160). lia. }
  unfold sig. split; [rewrite length_app; lia|]. split.
  - rewrite firstn_app, Hrl, Nat.sub_diag, firstn_O, app_nil_r.
    rewrite firstn_all2 by lia.
    rewrite SetBytes_left_pad. apply SetBytes_BigBytes. lia.
  - rewrite skipn_app, Hrl, Nat.sub_diag, skipn_O.
    rewrite skipn_all2 by lia. cbn [app].
    rewrite SetBytes_left_pad. apply SetBytes_BigBytes. lia.
Qed.

(** X6: signing and verifying compose through the 40-byte encoding: when
    [dsa.Sign] returns [(r, s)] for the SHA-1 hash of the data, [Sign]
    returns a signature on which [Verify] gives exactly the verdict of
    [dsa.Verify] on that hash and that same [(r, s)]: nil when it accepts,
    [ErrInvalidSignature] when it does not, and never
    [ErrBadSignatureSize]. *)
Theorem Verify_Sign
    (ds : DSASigner) (v : DSAVerifier) (rnd : Entropy) (data : list byte)
    (k : PrivateKey) (r s : Z) :
  signer_k ds = Some k ->
  dsa_Sign rnd k (sha1_Sum data) = (r, s, None) ->
  0 <= r < 2 ^ 160 -> 0 <= s < 2 ^ 160 ->
  exists sig,
    Sign sha1_Sum dsa_Sign ds rnd data = ret (sig, None) /\
    Verify sha1_Sum dsa_Verify v data sig
    = ret (if dsa_Verify (verifier_k v) (sha1_Sum data) r s
           then None else Some ErrInvalidSignature) /\
    Verify sha1_Sum dsa_Verify v data sig <> ret (Some ErrBadSignatureSize).
Proof.
  intros Hk Hsign Hr Hs.
  exists (left_pad 20 (BigBytes r) ++ left_pad 20 (BigBytes s)).
  destruct (signature_halves r s Hr Hs) as (Hlen & Hfst & Hsnd).
  cbv zeta in Hlen, Hfst, Hsnd.
  assert (HV : Verify sha1_Sum dsa_Verify v data
                 (left_pad 20 (BigBytes r) ++ left_pad 20 (BigBytes s))
               = ret (if dsa_Verify (verifier_k v) (sha1_Sum data) r s
                      then None else Some ErrInvalidSignature)).
  { unfold Verify. rewrite VerifyHash_40 by exact Hlen.
    now rewrite Hfst, Hsnd. }
  split; [|split].
  - unfold Sign. now apply SignHash_returns with (k := k).
  - exact HV.
  - rewrite HV. destruct (dsa_Verify _ _ _ _); congruence.
Qed.

(** X7: a signer made by [NewSigner] from a 20-byte key always holds a
    key, whose exponent is the big-endian value of the 20 bytes, so
    [SignHash] does not dereference nil; when [dsa.Sign] fails, [SignHash]
    returns no signature and that error. *)
Theorem SignHash_of_NewSigner (kb : list byte) :
  length kb = DSAPrivateKey_size ->
  snd (NewSigner kb) = None /\
  exists key,
    signer_k (fst (NewSigner kb)) = Some key /\
    X key = SetBytes kb /\
    pub_Parameters (priv_PublicKey key) = param /\
    forall rnd h e,
      snd (dsa_Sign rnd key h) = Some e ->
      SignHash dsa_Sign (fst (NewSigner kb)) rnd h = ret ([], Some e).
Proof.
  intros Hk. split; [reflexivity|].
  pose proof (SetBytes_20_below_p kb Hk) as Hp.
  unfold NewSigner. cbn [fst signer_k].
  rewrite createDSAPrivkey_lt by lia.
  eexists. split; [reflexivity|]. cbn [X priv_PublicKey pub_Parameters].
  split; [reflexivity|]. split; [reflexivity|].
  intros rnd h e He. unfold SignHash. cbn [signer_k].
  destruct (dsa_Sign rnd _ h) as [[r s] err]. cbn [snd] in He. subst err.
  reflexivity.
Qed.

(** X8: [Public] writes the bytes of [Y = g^X mod p] at the front of the
    128-byte array and leaves zeros behind them: the result is 128 bytes
    long, and read back by [NewVerifier] it is [Y] multiplied by 256 for
    every byte [Y] is shorter than 128 bytes; it is [Y] itself exactly
    when [Y] fills the 128 bytes or is zero. *)
Theorem Public_left_aligned (kb : list byte) :
  length kb = DSAPrivateKey_size ->
  let y := dsag ^ SetBytes kb mod dsap in
  let yb := BigBytes y in
  Public kb = (yb ++ make (128 - length yb), None) /\
  length (fst (Public kb)) = 128%nat /\
  Y (verifier_k (fst (NewVerifier (fst (Public kb)))))
  = y * 256 ^ Z.of_nat (128 - length yb) /\
  (Y (verifier_k (fst (NewVerifier (fst (Public kb))))) = y
   <-> length yb = 128%nat \/ y = 0).
Proof.
  intros Hk y yb.
  pose proof (SetBytes_20_below_p kb Hk) as Hp.
  assert (Hy : 0 <= y < dsap) by (apply Z.mod_pos_bound; reflexivity).
  assert (Hyl : (length yb <= 128)%nat).
  { apply BigBytes_length. pose proof dsap_below_2_1024. lia. }
  assert (HP : Public kb = (yb ++ make (128 - length yb), None)).
  { unfold Public. rewrite createDSAPrivkey_lt by lia.
    cbn [Y priv_PublicKey]. fold y. fold yb.
    rewrite copy_short by (unfold DSAPublicKey_size; rewrite make_length; lia).
    unfold DSAPublicKey_size. now rewrite skipn_make. }
  assert (HY : Y (verifier_k (fst (NewVerifier (fst (Public kb)))))
               = y * 256 ^ Z.of_nat (128 - length yb)).
  { rewrite HP. unfold NewVerifier, createDSAPublicKey.
    cbn [fst verifier_k Y]. rewrite SetBytes_app_zeros.
    unfold yb. rewrite SetBytes_BigBytes by lia. reflexivity. }
  split; [exact HP|]. split; [|split; [exact HY|]].
  - rewrite HP. cbn [fst]. rewrite length_app, make_length. lia.
  - rewrite HY. split.
    + intros E. destruct (Nat.eq_dec (length yb) 128) as [|Hne]; [now left|].
      right.
      assert (1 < 256 ^ Z.of_nat (128 - length yb)).
      { change 1 with (256 ^ 0). apply Z.pow_lt_mono_r; lia. }
      nia.
    + intros [E| ->]; [|reflexivity].
      rewrite E, Nat.sub_diag. cbn. lia.
Qed.

Lemma Public_left_aligned_witness :
  let kb := repeat x00 19 ++ [x02] in
  let y := dsag ^ SetBytes kb mod dsap in
  let yb := BigBytes y in
  Public kb = (yb ++ make (128 - length yb), None) /\
  length (fst (Public kb)) = 128%nat /\
  Y (verifier_k (fst (NewVerifier (fst (Public kb)))))
  = y * 256 ^ Z.of_nat (128 - length yb) /\
  (Y (verifier_k (fst (NewVerifier (fst (Public kb))))) = y
   <-> length yb = 128%nat \/ y = 0).
Proof.
  exact (Public_left_aligned (repeat x00 19 ++ [x02]) eq_refl).
Defined.

(** X9: [Generate] writes the bytes of the new exponent [X] at the front
    of the receiver's 20-byte array and keeps what the array held behind
    them; the key handed back decodes to [X] when [X] fills the 20 bytes
    ([2^152 <= X]), and then [NewSigner] builds a signer for [X]. *)
Theorem Generate_left_aligned
    (k : list byte) (rnd : Entropy) (x y : Z) :
  length k = DSAPrivateKey_size ->
  dsa_GenerateKey rnd param = (x, y, None) ->
  0 <= x < 2 ^ 160 ->
  let xb := BigBytes x in
  Generate dsa_GenerateKey k rnd = (xb ++ skipn (length xb) k, None) /\
  length (fst (Generate dsa_GenerateKey k rnd)) = DSAPrivateKey_size /\
  SetBytes (fst (Generate dsa_GenerateKey k rnd))
  = x * 256 ^ Z.of_nat (20 - length xb) + SetBytes (skipn (length xb) k) /\
  (2 ^ 152 <= x ->
     SetBytes (fst (Generate dsa_GenerateKey k rnd)) = x /\
     exists key,
       signer_k (fst (NewSigner (fst (Generate dsa_GenerateKey k rnd))))
       = Some key /\ X key = x).
Proof.
  intros Hk Hgen Hx xb. unfold DSAPrivateKey_size in *.
  assert (Hxl : (length xb <= 20)%nat).
  { apply BigBytes_length. change (256 ^ Z.of_nat 20) with (2 ^ 160). lia. }
  assert (HG : Generate dsa_GenerateKey k rnd
               = (xb ++ skipn (length xb) k, None)).
  { unfold Generate, generateDSA. rewrite Hgen. cbn [X].
    fold xb. rewrite copy_short by lia. reflexivity. }
  assert (HS : SetBytes (xb ++ skipn (length xb) k)
               = x * 256 ^ Z.of_nat (20 - length xb)
                 + SetBytes (skipn (length xb) k)).
  { rewrite SetBytes_app. unfold len. rewrite length_skipn, Hk.
    unfold xb at 1. rewrite SetBytes_BigBytes by lia. reflexivity. }
  rewrite HG. cbn [fst].
  split; [reflexivity|]. split; [|split; [exact HS|]].
  - rewrite length_app, length_skipn. lia.
  - intros Hfull.
    assert (H20 : length xb = 20%nat).
    { apply BigBytes_length_exact.
      - change (256 ^ Z.of_nat 20) with (256 * 2 ^ 152). lia.
      - change (256 ^ Z.of_nat 20) with (2 ^ 160). lia. }
    assert (Hval : SetBytes (xb ++ skipn (length xb) k) = x).
    { rewrite HS, H20, skipn_all2 by lia. cbn. lia. }
    split; [exact Hval|].
    unfold NewSigner. cbn [fst signer_k]. rewrite Hval.
    pose proof dsap_above_2_160.
    rewrite createDSAPrivkey_lt by lia.
    eexists. split; reflexivity.
Qed.

End Adapter.

End DSAMoreFacts.

(* ------------------------------------------------------------------ *)
(** ** More on KeysAndCert *)

Module KeysAndCertMoreFacts.
Import keys_and_cert GoBytesFacts SliceFacts KeysAndCertFacts examples.

Section Parsing.

Context {ForeignError : Type}.
Context {Certificate : Type}.
Variable zero_Certificate : Certificate.
Variable cert_Type : Certificate -> Z * option ForeignError.
Variable cert_Length : Certificate -> Z * option ForeignError.
Variable ReadCertificate :
  list byte -> Certificate * list byte * option ForeignError.
Context {KeyImpl : Type}.
Context {SigningKeyImpl : Type}.
Variable ConstructPublicKey :
  KeyCertificate -> list byte
  -> option (@PublicKey KeyImpl) * option ForeignError.
Variable ConstructSigningPublicKey :
  KeyCertificate -> list byte
  -> option (@SigningPublicKey SigningKeyImpl) * option ForeignError.

(** X10: the getters hand out a stored key only for a certificate whose
    [Type()] and [Length()] succeed with a length that is not zero; for a
    certificate of length zero, such as a NULL certificate, they return
    nil and no error although a key is stored. *)
Theorem GetPublicKey_needs_payload
    (kac : @KeysAndCert Certificate KeyImpl SigningKeyImpl)
    (k : @PublicKey KeyImpl) (sk : @SigningPublicKey SigningKeyImpl) :
  kac_PublicKey kac = Some k ->
  kac_SigningPublicKey kac = Some sk ->
  let cert := kac_Certificate kac in
  let has_payload :=
    snd (cert_Type cert) = None /\ snd (cert_Length cert) = None /\
    fst (cert_Length cert) <> 0 in
  (GetPublicKey zero_Certificate cert_Type cert_Length kac = (Some k, None)
     <-> has_payload) /\
  (GetSigningPublicKey zero_Certificate cert_Type cert_Length kac
   = (Some sk, None) <-> has_payload) /\
  (snd (cert_Type cert) = None -> cert_Length cert = (0, None) ->
     GetPublicKey zero_Certificate cert_Type cert_Length kac = (None, None) /\
     GetSigningPublicKey zero_Certificate cert_Type cert_Length kac
     = (None, None)).
Proof.
  intros Hk Hsk cert has_payload. unfold has_payload.
  unfold GetPublicKey, GetSigningPublicKey, GetCertificate. fold cert.
  rewrite Hk, Hsk.
  destruct (cert_Type cert) as [ty [te|]]; cbn [snd fst].
  - destruct (cert_Length zero_Certificate) as [zl [ze|]];
      repeat split; try congruence; try tauto; intros (? & _); congruence.
  - destruct (cert_Length cert) as [cl [ce|]]; cbn [snd fst].
    + repeat split; try congruence; try tauto; intros (_ & ? & _); congruence.
    + destruct (cl =? 0) eqn:E; cbn [negb].
      * apply Z.eqb_eq in E. repeat split; try congruence; try tauto;
          intros (_ & _ & ?); congruence.
      * apply Z.eqb_neq in E. repeat split; try congruence; try tauto.
Qed.

(** The buffer [ReadKeys] leaves behind agrees with its input from byte
    256 on, whatever the certificate. *)
Lemma ReadKeys_parts (data : list byte) (cert : Certificate) :
  KEYS_AND_CERT_MIN_SIZE <= len data ->
  0 <= fst (cert_Length cert) ->
  KEYS_AND_CERT_MIN_SIZE + fst (cert_Length cert) < 2 ^ 63 ->
  exists r,
    ReadKeys cert_Type cert_Length ConstructPublicKey
      ConstructSigningPublicKey data cert = ret r /\
    (KEYS_AND_CERT_MIN_SIZE + fst (cert_Length cert) <= len data ->
       remainder r
       = skipn (Z.to_nat (KEYS_AND_CERT_MIN_SIZE + fst (cert_Length cert)))
           data) /\
    (len data < KEYS_AND_CERT_MIN_SIZE + fst (cert_Length cert) ->
       remainder r = [] /\ err r = foreign (snd (cert_Length cert))) /\
    length (data_after r) = length data /\
    skipn 256 (data_after r) = skipn 256 data.
Proof.
  intros Hlen Hcl Hmax.
  destruct (Z.eq_dec (fst (cert_Type cert)) CERT_KEY) as [Hty|Hty].
  - unfold ReadKeys.
    assert (Hge : (len data <? KEYS_AND_CERT_MIN_SIZE) = false)
      by (apply Z.ltb_ge; exact Hlen).
    unfold KEYS_AND_CERT_MIN_SIZE, KEYS_AND_CERT_PUBKEY_SIZE,
      KEYS_AND_CERT_SPK_SIZE in *.
    rewrite Hge.
    assert (Hnz : (len data =? 0) = false) by (apply Z.eqb_neq; lia).
    rewrite Hnz.
    destruct (cert_Type cert) as [cert_type terr]. cbn [fst] in Hty.
    subst cert_type.
    destruct (cert_Length cert) as [cert_len cert_len_err].
    cbn [fst snd] in *.
    rewrite !LengthFacts.int_add_small by lia.
    rewrite Z.eqb_refl, slice_to_ok by lia. cbn [bind].
    destruct (ConstructPublicKey _ _) as [k e]. cbn [bind].
    rewrite slice_ok by lia. cbn [bind].
    destruct (ConstructSigningPublicKey _ _) as [k2 e2]. cbn [bind].
    destruct (cert_len =? 0) eqn:E0.
    + apply Z.eqb_eq in E0. subst cert_len.
      rewrite slice_from_ok by lia. cbn [bind]. eexists.
      split; [reflexivity|]. cbn [remainder err data_after].
      repeat split; try reflexivity; intros; lia.
    + destruct (len data <? 387 + cert_len) eqn:E1.
      * apply Z.ltb_lt in E1.
        rewrite slice_from_ok by lia. cbn [bind]. eexists.
        split; [reflexivity|]. cbn [remainder err data_after].
        repeat split; try reflexivity; intros; lia.
      * apply Z.ltb_ge in E1.
        rewrite slice_ok, slice_from_ok by lia. cbn [bind]. eexists.
        split; [reflexivity|]. cbn [remainder err data_after].
        repeat split; try reflexivity; intros; lia.
  - unfold ReadKeys.
    assert (Hge : (len data <? KEYS_AND_CERT_MIN_SIZE) = false)
      by (apply Z.ltb_ge; exact Hlen).
    unfold KEYS_AND_CERT_MIN_SIZE, KEYS_AND_CERT_PUBKEY_SIZE,
      KEYS_AND_CERT_SPK_SIZE in *.
    rewrite Hge.
    assert (Hnz : (len data =? 0) = false) by (apply Z.eqb_neq; lia).
    rewrite Hnz.
    destruct (cert_Type cert) as [cert_type terr]. cbn [fst] in Hty.
    destruct (cert_Length cert) as [cert_len cert_len_err].
    cbn [fst snd] in *.
    rewrite !LengthFacts.int_add_small by lia.
    apply Z.eqb_neq in Hty. rewrite Hty.
    rewrite copy_at_window by (unfold len in *; rewrite ?make_length; lia).
    cbn [bind]. change (Z.to_nat 0) with 0%nat. cbn [firstn app].
    change (Z.to_nat 256) with 256%nat.
    set (data1 := make 256 ++ skipn 256 data).
    assert (Hl1 : length data1 = length data).
    { unfold data1, len in *. rewrite length_app, make_length, length_skipn.
      lia. }
    assert (Hsk : forall m, (256 <= m)%nat -> skipn m data1 = skipn m data).
    { intros m Hm. unfold data1. rewrite skipn_app, make_length.
      rewrite skipn_all2 by (rewrite make_length; lia). cbn [app].
      rewrite skipn_skipn. f_equal. lia. }
    assert (Hlen1 : len data1 = len data) by (unfold len; lia).
    rewrite slice_ok by lia. cbn [bind].
    destruct (cert_len =? 0) eqn:E0.
    + apply Z.eqb_eq in E0. subst cert_len.
      rewrite slice_from_ok by lia. cbn [bind]. eexists.
      split; [reflexivity|]. cbn [remainder err data_after].
      repeat split; try assumption; try (intros; lia); try (apply Hsk; lia).
      intros _. apply Hsk. lia.
    + destruct (len data <? 387 + cert_len) eqn:E1.
      * apply Z.ltb_lt in E1.
        rewrite slice_from_ok by lia. cbn [bind]. eexists.
        split; [reflexivity|]. cbn [remainder err data_after].
        repeat split; try assumption; try (intros; lia); try (apply Hsk; lia).
      * apply Z.ltb_ge in E1.
        rewrite slice_ok, slice_from_ok by lia. cbn [bind]. eexists.
        split; [reflexivity|]. cbn [remainder err data_after].
        repeat split; try assumption; try (intros; lia); try (apply Hsk; lia).
        intros _. apply Hsk. lia.
Qed.

(** A certificate length that carries [387 + cert_len] past the largest
    [int]: the sum is negative, the size check passes, and the slice
    expression for the payload panics. *)
Lemma ReadKeys_wraps (data : list byte) (cert : Certificate) :
  KEYS_AND_CERT_MIN_SIZE <= len data ->
  fst (cert_Length cert) < 2 ^ 63 ->
  2 ^ 63 <= KEYS_AND_CERT_MIN_SIZE + fst (cert_Length cert) ->
  ReadKeys cert_Type cert_Length ConstructPublicKey
    ConstructSigningPublicKey data cert = panic.
Proof.
  intros Hlen Hint Hwrap. unfold ReadKeys.
  assert (Hge : (len data <? KEYS_AND_CERT_MIN_SIZE) = false)
    by (apply Z.ltb_ge; exact Hlen).
  unfold KEYS_AND_CERT_MIN_SIZE, KEYS_AND_CERT_PUBKEY_SIZE,
    KEYS_AND_CERT_SPK_SIZE in *.
  rewrite Hge.
  assert (Hnz : (len data =? 0) = false) by (apply Z.eqb_neq; lia).
  rewrite Hnz.
  destruct (cert_Type cert) as [cert_type terr].
  destruct (cert_Length cert) as [cert_len cert_len_err].
  cbn [fst snd] in *.
  assert (Hsum : int_add 387 cert_len = 387 + cert_len - 2 ^ 64)
    by (apply LengthFacts.int_add_wrap; pow_lia).
  assert (Hnegative : 387 + cert_len - 2 ^ 64 < 0) by pow_lia.
  rewrite !Hsum.
  assert (E0 : (cert_len =? 0) = false) by (apply Z.eqb_neq; pow_lia).
  assert (E1 : (len data <? 387 + cert_len - 2 ^ 64) = false)
    by (apply Z.ltb_ge; lia).
  destruct (cert_type =? CERT_KEY).
  - rewrite slice_to_ok by lia. cbn [bind].
    destruct (ConstructPublicKey _ _) as [k e]. cbn [bind].
    rewrite slice_ok by lia. cbn [bind].
    destruct (ConstructSigningPublicKey _ _) as [k2 e2]. cbn [bind].
    rewrite E0, E1, slice_reversed by lia. reflexivity.
  - rewrite copy_at_window by (unfold len in *; rewrite ?make_length; lia).
    cbn [bind]. change (Z.to_nat 0) with 0%nat. cbn [firstn app].
    change (Z.to_nat 256) with 256%nat.
    set (data1 := make 256 ++ skipn 256 data).
    assert (Hlen1 : len data1 = len data).
    { unfold data1, len in *. rewrite length_app, make_length, length_skipn.
      lia. }
    rewrite slice_ok by lia. cbn [bind].
    rewrite E0, E1, slice_reversed by lia. reflexivity.
Qed.

(** X11: on at least 387 bytes and a certificate of non-negative length
    [n], [ReadKeys] returns without panic as long as [387 + n] is still
    an [int].  When the input holds the [n] payload bytes the remainder is
    the input from byte [387 + n] on, so lengths add up; when it does not,
    the remainder is nil and the error is the one [Length()] gave, which
    may be nil.  The caller's buffer keeps its length and its bytes from
    256 on.  For an [n] so large that [387 + n] wraps around, [ReadKeys]
    panics. *)
Theorem ReadKeys_remainder (data : list byte) (cert : Certificate) :
  KEYS_AND_CERT_MIN_SIZE <= len data ->
  0 <= fst (cert_Length cert) < 2 ^ 63 ->
  (KEYS_AND_CERT_MIN_SIZE + fst (cert_Length cert) < 2 ^ 63 ->
   exists r,
     ReadKeys cert_Type cert_Length ConstructPublicKey
       ConstructSigningPublicKey data cert = ret r /\
     (KEYS_AND_CERT_MIN_SIZE + fst (cert_Length cert) <= len data ->
        remainder r
        = skipn (Z.to_nat (KEYS_AND_CERT_MIN_SIZE + fst (cert_Length cert)))
            data /\
        len (remainder r)
        = len data - KEYS_AND_CERT_MIN_SIZE - fst (cert_Length cert)) /\
     (len data < KEYS_AND_CERT_MIN_SIZE + fst (cert_Length cert) ->
        remainder r = [] /\ err r = foreign (snd (cert_Length cert))) /\
     length (data_after r) = length data /\
     skipn 256 (data_after r) = skipn 256 data) /\
  (2 ^ 63 <= KEYS_AND_CERT_MIN_SIZE + fst (cert_Length cert) ->
   ReadKeys cert_Type cert_Length ConstructPublicKey
     ConstructSigningPublicKey data cert = panic).
Proof.
  intros Hlen [Hcl Hint]. split.
  - intros Hmax.
    destruct (ReadKeys_parts data cert Hlen Hcl Hmax)
      as (r & Hr & Hfull & Hshort & Hl & Hs).
    exists r. split; [exact Hr|]. split; [|auto].
    intros Hfit. specialize (Hfull Hfit). split; [exact Hfull|].
    rewrite Hfull. unfold len in *. rewrite length_skipn.
    unfold KEYS_AND_CERT_MIN_SIZE in *. lia.
  - intros Hwrap. now apply ReadKeys_wraps.
Qed.

(** X14: [ReadKeysAndCert] never hands back the certificate it read.
    For a zero certificate whose length is not negative and, added to
    387, still an [int], it returns on every input, and in the result the
    certificate is the zero value; a result that carries an error carries
    the zero [KeysAndCert], never a partly filled one. *)
Theorem ReadKeysAndCert_certificate (data : list byte) :
  0 <= fst (cert_Length zero_Certificate) ->
  KEYS_AND_CERT_MIN_SIZE + fst (cert_Length zero_Certificate) < 2 ^ 63 ->
  exists r : @ReadKeysAndCert_result ForeignError Certificate KeyImpl
               SigningKeyImpl,
    ReadKeysAndCert zero_Certificate cert_Type cert_Length ReadCertificate
      ConstructPublicKey ConstructSigningPublicKey data = ret r /\
    kac_Certificate (keys_and_cert r) = zero_Certificate /\
    (kac_err r <> None ->
     keys_and_cert r = zero_KeysAndCert zero_Certificate).
Proof.
  intros Hz Hmax. unfold ReadKeysAndCert.
  destruct (len data <? KEYS_AND_CERT_MIN_SIZE) eqn:E.
  - eexists. split; [reflexivity|]. cbn. split; [reflexivity|auto].
  - apply Z.ltb_ge in E.
    rewrite slice_to_ok by (unfold KEYS_AND_CERT_MIN_SIZE in E |- *; lia).
    cbn [bind].
    destruct (ReadCertificate _) as [[c rest] [e|]].
    + eexists. split; [reflexivity|]. cbn. split; [reflexivity|auto].
    + assert (Hg : fst (GetCertificate zero_Certificate cert_Type
                          (zero_KeysAndCert (KeyImpl := KeyImpl)
                             (SigningKeyImpl := SigningKeyImpl)
                             zero_Certificate))
                   = zero_Certificate).
      { unfold GetCertificate. cbn [kac_Certificate zero_KeysAndCert].
        destruct (cert_Type zero_Certificate) as [ty [te|]]; reflexivity. }
      destruct (GetCertificate zero_Certificate cert_Type _) as [cert gerr].
      cbn [fst] in Hg. subst cert.
      destruct (ReadKeys_parts data zero_Certificate E Hz Hmax)
        as (rk & Hrk & _).
      rewrite Hrk. cbn [bind].
      destruct (err rk) as [e|].
      * eexists. split; [reflexivity|]. cbn. split; [reflexivity|auto].
      * eexists. split; [reflexivity|]. cbn. split; [reflexivity|congruence].
Qed.

End Parsing.

End KeysAndCertMoreFacts.

(* ------------------------------------------------------------------ *)
(** ** More on the key obfuscation of the NTCP2 session *)

Module ObfuscationFacts.
Import ntcp cipher SliceFacts CipherFacts NTCPFacts.

Lemma XORBytes_zeros (x : list byte) (n : nat) :
  (length x <= n)%nat -> XORBytes x (make n) = x.
Proof.
  revert n. induction x as [|a x IH]; intros n Hn; [reflexivity|].
  destruct n as [|n]; cbn [length] in Hn; [lia|].
  cbn [make repeat XORBytes]. fold (make n). rewrite IH by lia. f_equal.
  apply GoBytesFacts.Z_of_byte_inj. rewrite Z_of_xor_byte.
  change (Z_of_byte x00) with 0. apply Z.lxor_0_r.
Qed.

Section CBC.

Variable Encrypt : list byte -> list byte -> list byte.
Variable Decrypt : list byte -> list byte -> list byte.
Variable key : list byte.

Hypothesis Decrypt_length :
  forall b, length b = 16%nat -> length (Decrypt key b) = 16%nat.
Hypothesis Encrypt_Decrypt :
  forall b, length b = 16%nat -> Encrypt key (Decrypt key b) = b.

Lemma decrypt_blocks_whole (n : nat) :
  forall iv src, length iv = 16%nat -> length src = (16 * n)%nat ->
  length (decrypt_blocks Decrypt n key iv src) = (16 * n)%nat.
Proof.
  induction n as [|n IH]; intros iv src Hiv Hsrc; [reflexivity|].
  cbn [decrypt_blocks].
  assert (Hc : length (firstn 16 src) = 16%nat)
    by (rewrite length_firstn; lia).
  assert (Hs : length (skipn 16 src) = (16 * n)%nat)
    by (rewrite length_skipn; lia).
  rewrite length_app, XORBytes_length, (Decrypt_length _ Hc).
  rewrite (IH _ _ Hc Hs). lia.
Qed.

(** CBC encryption undoes CBC decryption under the same key and IV. *)
Lemma encrypt_decrypt_blocks (n : nat) :
  forall iv src, length iv = 16%nat -> length src = (16 * n)%nat ->
  encrypt_blocks Encrypt n key iv (decrypt_blocks Decrypt n key iv src) = src.
Proof.
  induction n as [|n IH]; intros iv src Hiv Hsrc.
  - destruct src; [reflexivity|discriminate].
  - cbn [encrypt_blocks decrypt_blocks].
    set (c := firstn 16 src).
    assert (Hc : length c = 16%nat) by (unfold c; rewrite length_firstn; lia).
    set (p := XORBytes (Decrypt key c) iv).
    assert (Hp : length p = 16%nat)
      by (unfold p; rewrite XORBytes_length, Decrypt_length; lia).
    rewrite firstn_app, firstn_all2 by lia.
    rewrite Hp, Nat.sub_diag, firstn_O, app_nil_r.
    rewrite skipn_app, skipn_all2 by lia.
    rewrite Hp, Nat.sub_diag, skipn_O. cbn [app].
    unfold p. rewrite XORBytes_cancel by (rewrite Decrypt_length; lia).
    rewrite Encrypt_Decrypt by exact Hc.
    rewrite IH.
    + apply firstn_skipn.
    + exact Hc.
    + rewrite length_skipn. lia.
Qed.

End CBC.

Lemma whole_blocks_guard (n : nat) :
  Z.of_nat (16 * n) mod 16 = 0 /\ Z.to_nat (Z.of_nat (16 * n) / 16) = n.
Proof.
  rewrite Nat2Z.inj_mul, Z.mul_comm. split.
  - apply Z.mod_mul. lia.
  - rewrite Z.div_mul by lia. lia.
Qed.

Section Session.

Context {ForeignError : Type}.
Context {RouterAddress : Type}.
Variable TransportStyle_Data : RouterAddress -> string * option ForeignError.
Variable StaticKey : RouterAddress -> list byte * option ForeignError.
Variable aes_Encrypt : list byte -> list byte -> list byte.
Variable aes_Decrypt : list byte -> list byte -> list byte.

Lemma aes_NewCipher_32 (static : list byte) :
  length static = 32%nat ->
  aes_NewCipher (ForeignError := ForeignError) static = (Some static, None).
Proof. intros H. unfold aes_NewCipher, len. rewrite H. reflexivity. Qed.

Lemma ObfuscateEphemeral_blocks
    (s : NTCP2Session) (static key : list byte) (n : nat) :
  (forall b, length b = 16%nat -> length (aes_Encrypt static b) = 16%nat) ->
  peerStaticKey TransportStyle_Data StaticKey s = (static, None) ->
  length static = 32%nat ->
  length key = (16 * n)%nat ->
  ObfuscateEphemeral TransportStyle_Data StaticKey aes_Encrypt s key
  = ret (encrypt_blocks aes_Encrypt n static (make 16) key, None).
Proof.
  intros HE Hstatic Hlen Hkey. unfold ObfuscateEphemeral.
  rewrite Hstatic, aes_NewCipher_32 by exact Hlen.
  change (Z.to_nat BlockSize) with 16%nat.
  rewrite (CBCEncrypter_whole_blocks aes_Encrypt static HE n) by assumption.
  reflexivity.
Qed.

Lemma DeobfuscateEphemeral_blocks
    (s : NTCP2Session) (static obfuscated : list byte) (n : nat) :
  (forall b, length b = 16%nat -> length (aes_Decrypt static b) = 16%nat) ->
  peerStaticKey TransportStyle_Data StaticKey s = (static, None) ->
  length static = 32%nat ->
  length obfuscated = (16 * n)%nat ->
  DeobfuscateEphemeral TransportStyle_Data StaticKey aes_Decrypt s obfuscated
  = ret (decrypt_blocks aes_Decrypt n static (make 16) obfuscated, None).
Proof.
  intros HD Hstatic Hlen Hob. unfold DeobfuscateEphemeral.
  rewrite Hstatic, aes_NewCipher_32 by exact Hlen.
  change (Z.to_nat BlockSize) with 16%nat.
  unfold CBCDecrypter_CryptBlocks, BlockSize, len.
  rewrite !make_length, Hob.
  destruct (whole_blocks_guard n) as [-> ->].
  change (Z.of_nat 16 =? 16) with true. cbn [negb Z.eqb].
  rewrite Z.ltb_irrefl. cbn [bind].
  rewrite copy_full; [reflexivity|].
  rewrite make_length, (decrypt_blocks_whole aes_Decrypt static HD);
    auto using make_length.
Qed.

(** [DeobfuscateEphemeral] on the blocks [ObfuscateEphemeral] made. *)
Lemma DeobfuscateEphemeral_of_encrypted
    (s : NTCP2Session) (static key : list byte) (n : nat) :
  (forall b, length b = 16%nat -> length (aes_Encrypt static b) = 16%nat) ->
  (forall b, length b = 16%nat ->
             aes_Decrypt static (aes_Encrypt static b) = b) ->
  peerStaticKey TransportStyle_Data StaticKey s = (static, None) ->
  length static = 32%nat ->
  length key = (16 * n)%nat ->
  DeobfuscateEphemeral TransportStyle_Data StaticKey aes_Decrypt s
    (encrypt_blocks aes_Encrypt n static (make 16) key)
  = ret (key, None).
Proof.
  intros HE HDE Hstatic Hlen Hkey.
  unfold DeobfuscateEphemeral.
  rewrite Hstatic, aes_NewCipher_32 by exact Hlen.
  change (Z.to_nat BlockSize) with 16%nat.
  pose proof (CBCDecrypter_of_encrypted aes_Encrypt aes_Decrypt static
                HE HDE n key Hkey) as HD.
  cbv zeta in HD. rewrite HD. reflexivity.
Qed.

(** X15: for an input of any whole number of 16-byte blocks,
    [ObfuscateEphemeral] returns as many bytes as it was given, and
    [DeobfuscateEphemeral] of them is the input. *)
Theorem Deobfuscate_Obfuscate_blocks
    (s : NTCP2Session) (static key : list byte) (n : nat) :
  (forall b, length b = 16%nat -> length (aes_Encrypt static b) = 16%nat) ->
  (forall b, length b = 16%nat ->
             aes_Decrypt static (aes_Encrypt static b) = b) ->
  peerStaticKey TransportStyle_Data StaticKey s = (static, None) ->
  length static = 32%nat ->
  length key = (16 * n)%nat ->
  exists obfuscated,
    ObfuscateEphemeral TransportStyle_Data StaticKey aes_Encrypt s key
    = ret (obfuscated, None) /\
    length obfuscated = length key /\
    DeobfuscateEphemeral TransportStyle_Data StaticKey aes_Decrypt s obfuscated
    = ret (key, None).
Proof.
  intros HE HDE Hstatic Hlen Hkey.
  exists (encrypt_blocks aes_Encrypt n static (make 16) key).
  assert (Hc : length (encrypt_blocks aes_Encrypt n static (make 16) key)
               = (16 * n)%nat)
    by (apply (encrypt_blocks_length aes_Encrypt static HE n);
        auto using make_length).
  split; [now apply ObfuscateEphemeral_blocks|]. split; [lia|].
  now apply DeobfuscateEphemeral_of_encrypted.
Qed.

(** X16: the other way round: for any whole number of blocks,
    [ObfuscateEphemeral] of the result of [DeobfuscateEphemeral] is the
    input, when encryption undoes decryption under the key. *)
Theorem Obfuscate_Deobfuscate_blocks
    (s : NTCP2Session) (static obfuscated : list byte) (n : nat) :
  (forall b, length b = 16%nat -> length (aes_Decrypt static b) = 16%nat) ->
  (forall b, length b = 16%nat -> length (aes_Encrypt static b) = 16%nat) ->
  (forall b, length b = 16%nat ->
             aes_Encrypt static (aes_Decrypt static b) = b) ->
  peerStaticKey TransportStyle_Data StaticKey s = (static, None) ->
  length static = 32%nat ->
  length obfuscated = (16 * n)%nat ->
  exists key,
    DeobfuscateEphemeral TransportStyle_Data StaticKey aes_Decrypt s obfuscated
    = ret (key, None) /\
    length key = length obfuscated /\
    ObfuscateEphemeral TransportStyle_Data StaticKey aes_Encrypt s key
    = ret (obfuscated, None).
Proof.
  intros HD HE HED Hstatic Hlen Hob.
  exists (decrypt_blocks aes_Decrypt n static (make 16) obfuscated).
  assert (Hk : length (decrypt_blocks aes_Decrypt n static (make 16) obfuscated)
               = (16 * n)%nat)
    by (apply (decrypt_blocks_whole aes_Decrypt static HD n);
        auto using make_length).
  split; [now apply DeobfuscateEphemeral_blocks|]. split; [lia|].
  rewrite (ObfuscateEphemeral_blocks s static _ n HE Hstatic Hlen Hk).
  rewrite (encrypt_decrypt_blocks aes_Encrypt aes_Decrypt static HD HED n)
    by auto using make_length.
  reflexivity.
Qed.

(** X17: for a descriptor the transport finds incompatible (no address of
    the "NTCP2" style), both operations return no bytes and the error
    "Remote static key error" on every input; nothing is encrypted and
    nothing panics. *)
Theorem Obfuscate_without_NTCP2_address (s : NTCP2Session) (input : list byte) :
  Compatible TransportStyle_Data (session_RouterInfo s) = false ->
  ObfuscateEphemeral TransportStyle_Data StaticKey aes_Encrypt s input
  = ret ([], Some ErrRemoteStaticKey) /\
  DeobfuscateEphemeral TransportStyle_Data StaticKey aes_Decrypt s input
  = ret ([], Some ErrRemoteStaticKey).
Proof.
  intros Hc.
  assert (Hkey : peerStaticKey TransportStyle_Data StaticKey s
                 = (make 32, Some ErrRemoteStaticKey)).
  { unfold peerStaticKey, Compatible in *.
    destruct (first_match_split TransportStyle_Data
                (RouterAddresses (session_RouterInfo s)))
      as [Hnone|(pre & addr & post & E & Hpre & Haddr)].
    - now apply loops_no_match.
    - rewrite E in Hc.
      destruct (loops_first_match TransportStyle_Data StaticKey pre addr post
                  Hpre Haddr) as [_ Ht].
      congruence. }
  unfold ObfuscateEphemeral, DeobfuscateEphemeral. rewrite Hkey.
  split; reflexivity.
Qed.

(** X18: with a 32-byte static key at hand, an input that is not a whole
    number of 16-byte blocks makes both operations panic (the block mode
    refuses it); no error value is returned. *)
Theorem Obfuscate_partial_block_panics
    (s : NTCP2Session) (static input : list byte) :
  peerStaticKey TransportStyle_Data StaticKey s = (static, None) ->
  length static = 32%nat ->
  len input mod 16 <> 0 ->
  ObfuscateEphemeral TransportStyle_Data StaticKey aes_Encrypt s input = panic /\
  DeobfuscateEphemeral TransportStyle_Data StaticKey aes_Decrypt s input = panic.
Proof.
  intros Hstatic Hlen Hmod.
  unfold ObfuscateEphemeral, DeobfuscateEphemeral.
  rewrite Hstatic, aes_NewCipher_32 by exact Hlen.
  unfold CBCEncrypter_CryptBlocks, CBCDecrypter_CryptBlocks, BlockSize.
  change (len (make (Z.to_nat 16)) =? 16) with true. cbn [negb].
  apply Z.eqb_neq in Hmod. rewrite Hmod. cbn [negb bind].
  split; reflexivity.
Qed.

(** X19: with the zero IV the first 16 bytes of the obfuscated key are
    the plain encryption of the first 16 bytes of the key, and the second
    16 bytes encrypt the second half xored with that first ciphertext
    block. *)
Theorem Obfuscate_chaining
    (s : NTCP2Session) (static key : list byte) :
  (forall b, length b = 16%nat -> length (aes_Encrypt static b) = 16%nat) ->
  peerStaticKey TransportStyle_Data StaticKey s = (static, None) ->
  length static = 32%nat ->
  length key = 32%nat ->
  let c1 := aes_Encrypt static (firstn 16 key) in
  let c2 := aes_Encrypt static (XORBytes (skipn 16 key) c1) in
  ObfuscateEphemeral TransportStyle_Data StaticKey aes_Encrypt s key
  = ret (c1 ++ c2, None).
Proof.
  intros HE Hstatic Hlen Hkey c1 c2.
  rewrite (ObfuscateEphemeral_blocks s static key 2 HE Hstatic Hlen Hkey).
  cbn [encrypt_blocks].
  rewrite XORBytes_zeros by (rewrite length_firstn; lia).
  fold c1. rewrite app_nil_r.
  assert (Hs : firstn 16 (skipn 16 key) = skipn 16 key)
    by (apply firstn_all2; rewrite length_skipn; lia).
  rewrite Hs. reflexivity.
Qed.

(** X20: the first address of the "NTCP2" style decides: when its
    [StaticKey()] fails, that error is what [ObfuscateEphemeral] and
    [DeobfuscateEphemeral] return, on every input; later addresses are not
    tried. *)
Theorem Obfuscate_first_address_key_error
    (s : NTCP2Session) (pre post : list RouterAddress) (addr : RouterAddress)
    (e : ForeignError) (input : list byte) :
  RouterAddresses (session_RouterInfo s) = pre ++ addr :: post ->
  (forall a, In a pre -> ~ has_NTCP2_style TransportStyle_Data a) ->
  has_NTCP2_style TransportStyle_Data addr ->
  snd (StaticKey addr) = Some e ->
  ObfuscateEphemeral TransportStyle_Data StaticKey aes_Encrypt s input
  = ret ([], Some (ErrForeign e)) /\
  DeobfuscateEphemeral TransportStyle_Data StaticKey aes_Decrypt s input
  = ret ([], Some (ErrForeign e)).
Proof.
  intros Haddrs Hpre Haddr Herr.
  destruct (loops_first_match TransportStyle_Data StaticKey pre addr post
              Hpre Haddr) as [Hk _].
  unfold ObfuscateEphemeral, DeobfuscateEphemeral, peerStaticKey.
  rewrite Haddrs, Hk, Herr. split; reflexivity.
Qed.

End Session.

End ObfuscationFacts.

(* ------------------------------------------------------------------ *)
(** ** The message processor and the transport *)

Module ProcessorFacts.
Import session_request processor ntcp SliceFacts CipherFacts
  ObfuscationFacts IntegerFacts.

Lemma copy_keeps_length {A} (dst src : list A) :
  length (copy dst src) = length dst.
Proof.
  unfold copy. rewrite length_app, length_firstn, length_skipn. lia.
Qed.

Section Processor.

Context {ForeignError : Type}.
Context {RouterAddress : Type}.
Context {Time : Type}.
Context {Date : Type}.
Context {OtherMessage : Type}.
Variable DateFromTime : Time -> option Date * option ForeignError.
Variable TransportStyle_Data : RouterAddress -> string * option ForeignError.
Variable StaticKey : RouterAddress -> list byte * option ForeignError.
Variable aes_Encrypt : list byte -> list byte -> list byte.
Variable aes_Decrypt : list byte -> list byte -> list byte.

(** The message [CreateMessage] builds when the random source and the
    clock deliver. *)
Lemma CreateMessage_returns
    (env : @Environment ForeignError Time) (n : Z) (timestamp : option Date) :
  snd (rand_Read env) = None ->
  rand_Int env = (n, None) ->
  0 <= n < 16 ->
  DateFromTime (GetCurrentTime env) = (timestamp, None) ->
  CreateMessage DateFromTime env
  = ret (Some {| XContent := copy (make 32) (fst (rand_Read env));
                 Options :=
                   {| NetworkID := Some [x02];
                      ProtocolVersion := Some [x02];
                      PaddingLength := Some [byte_of_Z n];
                      Message3Part2Length := None;
                      Timestamp := timestamp |};
                 Padding := make (Z.to_nat n) |}, None).
Proof.
  intros Hread Hint Hn Hdate. unfold CreateMessage.
  rewrite Hread, Hint.
  assert (Hneg : (n <? 0) = false) by (apply Z.ltb_ge; lia).
  rewrite Hneg.
  change (NewIntegerFromInt (E := ForeignError) 2 1)
    with (ret (A := option Integer * option ForeignError) (Some [x02], None)).
  cbn [bind].
  assert (Hpad : len (make (Z.to_nat n)) = n)
    by (unfold len; rewrite make_length; lia).
  rewrite Hpad.
  change (NewInteger (E := ForeignError) [byte_of_Z n] 1)
    with (ret (A := option Integer * list byte * option ForeignError)
            (Some [byte_of_Z n], [], None)).
  cbn [bind]. rewrite Hdate. reflexivity.
Qed.

(** X21: the padding length a new message declares is the length of the
    padding it carries: the one-byte field decodes, by [Integer], to the
    number of padding bytes, which is below 16; the padding is all zeros
    and is what [GetPadding] hands back. *)
Theorem CreateMessage_padding_declared
    (env : @Environment ForeignError Time) (n : Z) (timestamp : option Date) :
  snd (rand_Read env) = None ->
  rand_Int env = (n, None) ->
  0 <= n < 16 ->
  DateFromTime (GetCurrentTime env) = (timestamp, None) ->
  exists m paddingLen,
    CreateMessage DateFromTime env = ret (Some m, None) /\
    PaddingLength (Options m) = Some paddingLen /\
    common.Integer paddingLen = ret (len (Padding m)) /\
    len (Padding m) = n /\
    Padding m = make (Z.to_nat n) /\
    GetPadding (OtherMessage := OtherMessage) (SessionRequestMessage m)
    = Padding m.
Proof.
  intros Hread Hint Hn Hdate.
  eexists. exists [byte_of_Z n].
  split; [apply (CreateMessage_returns env n timestamp); assumption|].
  cbn [Options PaddingLength Padding GetPadding].
  assert (Hpad : len (make (Z.to_nat n)) = n)
    by (unfold len; rewrite make_length; lia).
  rewrite Hpad. repeat split.
  rewrite Integer_short by (cbn; lia). f_equal.
  unfold SetBytes. cbn [fold_left].
  rewrite GoBytesFacts.Z_of_byte_of_Z, Z.mod_small by lia. lia.
Qed.

(** X22: the key of a new message survives the wire: [ObfuscateKey] on the
    message [CreateMessage] built returns 32 bytes whose
    [DeobfuscateEphemeral] is the 32-byte key of the message; on a message
    of another type [ObfuscateKey] returns the error "expected
    SessionRequest message" and [GetPadding] returns nil. *)
Theorem ObfuscateKey_of_created_message
    (env : @Environment ForeignError Time) (n : Z) (timestamp : option Date)
    (s : NTCP2Session) (static : list byte) :
  snd (rand_Read env) = None ->
  rand_Int env = (n, None) ->
  0 <= n < 16 ->
  DateFromTime (GetCurrentTime env) = (timestamp, None) ->
  (forall b, length b = 16%nat -> length (aes_Encrypt static b) = 16%nat) ->
  (forall b, length b = 16%nat ->
             aes_Decrypt static (aes_Encrypt static b) = b) ->
  peerStaticKey TransportStyle_Data StaticKey s = (static, None) ->
  length static = 32%nat ->
  (exists m obfuscated,
     CreateMessage DateFromTime env = ret (Some m, None) /\
     length (XContent m) = 32%nat /\
     ObfuscateKey (OtherMessage := OtherMessage) TransportStyle_Data StaticKey
       aes_Encrypt s (SessionRequestMessage m) = ret (obfuscated, None) /\
     length obfuscated = 32%nat /\
     DeobfuscateEphemeral TransportStyle_Data StaticKey aes_Decrypt s obfuscated
     = ret (XContent m, None)) /\
  (forall other : OtherMessage,
     ObfuscateKey (Date := Date) TransportStyle_Data StaticKey aes_Encrypt s
       (AnotherMessage other) = ret ([], Some ErrExpectedSessionRequest) /\
     GetPadding (Date := Date) (AnotherMessage other) = []).
Proof.
  intros Hread Hint Hn Hdate HE HDE Hstatic Hlen.
  split; [|intros other; split; reflexivity].
  set (key := copy (make 32) (fst (rand_Read env))).
  assert (Hkey : length key = (16 * 2)%nat)
    by (unfold key; rewrite copy_keeps_length, make_length; reflexivity).
  set (obfuscated := cipher.encrypt_blocks aes_Encrypt 2 static (make 16) key).
  assert (Hob : ObfuscateEphemeral TransportStyle_Data StaticKey aes_Encrypt
                  s key = ret (obfuscated, None))
    by (now apply ObfuscateEphemeral_blocks).
  assert (Hoblen : length obfuscated = (16 * 2)%nat)
    by (apply (encrypt_blocks_length aes_Encrypt static HE 2);
        auto using make_length).
  assert (Hde : DeobfuscateEphemeral TransportStyle_Data StaticKey
                  aes_Decrypt s obfuscated = ret (key, None))
    by (now apply DeobfuscateEphemeral_of_encrypted).
  eexists. exists obfuscated.
  split; [apply (CreateMessage_returns env n timestamp); assumption|].
  cbn [XContent]. fold key.
  split; [exact Hkey|]. split; [|split; [lia|exact Hde]].
  unfold ObfuscateKey. cbn [XContent]. fold key. rewrite Hob. reflexivity.
Qed.

End Processor.

End ProcessorFacts.

Module TransportFacts.
Import ntcp transport.

Section Transport.

Context {ForeignError : Type}.
Context {RouterAddress : Type}.
Context {OtherAddr : Type}.
Context {Session : Type}.
Variable TransportStyle_Data : RouterAddress -> string * option ForeignError.
Variable NoiseTransport_Accept :
  option (@Conn RouterAddress OtherAddr) * option ForeignError.
Variable NewNTCP2Session :
  @RouterInfo RouterAddress -> option Session * option ForeignError.

(** X23: [Accept] never hands back a session: whenever it returns, it
    returns nil and an error.  The local address of the accepted
    connection has to be a [*RouterInfo] to pass the first check, and is
    then asserted to be a [RouterInfo] value, which it is not: on a
    connection whose address is the pointer to a compatible descriptor
    [Accept] panics, before [NewNTCP2Session] is called; for an
    incompatible one it returns the "not compatible" error. *)
Theorem Accept_never_returns_session :
  (forall res,
     Accept TransportStyle_Data NoiseTransport_Accept NewNTCP2Session = ret res ->
     fst res = None /\ snd res <> None) /\
  (forall conn routerInfo,
     NoiseTransport_Accept = (Some conn, None) ->
     LocalAddr conn = AddrRouterInfoPtr (Some routerInfo) ->
     (Compatible TransportStyle_Data routerInfo = true ->
        Accept TransportStyle_Data NoiseTransport_Accept NewNTCP2Session
        = panic) /\
     (Compatible TransportStyle_Data routerInfo = false ->
        Accept TransportStyle_Data NoiseTransport_Accept NewNTCP2Session
        = ret (None, Some ErrNotCompatible))) /\
  (forall conn,
     NoiseTransport_Accept = (Some conn, None) ->
     (forall p, LocalAddr conn <> AddrRouterInfoPtr p) ->
     Accept TransportStyle_Data NoiseTransport_Accept NewNTCP2Session
     = ret (None, Some ErrNotRouterAddress)).
Proof.
  unfold Accept.
  destruct NoiseTransport_Accept as [conn [e|]].
  - split; [|split].
    + intros res H. injection H as <-. cbn. split; congruence.
    + intros c ri H. discriminate.
    + intros c H. discriminate.
  - destruct conn as [conn|].
    + destruct (LocalAddr conn) as [|[ri|]|ri|a] eqn:Eaddr;
        cbn [assert_RouterInfoPtr negb assert_RouterInfo bind].
      * split; [|split].
        -- intros res H. injection H as <-. cbn. split; congruence.
        -- intros c ri [= <-] Hc. rewrite Eaddr in Hc. discriminate.
        -- intros c [= <-] _. reflexivity.
      * destruct (Compatible TransportStyle_Data ri) eqn:Ec; cbn [negb].
        -- split; [|split].
           ++ intros res H. discriminate.
           ++ intros c ri' [= <-] Hc. rewrite Eaddr in Hc.
              injection Hc as <-. rewrite Ec. split; [reflexivity|discriminate].
           ++ intros c [= <-] Hn. exfalso. apply (Hn (Some ri)). exact Eaddr.
        -- split; [|split].
           ++ intros res H. injection H as <-. cbn. split; congruence.
           ++ intros c ri' [= <-] Hc. rewrite Eaddr in Hc.
              injection Hc as <-. rewrite Ec. split; [discriminate|reflexivity].
           ++ intros c [= <-] Hn. exfalso. apply (Hn (Some ri)). exact Eaddr.
      * split; [|split].
        -- intros res H. discriminate.
        -- intros c ri' [= <-] Hc. rewrite Eaddr in Hc. discriminate.
        -- intros c [= <-] Hn. exfalso. apply (Hn None). exact Eaddr.
      * split; [|split].
        -- intros res H. injection H as <-. cbn. split; congruence.
        -- intros c ri' [= <-] Hc. rewrite Eaddr in Hc. discriminate.
        -- intros c [= <-] _. reflexivity.
      * split; [|split].
        -- intros res H. injection H as <-. cbn. split; congruence.
        -- intros c ri' [= <-] Hc. rewrite Eaddr in Hc. discriminate.
        -- intros c [= <-] _. reflexivity.
    + split; [|split].
      * intros res H. discriminate.
      * intros c ri H. discriminate.
      * intros c H. discriminate.
Qed.

End Transport.

End TransportFacts.

(* ------------------------------------------------------------------ *)
(** ** The theorems above at concrete inputs *)

Module MoreWitnesses.
Import examples SliceFacts CipherFacts Witnesses.

Lemma Verify_Sign_witness :
  exists sig,
    dsa.Sign example_sha1 example_fixed_Sign example_key_signer tt [x61; x62]
    = ret (sig, None) /\
    dsa.Verify example_sha1 example_fixed_Verify example_verifier [x61; x62] sig
    = ret (if example_fixed_Verify (dsa.verifier_k example_verifier)
                (example_sha1 [x61; x62]) 258 7
           then None else Some dsa.ErrInvalidSignature) /\
    dsa.Verify example_sha1 example_fixed_Verify example_verifier [x61; x62] sig
    <> ret (Some dsa.ErrBadSignatureSize).
Proof.
  apply (DSAMoreFacts.Verify_Sign example_sha1 example_fixed_Verify
           example_fixed_Sign example_key_signer example_verifier tt
           [x61; x62] example_privkey 258 7).
  - reflexivity.
  - reflexivity.
  - vm_compute. split; congruence.
  - vm_compute. split; congruence.
Defined.

Lemma SignHash_of_NewSigner_witness :
  snd (dsa.NewSigner example_private_key_bytes) = None /\
  exists key,
    dsa.signer_k (fst (dsa.NewSigner example_private_key_bytes)) = Some key /\
    dsa.X key = SetBytes example_private_key_bytes /\
    dsa.pub_Parameters (dsa.priv_PublicKey key) = dsa.param /\
    forall rnd h e,
      snd (example_fixed_Sign rnd key h) = Some e ->
      dsa.SignHash example_fixed_Sign
        (fst (dsa.NewSigner example_private_key_bytes)) rnd h
      = ret ([], Some e).
Proof.
  exact (DSAMoreFacts.SignHash_of_NewSigner example_fixed_Sign
           example_private_key_bytes eq_refl).
Defined.

Lemma Generate_left_aligned_witness :
  let k := repeat x00 20 in
  let x := 2 ^ 159 + 5 in
  let xb := BigBytes x in
  dsa.Generate example_GenerateKey k tt = (xb ++ skipn (length xb) k, None) /\
  length (fst (dsa.Generate example_GenerateKey k tt)) = dsa.DSAPrivateKey_size /\
  SetBytes (fst (dsa.Generate example_GenerateKey k tt))
  = x * 256 ^ Z.of_nat (20 - length xb) + SetBytes (skipn (length xb) k) /\
  (2 ^ 152 <= x ->
     SetBytes (fst (dsa.Generate example_GenerateKey k tt)) = x /\
     exists key,
       dsa.signer_k
         (fst (dsa.NewSigner (fst (dsa.Generate example_GenerateKey k tt))))
       = Some key /\ dsa.X key = x).
Proof.
  apply (DSAMoreFacts.Generate_left_aligned example_GenerateKey
           (repeat x00 20) tt (2 ^ 159 + 5) 1).
  - reflexivity.
  - reflexivity.
  - vm_compute. split; congruence.
Defined.

Lemma GetPublicKey_needs_payload_witness :
  let cert := keys_and_cert.kac_Certificate example_keys_and_cert in
  let has_payload :=
    snd (example_cert_Type cert) = None /\
    snd (example_cert_Length cert) = None /\
    fst (example_cert_Length cert) <> 0 in
  (keys_and_cert.GetPublicKey (0, 0) example_cert_Type example_cert_Length
     example_keys_and_cert
   = (Some (keys_and_cert.ElgPublicKey (repeat x01 256)), None)
   <-> has_payload) /\
  (keys_and_cert.GetSigningPublicKey (0, 0) example_cert_Type
     example_cert_Length example_keys_and_cert
   = (Some (keys_and_cert.DSAPublicKey (repeat x02 128)), None)
   <-> has_payload) /\
  (snd (example_cert_Type cert) = None ->
   example_cert_Length cert = (0, None) ->
   keys_and_cert.GetPublicKey (0, 0) example_cert_Type example_cert_Length
     example_keys_and_cert = (None, None) /\
   keys_and_cert.GetSigningPublicKey (0, 0) example_cert_Type
     example_cert_Length example_keys_and_cert = (None, None)).
Proof.
  exact (KeysAndCertMoreFacts.GetPublicKey_needs_payload (0, 0)
           example_cert_Type example_cert_Length example_keys_and_cert
           (keys_and_cert.ElgPublicKey (repeat x01 256))
           (keys_and_cert.DSAPublicKey (repeat x02 128)) eq_refl eq_refl).
Defined.

Lemma ReadKeys_remainder_witness :
  (exists r,
     keys_and_cert.ReadKeys example_cert_Type example_cert_Length
       example_ConstructPublicKey example_ConstructSigningPublicKey
       (example_keys_and_cert_data ++ [x07; x08; x09]) (0, 2) = ret r /\
     (keys_and_cert.KEYS_AND_CERT_MIN_SIZE + 2
      <= len (example_keys_and_cert_data ++ [x07; x08; x09]) ->
        keys_and_cert.remainder r
        = skipn (Z.to_nat (keys_and_cert.KEYS_AND_CERT_MIN_SIZE + 2))
            (example_keys_and_cert_data ++ [x07; x08; x09]) /\
        len (keys_and_cert.remainder r)
        = len (example_keys_and_cert_data ++ [x07; x08; x09])
          - keys_and_cert.KEYS_AND_CERT_MIN_SIZE - 2) /\
     (len (example_keys_and_cert_data ++ [x07; x08; x09])
      < keys_and_cert.KEYS_AND_CERT_MIN_SIZE + 2 ->
        keys_and_cert.remainder r = [] /\
        keys_and_cert.err r = keys_and_cert.foreign None) /\
     length (keys_and_cert.data_after r)
     = length (example_keys_and_cert_data ++ [x07; x08; x09]) /\
     skipn 256 (keys_and_cert.data_after r)
     = skipn 256 (example_keys_and_cert_data ++ [x07; x08; x09])) /\
  keys_and_cert.ReadKeys example_cert_Type example_cert_Length
    example_ConstructPublicKey example_ConstructSigningPublicKey
    example_keys_and_cert_data (0, 2 ^ 63 - 1) = panic.
Proof.
  split.
  - refine (proj1 (KeysAndCertMoreFacts.ReadKeys_remainder example_cert_Type
                     example_cert_Length example_ConstructPublicKey
                     example_ConstructSigningPublicKey
                     (example_keys_and_cert_data ++ [x07; x08; x09]) (0, 2)
                     _ _) _).
    + vm_compute. congruence.
    + vm_compute. split; congruence.
    + vm_compute. reflexivity.
  - refine (proj2 (KeysAndCertMoreFacts.ReadKeys_remainder example_cert_Type
                     example_cert_Length example_ConstructPublicKey
                     example_ConstructSigningPublicKey
                     example_keys_and_cert_data (0, 2 ^ 63 - 1)
                     _ _) _).
    + vm_compute. congruence.
    + vm_compute. split; congruence.
    + vm_compute. congruence.
Defined.

Lemma ReadKeys_legacy_witness :
  exists r,
    keys_and_cert.ReadKeys example_cert_Type example_cert_Length
      example_ConstructPublicKey example_ConstructSigningPublicKey
      example_keys_and_cert_data (0, 0) = ret r /\
    keys_and_cert.pk r = Some (keys_and_cert.ElgPublicKey (make 256)) /\
    keys_and_cert.spk r
    = Some (keys_and_cert.DSAPublicKey
              (firstn 128 (skipn 256 example_keys_and_cert_data))) /\
    keys_and_cert.data_after r
    = make 256 ++ skipn 256 example_keys_and_cert_data.
Proof.
  apply (KeysAndCertFacts.ReadKeys_legacy example_cert_Type
           example_cert_Length example_ConstructPublicKey
           example_ConstructSigningPublicKey example_keys_and_cert_data (0, 0)).
  - vm_compute. congruence.
  - vm_compute. congruence.
  - vm_compute. congruence.
  - vm_compute. reflexivity.
Defined.

Lemma ReadKeys_key_certificate_witness :
  exists r,
    keys_and_cert.ReadKeys example_cert_Type example_cert_Length
      example_ConstructPublicKey example_ConstructSigningPublicKey
      example_keys_and_cert_data (5, 0) = ret r /\
    keys_and_cert.pk r
    = fst (example_ConstructPublicKey
             {| keys_and_cert.PKType := keys_and_cert.CERT_KEY;
                keys_and_cert.SPKType := 0 |}
             (firstn 256 example_keys_and_cert_data)) /\
    keys_and_cert.spk r
    = fst (example_ConstructSigningPublicKey
             {| keys_and_cert.PKType := 0;
                keys_and_cert.SPKType := keys_and_cert.CERT_KEY |}
             (firstn 128 (skipn 256 example_keys_and_cert_data))) /\
    keys_and_cert.data_after r = example_keys_and_cert_data.
Proof.
  apply (KeysAndCertFacts.ReadKeys_key_certificate example_cert_Type
           example_cert_Length example_ConstructPublicKey
           example_ConstructSigningPublicKey example_keys_and_cert_data (5, 0)).
  - vm_compute. congruence.
  - reflexivity.
  - vm_compute. congruence.
  - vm_compute. reflexivity.
Defined.

Lemma ReadKeysAndCert_certificate_witness :
  exists r : @keys_and_cert.ReadKeysAndCert_result unit (Z * Z) Empty_set
               Empty_set,
    keys_and_cert.ReadKeysAndCert (0, 0) example_cert_Type example_cert_Length
      example_ReadCertificate example_ConstructPublicKey
      example_ConstructSigningPublicKey example_keys_and_cert_data = ret r /\
    keys_and_cert.kac_Certificate (keys_and_cert.keys_and_cert r) = (0, 0) /\
    (keys_and_cert.kac_err r <> None ->
     keys_and_cert.keys_and_cert r = keys_and_cert.zero_KeysAndCert (0, 0)).
Proof.
  apply (KeysAndCertMoreFacts.ReadKeysAndCert_certificate (0, 0)
           example_cert_Type example_cert_Length example_ReadCertificate
           example_ConstructPublicKey example_ConstructSigningPublicKey
           example_keys_and_cert_data).
  - vm_compute. congruence.
  - vm_compute. reflexivity.
Defined.

Lemma Deobfuscate_Obfuscate_blocks_witness :
  exists obfuscated,
    ntcp.ObfuscateEphemeral example_Data example_StaticKey xor_cipher
      example_session (repeat x07 48) = ret (obfuscated, None) /\
    length obfuscated = length (repeat x07 48) /\
    ntcp.DeobfuscateEphemeral example_Data example_StaticKey xor_cipher
      example_session obfuscated = ret (repeat x07 48, None).
Proof.
  apply (ObfuscationFacts.Deobfuscate_Obfuscate_blocks
           example_Data example_StaticKey xor_cipher xor_cipher
           example_session example_key (repeat x07 48) 3).
  - intros b Hb. apply xor_cipher_length; [cbn; lia|exact Hb].
  - intros b Hb. apply xor_cipher_inverse; [cbn; lia|exact Hb].
  - reflexivity.
  - reflexivity.
  - reflexivity.
Defined.

Lemma Obfuscate_Deobfuscate_blocks_witness :
  exists key,
    ntcp.DeobfuscateEphemeral example_Data example_StaticKey xor_cipher
      example_session (repeat x09 16) = ret (key, None) /\
    length key = length (repeat x09 16) /\
    ntcp.ObfuscateEphemeral example_Data example_StaticKey xor_cipher
      example_session key = ret (repeat x09 16, None).
Proof.
  apply (ObfuscationFacts.Obfuscate_Deobfuscate_blocks
           example_Data example_StaticKey xor_cipher xor_cipher
           example_session example_key (repeat x09 16) 1).
  - intros b Hb. apply xor_cipher_length; [cbn; lia|exact Hb].
  - intros b Hb. apply xor_cipher_length; [cbn; lia|exact Hb].
  - intros b Hb. apply xor_cipher_inverse; [cbn; lia|exact Hb].
  - reflexivity.
  - reflexivity.
  - reflexivity.
Defined.

Lemma Obfuscate_without_NTCP2_address_witness :
  ntcp.ObfuscateEphemeral example_Data example_StaticKey xor_cipher
    example_session_ssu (repeat x07 32)
  = ret ([], Some ntcp.ErrRemoteStaticKey) /\
  ntcp.DeobfuscateEphemeral example_Data example_StaticKey xor_cipher
    example_session_ssu (repeat x07 32)
  = ret ([], Some ntcp.ErrRemoteStaticKey).
Proof.
  apply (ObfuscationFacts.Obfuscate_without_NTCP2_address
           example_Data example_StaticKey xor_cipher xor_cipher
           example_session_ssu (repeat x07 32)).
  reflexivity.
Defined.

Lemma Obfuscate_partial_block_panics_witness :
  ntcp.ObfuscateEphemeral example_Data example_StaticKey xor_cipher
    example_session (repeat x07 31) = panic /\
  ntcp.DeobfuscateEphemeral example_Data example_StaticKey xor_cipher
    example_session (repeat x07 31) = panic.
Proof.
  apply (ObfuscationFacts.Obfuscate_partial_block_panics
           example_Data example_StaticKey xor_cipher xor_cipher
           example_session example_key (repeat x07 31)).
  - reflexivity.
  - reflexivity.
  - vm_compute. congruence.
Defined.

Lemma Obfuscate_chaining_witness :
  let key := repeat x07 16 ++ repeat x08 16 in
  let c1 := xor_cipher example_key (firstn 16 key) in
  let c2 := xor_cipher example_key (cipher.XORBytes (skipn 16 key) c1) in
  ntcp.ObfuscateEphemeral example_Data example_StaticKey xor_cipher
    example_session key = ret (c1 ++ c2, None).
Proof.
  apply (ObfuscationFacts.Obfuscate_chaining
           example_Data example_StaticKey xor_cipher
           example_session example_key (repeat x07 16 ++ repeat x08 16)).
  - intros b Hb. apply xor_cipher_length; [cbn; lia|exact Hb].
  - reflexivity.
  - reflexivity.
  - reflexivity.
Defined.

Lemma Obfuscate_first_address_key_error_witness :
  ntcp.ObfuscateEphemeral example_Data example_failing_StaticKey xor_cipher
    example_session (repeat x07 5) = ret ([], Some (ntcp.ErrForeign tt)) /\
  ntcp.DeobfuscateEphemeral example_Data example_failing_StaticKey xor_cipher
    example_session (repeat x07 5) = ret ([], Some (ntcp.ErrForeign tt)).
Proof.
  apply (ObfuscationFacts.Obfuscate_first_address_key_error
           example_Data example_failing_StaticKey xor_cipher xor_cipher
           example_session [("SSU"%string, repeat x11 32)] []
           ("NTCP2"%string, example_key) tt (repeat x07 5)).
  - reflexivity.
  - intros a [<-|[]]. unfold ntcp.has_NTCP2_style. vm_compute.
    intros H. discriminate H.
  - reflexivity.
  - reflexivity.
Defined.

Lemma CreateMessage_padding_declared_witness :
  exists m paddingLen,
    session_request.CreateMessage example_DateFromTime example_env
    = ret (Some m, None) /\
    session_request.PaddingLength (session_request.Options m)
    = Some paddingLen /\
    common.Integer paddingLen = ret (len (session_request.Padding m)) /\
    len (session_request.Padding m) = 3 /\
    session_request.Padding m = make (Z.to_nat 3) /\
    processor.GetPadding (OtherMessage := unit)
      (processor.SessionRequestMessage m)
    = session_request.Padding m.
Proof.
  apply (ProcessorFacts.CreateMessage_padding_declared example_DateFromTime
           example_env 3 (Some (common.IntegerBytes 1700000000000))).
  - reflexivity.
  - reflexivity.
  - lia.
  - reflexivity.
Defined.

Lemma ObfuscateKey_of_created_message_witness :
  (exists m obfuscated,
     session_request.CreateMessage example_DateFromTime example_env
     = ret (Some m, None) /\
     length (session_request.XContent m) = 32%nat /\
     processor.ObfuscateKey (OtherMessage := unit) example_Data
       example_StaticKey xor_cipher example_session
       (processor.SessionRequestMessage m) = ret (obfuscated, None) /\
     length obfuscated = 32%nat /\
     ntcp.DeobfuscateEphemeral example_Data example_StaticKey xor_cipher
       example_session obfuscated
     = ret (session_request.XContent m, None)) /\
  (forall other : unit,
     processor.ObfuscateKey (Date := list byte) example_Data example_StaticKey
       xor_cipher example_session (processor.AnotherMessage other)
     = ret ([], Some processor.ErrExpectedSessionRequest) /\
     processor.GetPadding (Date := list byte) (processor.AnotherMessage other)
     = []).
Proof.
  apply (ProcessorFacts.ObfuscateKey_of_created_message example_DateFromTime
           example_Data example_StaticKey xor_cipher xor_cipher
           example_env 3 (Some (common.IntegerBytes 1700000000000))
           example_session example_key).
  - reflexivity.
  - reflexivity.
  - lia.
  - reflexivity.
  - intros b Hb. apply xor_cipher_length; [cbn; lia|exact Hb].
  - intros b Hb. apply xor_cipher_inverse; [cbn; lia|exact Hb].
  - reflexivity.
  - reflexivity.
Defined.

End MoreWitnesses.

